(** * The N-API bridge of aws-crt-nodejs (source/module.c)

    A shallow embedding of the bridging layer between the native runtime
    and the Node host: value marshaling, thread-safe dispatch, the lazily
    chosen allocator with its memory statistics, and the process context
    with its life cycle and accessors.

    The C functions of module.c are embedded as computations over an
    explicit [world]: native and host memory, the file-scope globals, the
    host's exception state and the trace of observable calls.  The host
    (N-API) and aws-c-common are collaborators outside module.c; their
    calls are modelled after their documented behaviour, each in one
    clearly delimited definition. *)

From Stdlib Require Import ZArith Lia Bool String Ascii List.
From Stdlib.Strings Require Import Byte.
From stdpp Require Import base tactics option list.
Import ListNotations.

Local Open Scope Z_scope.

(** ** Host status codes and value kinds (js_native_api_types.h) *)

Inductive napi_status : Type :=
| napi_ok
| napi_invalid_arg
| napi_object_expected
| napi_string_expected
| napi_name_expected
| napi_function_expected
| napi_number_expected
| napi_boolean_expected
| napi_array_expected
| napi_generic_failure
| napi_pending_exception
| napi_cancelled
| napi_escape_called_twice
| napi_handle_scope_mismatch
| napi_callback_scope_mismatch
| napi_queue_full
| napi_closing
| napi_bigint_expected
| napi_status_future (code : Z).

(** [status == napi_ok] *)
Definition status_ok (status : napi_status) : bool :=
  match status with napi_ok => true | _ => false end.

Inductive napi_valuetype : Type :=
| napi_undefined | napi_null | napi_boolean | napi_number | napi_string
| napi_symbol | napi_object | napi_function | napi_external | napi_bigint.

(** [napi_typedarray_type] is a C enum; the code reads it through an [int]
    ([int type_hack = array_type]), so it is kept as an integer. *)
Definition napi_int8_array : Z := 0.
Definition napi_uint8_array : Z := 1.
Definition napi_uint8_clamped_array : Z := 2.
Definition napi_int16_array : Z := 3.
Definition napi_uint16_array : Z := 4.
Definition napi_int32_array : Z := 5.
Definition napi_uint32_array : Z := 6.
Definition napi_float32_array : Z := 7.
Definition napi_float64_array : Z := 8.
Definition napi_bigint64_array : Z := 9.
Definition napi_biguint64_array : Z := 10.

Inductive napi_threadsafe_function_release_mode : Type :=
| napi_tsfn_release | napi_tsfn_abort.

Inductive napi_threadsafe_function_call_mode : Type :=
| napi_tsfn_nonblocking | napi_tsfn_blocking.

(** ** Native data *)

(** [size_t] arithmetic wraps modulo 2^64. *)
Definition SIZE_MAX : Z := 2 ^ 64 - 1.
Definition size_t (z : Z) : Z := z mod 2 ^ 64.

(** A pointer is a block of the memory and a byte offset into it; the C
    null pointer is [None]. *)
Record ptr : Type := mk_ptr { blk : nat; off : Z }.

(** aws-c-common allocators: the process default, and what
    [aws_mem_tracer_new] returns, a fresh tracing allocator wrapped around
    its argument (never the argument itself). *)
Inductive aws_allocator : Type :=
| aws_default_allocator
| mem_tracer (traced : aws_allocator) (level : Z) (frames_per_stack : Z).

Definition AWS_MEMTRACE_NONE : Z := 0.
Definition AWS_MEMTRACE_BYTES : Z := 1.
Definition AWS_MEMTRACE_STACKS : Z := 2.

Definition aws_mem_tracer_new (allocator : aws_allocator)
    (level : Z) (frames_per_stack : Z) : aws_allocator :=
  mem_tracer allocator level frames_per_stack.

(** [struct aws_byte_buf]: the allocator member is the owning flag, a
    buffer with a null allocator is a borrowed view. *)
Record aws_byte_buf : Type := mk_byte_buf {
  len : Z;
  buffer : option ptr;
  capacity : Z;
  allocator : option aws_allocator
}.

Definition set_len (v : Z) (b : aws_byte_buf) : aws_byte_buf :=
  mk_byte_buf v (buffer b) (capacity b) (allocator b).
Definition set_buffer (v : option ptr) (b : aws_byte_buf) : aws_byte_buf :=
  mk_byte_buf (len b) v (capacity b) (allocator b).
Definition set_capacity (v : Z) (b : aws_byte_buf) : aws_byte_buf :=
  mk_byte_buf (len b) (buffer b) v (allocator b).

(** [AWS_ZERO_STRUCT] on a byte buffer. *)
Definition zero_byte_buf : aws_byte_buf := mk_byte_buf 0 None 0 None.

(** [struct aws_byte_cursor] *)
Record aws_byte_cursor : Type := mk_cursor { cur_len : Z; cur_ptr : option ptr }.

Definition aws_byte_cursor_from_buf (buf : aws_byte_buf) : aws_byte_cursor :=
  mk_cursor (len buf) (buffer buf).

(** [struct aws_string]: one allocation holding the allocator, the length
    and the bytes followed by a NUL. *)
Record aws_string : Type := mk_string {
  str_allocator : aws_allocator;
  str_len : Z;
  str_bytes : ptr
}.

(** ** Host values *)

(** What a host callable does when it is invoked. *)
Inductive js_value : Type :=
| JsUndefined
| JsNull
| JsBoolean (b : bool)
| JsNumber (n : Z)
| JsString (utf8 : list byte)
| JsSymbol
| JsBigInt (n : Z)
| JsExternal
| JsFunction (body : call_outcome)
| JsObject
| JsError (message stack : js_value)
| JsArrayBuffer (store : nat)
| JsDataView (store : nat) (byte_offset byte_length : Z)
| JsTypedArray (array_type : Z) (store : nat) (byte_offset elements : Z)
with call_outcome : Type :=
| CallReturns
| CallThrows (thrown : js_value)
| CallFails (status : napi_status).

(** A [napi_value] is a handle; the null handle is [None]. *)
Definition napi_value : Type := option js_value.

(** [napi_threadsafe_function]: a handle, possibly null. *)
Definition napi_threadsafe_function : Type := option nat.

Record napi_extended_error_info : Type := mk_error_info {
  error_message : option string;
  engine_error_code : Z;
  error_code : napi_status
}.

Record tsfn_state : Type := mk_tsfn {
  thread_count : nat;
  is_closing : bool;
  queued : list Z
}.

(** ** Observable calls *)

(** Arguments of a printf-style call. *)
Inductive log_arg : Type :=
| arg_cstr (s : list byte)     (* %s of a NUL-terminated buffer *)
| arg_text (s : string)        (* %s of a string literal *)
| arg_uint (n : Z)             (* %u *)
| arg_null.                    (* %s of a null pointer *)

(** Calls into the libraries next to module.c (aws-c-*, logger.c, the
    other bindings) that module.c makes for their effect only. *)
Inductive lib_call : Type :=
| install_crash_handler
| aws_cal_library_init (a : aws_allocator)
| aws_http_library_init (a : aws_allocator)
| aws_mqtt_library_init (a : aws_allocator)
| aws_auth_library_init (a : aws_allocator)
| aws_register_error_info
| aws_register_log_subject_info_list
| aws_napi_logger_new (a : aws_allocator)
| aws_event_loop_group_new_default (a : aws_allocator) (max_threads : Z)
| aws_host_resolver_new_default (a : aws_allocator) (max_entries : Z)
    (el_group : option nat)
| aws_client_bootstrap_new (a : aws_allocator)
    (event_loop_group host_resolver : option nat)
| napi_wrap_context
| napi_export (name : string)
| aws_client_bootstrap_release (h : option nat)
| aws_host_resolver_release (h : option nat)
| aws_event_loop_group_release (h : option nat)
| aws_thread_join_all_managed
| aws_unregister_log_subject_info_list
| aws_unregister_error_info
| aws_auth_library_clean_up
| aws_mqtt_library_clean_up
| aws_napi_logger_destroy (logger : option nat)
| aws_mem_release_context (a : aws_allocator)
| aws_mem_tracer_destroy (a : aws_allocator)
| napi_throw_error (msg : string).

Inductive event : Type :=
| ev_log_error (fmt : string) (args : list log_arg)
| ev_napi_call_failed (call : string) (status : napi_status)
| ev_stderr (fmt : string) (args : list log_arg)
| ev_mem_release (a : aws_allocator) (p : ptr)
| ev_tsfn_acquire (f : napi_threadsafe_function)
| ev_tsfn_release (f : napi_threadsafe_function)
    (mode : napi_threadsafe_function_release_mode)
| ev_tsfn_unref (f : napi_threadsafe_function)
| ev_tsfn_call (f : napi_threadsafe_function) (data : Z)
    (mode : napi_threadsafe_function_call_mode)
| ev_lib (c : lib_call).

(** ** The world *)

(** Who handed a block of memory out. *)
Inductive region : Type :=
| native (a : aws_allocator)
| host_store.

Record block : Type := mk_block {
  b_region : region;
  b_live : bool;
  b_bytes : list byte
}.

Inductive env_lookup : Type :=
| EnvError                 (* aws_get_environment_value failed *)
| EnvUnset                 (* the variable is not set *)
| EnvSet (value : string).

(** Host operations of the module set-up whose status the host decides. *)
Inductive host_op : Type :=
| op_napi_wrap
| op_napi_create_function (name : string)
| op_napi_set_named_property (name : string)
| op_http_headers_bind
| op_http_message_bind
| op_auth_bind.

Inductive lib_object : Type :=
| obj_context | obj_logger | obj_event_loop_group | obj_host_resolver
| obj_client_bootstrap.

(** The part of the surroundings that module.c only reads. *)
Record surroundings : Type := mk_surroundings {
  (* the value of AWS_CRT_MEMORY_TRACING *)
  getenv_mem_tracing : env_lookup;
  (* what an aws_byte_buf local holds before it is initialised *)
  stack_byte_buf : aws_byte_buf;
  (* napi_get_last_error_info *)
  last_error_info : napi_extended_error_info;
  (* ECMAScript ToString, [None] when the conversion throws *)
  to_string : js_value -> option (list byte);
  (* status of the set-up calls *)
  host_status : host_op -> napi_status;
  (* what a library constructor returns, [None] for NULL *)
  lib_new : lib_object -> option nat;
  (* what the C library's atoi returns for a number that does not fit an
     int; the C standard leaves it undefined *)
  atoi_out_of_range : Z -> Z;
  (* what the allocator member of a context reads as once the context has
     been released, read by read *)
  released_allocator : nat -> aws_allocator
}.

Record world : Type := mk_world {
  w_mem : list block;
  w_native_avail : Z;
  w_host_avail : Z;
  s_allocator : option aws_allocator;
  s_node_uv_elg : option nat;
  s_default_host_resolver : option nat;
  s_default_client_bootstrap : option nat;
  w_pending : option js_value;
  w_tsfn : nat -> tsfn_state;
  w_trace : list event;
  w_around : surroundings
}.

Definition set_mem (v : list block) (w : world) : world :=
  mk_world v (w_native_avail w) (w_host_avail w) (s_allocator w)
    (s_node_uv_elg w) (s_default_host_resolver w) (s_default_client_bootstrap w)
    (w_pending w) (w_tsfn w) (w_trace w) (w_around w).
Definition set_native_avail (v : Z) (w : world) : world :=
  mk_world (w_mem w) v (w_host_avail w) (s_allocator w)
    (s_node_uv_elg w) (s_default_host_resolver w) (s_default_client_bootstrap w)
    (w_pending w) (w_tsfn w) (w_trace w) (w_around w).
Definition set_host_avail (v : Z) (w : world) : world :=
  mk_world (w_mem w) (w_native_avail w) v (s_allocator w)
    (s_node_uv_elg w) (s_default_host_resolver w) (s_default_client_bootstrap w)
    (w_pending w) (w_tsfn w) (w_trace w) (w_around w).
Definition set_s_allocator (v : option aws_allocator) (w : world) : world :=
  mk_world (w_mem w) (w_native_avail w) (w_host_avail w) v
    (s_node_uv_elg w) (s_default_host_resolver w) (s_default_client_bootstrap w)
    (w_pending w) (w_tsfn w) (w_trace w) (w_around w).
Definition set_s_node_uv_elg (v : option nat) (w : world) : world :=
  mk_world (w_mem w) (w_native_avail w) (w_host_avail w) (s_allocator w)
    v (s_default_host_resolver w) (s_default_client_bootstrap w)
    (w_pending w) (w_tsfn w) (w_trace w) (w_around w).
Definition set_s_default_host_resolver (v : option nat) (w : world) : world :=
  mk_world (w_mem w) (w_native_avail w) (w_host_avail w) (s_allocator w)
    (s_node_uv_elg w) v (s_default_client_bootstrap w)
    (w_pending w) (w_tsfn w) (w_trace w) (w_around w).
Definition set_s_default_client_bootstrap (v : option nat) (w : world) : world :=
  mk_world (w_mem w) (w_native_avail w) (w_host_avail w) (s_allocator w)
    (s_node_uv_elg w) (s_default_host_resolver w) v
    (w_pending w) (w_tsfn w) (w_trace w) (w_around w).
Definition set_pending (v : option js_value) (w : world) : world :=
  mk_world (w_mem w) (w_native_avail w) (w_host_avail w) (s_allocator w)
    (s_node_uv_elg w) (s_default_host_resolver w) (s_default_client_bootstrap w)
    v (w_tsfn w) (w_trace w) (w_around w).
Definition set_tsfn (v : nat -> tsfn_state) (w : world) : world :=
  mk_world (w_mem w) (w_native_avail w) (w_host_avail w) (s_allocator w)
    (s_node_uv_elg w) (s_default_host_resolver w) (s_default_client_bootstrap w)
    (w_pending w) v (w_trace w) (w_around w).
Definition set_trace (v : list event) (w : world) : world :=
  mk_world (w_mem w) (w_native_avail w) (w_host_avail w) (s_allocator w)
    (s_node_uv_elg w) (s_default_host_resolver w) (s_default_client_bootstrap w)
    (w_pending w) (w_tsfn w) v (w_around w).

(** ** Computations *)

(** A C function either returns or ends the process (a fatal assertion,
    or the host's own check). *)
Inductive outcome (A : Type) : Type :=
| Ret (a : A)
| Fatal (what : string).
Arguments Ret {A} a.
Arguments Fatal {A} what.

Definition M (A : Type) : Type := world -> outcome A * world.

Definition ret {A} (a : A) : M A := fun w => (Ret a, w).

Definition bind {A B} (m : M A) (k : A -> M B) : M B :=
  fun w => match m w with
           | (Ret a, w') => k a w'
           | (Fatal what, w') => (Fatal what, w')
           end.

Notation "'let*' x ':=' m 'in' k" := (bind m (fun x => k))
  (at level 10, x pattern, m at level 100, k at level 200).
Notation "'run' m 'then' k" := (bind m (fun _ => k))
  (at level 10, m at level 100, k at level 200).

Definition fatal {A} (what : string) : M A := fun w => (Fatal what, w).
Definition get_world : M world := fun w => (Ret w, w).
Definition modify (f : world -> world) : M unit := fun w => (Ret tt, f w).
Definition emit (e : event) : M unit :=
  modify (fun w => set_trace (w_trace w ++ [e]) w).

Arguments ret {A} a w /.
Arguments bind {A B} m k w /.
Arguments fatal {A} what w /.
Arguments get_world w /.
Arguments modify f w /.
Arguments emit e w /.

(** [AWS_NAPI_LOGF_ERROR(fmt, ...)] *)
Definition AWS_NAPI_LOGF_ERROR (fmt : string) (args : list log_arg) : M unit :=
  emit (ev_log_error fmt args).

(** Modelled from the spec: the macros AWS_NAPI_CALL and AWS_NAPI_ENSURE
    are declared in module.h, which is not part of the reviewed source.
    [AWS_NAPI_CALL(env, call, on_fail)] evaluates the call and, when its
    status is not [napi_ok], reports the failed call and runs [on_fail]
    with [status] in scope; [rest] is the code after the macro. *)
Definition AWS_NAPI_CALL {A B} (name : string) (call : M (napi_status * A))
    (on_fail : napi_status -> M B) (rest : A -> M B) : M B :=
  let* r := call in
  if status_ok (fst r) then rest (snd r)
  else (run emit (ev_napi_call_failed name (fst r)) then on_fail (fst r)).

(** Modelled from the spec: AWS_NAPI_ENSURE is declared in module.h as
    well.  [AWS_NAPI_ENSURE(env, call)] is the fatal form of the status
    check: a status other than [napi_ok] ends the process.  module.c has
    no branch for the failure of a call made under it, in functions that
    return nothing, a status or a value alike, and the spec counts a
    context that cannot be set up, which is what the macro guards in
    [s_napi_context_new], among the conditions that terminate the
    process. *)
Definition AWS_NAPI_ENSURE {A} (name : string) (call : M (napi_status * A)) : M A :=
  let* r := call in
  if status_ok (fst r) then ret (snd r) else fatal name.

(** [AWS_FATAL_ASSERT(cond)] *)
Definition AWS_FATAL_ASSERT (cond : bool) (what : string) : M unit :=
  if cond then ret tt else fatal what.

(** ** Memory (aws-c-common and the host's array buffers) *)

Definition block_bytes (m : list block) (b : nat) : list byte :=
  match m !! b with
  | Some bl => b_bytes bl
  | None => []
  end.

(** Reading [n] bytes at a pointer; bytes outside the block read as 0. *)
Definition load (m : list block) (p : option ptr) (n : Z) : list byte :=
  match p with
  | Some p => resize (Z.to_nat n) x00 (drop (Z.to_nat (off p)) (block_bytes m (blk p)))
  | None => replicate (Z.to_nat n) x00
  end.

Definition splice (o : nat) (bs : list byte) (old : list byte) : list byte :=
  take o old ++ bs ++ drop (o + length bs) old.

Definition write_block (o : nat) (bs : list byte) (bl : block) : block :=
  mk_block (b_region bl) (b_live bl) (splice o bs (b_bytes bl)).

(** memcpy of [bs] to a pointer. *)
Definition store (p : option ptr) (bs : list byte) (m : list block) : list block :=
  match p with
  | Some p => alter (write_block (Z.to_nat (off p)) bs) (blk p) m
  | None => m
  end.

Definition kill_block (bl : block) : block :=
  mk_block (b_region bl) false (b_bytes bl).

(** [aws_mem_acquire]: a fresh block, or NULL when the allocator cannot
    serve the request. *)
Definition aws_mem_acquire (a : aws_allocator) (size : Z) (content : Z) : M (option ptr) :=
  fun w =>
    if (size <=? w_native_avail w) then
      (Ret (Some (mk_ptr (length (w_mem w)) 0)),
       set_native_avail (w_native_avail w - size)
         (set_mem (w_mem w ++ [mk_block (native a) true (replicate (Z.to_nat content) x00)]) w))
    else (Ret None, w).

(** [aws_mem_release] *)
Definition aws_mem_release (a : aws_allocator) (p : ptr) : M unit :=
  run emit (ev_mem_release a p) then
  modify (fun w => set_mem (alter kill_block (blk p) (w_mem w)) w).

(** [aws_byte_buf_init]: returns whether it failed, and the buffer. *)
Definition aws_byte_buf_init (a : aws_allocator) (cap : Z) : M (bool * aws_byte_buf) :=
  if cap =? 0 then ret (false, mk_byte_buf 0 None cap (Some a))
  else
    let* p := aws_mem_acquire a cap cap in
    match p with
    | None => ret (true, zero_byte_buf)
    | Some p => ret (false, mk_byte_buf 0 (Some p) cap (Some a))
    end.

(** [aws_byte_buf_clean_up] *)
Definition aws_byte_buf_clean_up (buf : aws_byte_buf) : M aws_byte_buf :=
  match allocator buf, buffer buf with
  | Some a, Some p => run aws_mem_release a p then ret zero_byte_buf
  | _, _ => ret zero_byte_buf
  end.

(** [aws_byte_buf_from_empty_array] *)
Definition aws_byte_buf_from_empty_array (data : option ptr) (cap : Z) : aws_byte_buf :=
  mk_byte_buf 0 data cap None.

Definition ptr_add (p : option ptr) (n : Z) : option ptr :=
  match p with
  | Some p => Some (mk_ptr (blk p) (off p + n))
  | None => None
  end.

(** [aws_byte_buf_write_from_whole_cursor] *)
Definition aws_byte_buf_write_from_whole_cursor (buf : aws_byte_buf)
    (src : aws_byte_cursor) : M (bool * aws_byte_buf) :=
  if cur_len src =? 0 then ret (true, buf)
  else if (len buf >? SIZE_MAX / 2) || (cur_len src >? SIZE_MAX / 2)
          || (len buf + cur_len src >? capacity buf)
  then ret (false, buf)
  else
    let* w := get_world in
    run modify (set_mem (store (ptr_add (buffer buf) (len buf))
                           (load (w_mem w) (cur_ptr src) (cur_len src)) (w_mem w))) then
    ret (true, set_len (len buf + cur_len src) buf).

Definition sizeof_aws_string : Z := 16.

(** [aws_string_new_from_array] *)
Definition aws_string_new_from_array (a : aws_allocator) (bytes : option ptr)
    (n : Z) : M (option aws_string) :=
  let* w := get_world in
  let* p := aws_mem_acquire a (sizeof_aws_string + 1 + n) (n + 1) in
  match p with
  | None => ret None
  | Some p =>
      run modify (fun w' => set_mem (store (Some p) (load (w_mem w) bytes n ++ [x00])
                                       (w_mem w')) w') then
      ret (Some (mk_string a n p))
  end.

(** [aws_string_destroy] *)
Definition aws_string_destroy (s : aws_string) : M unit :=
  aws_mem_release (str_allocator s) (str_bytes s).

(** What [%s] prints of a buffer: the bytes before the first NUL. *)
Fixpoint c_str (bs : list byte) : list byte :=
  match bs with
  | [] => []
  | b :: rest => if Byte.eqb b x00 then [] else b :: c_str rest
  end.

(** [aws_string_c_str] / [aws_string_bytes], as a printf argument. *)
Definition aws_string_c_str (s : aws_string) : M log_arg :=
  let* w := get_world in
  ret (arg_cstr (c_str (load (w_mem w) (Some (str_bytes s)) (str_len s + 1)))).

(** ** The host interface (N-API), as module.c uses it

    Every function is called with the one valid [napi_env] of the module
    and so the environment argument is left out. *)

Definition valuetype_of (v : js_value) : napi_valuetype :=
  match v with
  | JsUndefined => napi_undefined
  | JsNull => napi_null
  | JsBoolean _ => napi_boolean
  | JsNumber _ => napi_number
  | JsString _ => napi_string
  | JsSymbol => napi_symbol
  | JsBigInt _ => napi_bigint
  | JsExternal => napi_external
  | JsFunction _ => napi_function
  | JsObject | JsError _ _ | JsArrayBuffer _ | JsDataView _ _ _
  | JsTypedArray _ _ _ _ => napi_object
  end.

Definition napi_typeof (value : napi_value) : M (napi_status * napi_valuetype) :=
  match value with
  | None => ret (napi_invalid_arg, napi_undefined)
  | Some v => ret (napi_ok, valuetype_of v)
  end.

(** With a null [buf] the call reports the UTF-8 length; otherwise it
    copies at most [bufsize - 1] bytes, writes the terminator after them
    and reports the number of bytes copied. *)
Definition napi_get_value_string_utf8 (value : napi_value) (buf : option ptr)
    (bufsize : Z) : M (napi_status * Z) :=
  match value with
  | None => ret (napi_invalid_arg, 0)
  | Some (JsString utf8) =>
      match buf with
      | None => ret (napi_ok, Z.of_nat (length utf8))
      | Some p =>
          if bufsize =? 0 then ret (napi_ok, 0)
          else
            let copied := take (Z.to_nat (bufsize - 1)) utf8 in
            run modify (fun w => set_mem (store (Some p) (copied ++ [x00]) (w_mem w)) w) then
            ret (napi_ok, Z.of_nat (length copied))
      end
  | Some _ => ret (napi_string_expected, 0)
  end.

Definition napi_is_arraybuffer (value : napi_value) : M (napi_status * bool) :=
  match value with
  | None => ret (napi_invalid_arg, false)
  | Some (JsArrayBuffer _) => ret (napi_ok, true)
  | Some _ => ret (napi_ok, false)
  end.

Definition napi_is_dataview (value : napi_value) : M (napi_status * bool) :=
  match value with
  | None => ret (napi_invalid_arg, false)
  | Some (JsDataView _ _ _) => ret (napi_ok, true)
  | Some _ => ret (napi_ok, false)
  end.

Definition napi_is_typedarray (value : napi_value) : M (napi_status * bool) :=
  match value with
  | None => ret (napi_invalid_arg, false)
  | Some (JsTypedArray _ _ _ _) => ret (napi_ok, true)
  | Some _ => ret (napi_ok, false)
  end.

(** data pointer and byte length *)
Definition napi_get_arraybuffer_info (value : napi_value)
    : M (napi_status * (option ptr * Z)) :=
  let* w := get_world in
  match value with
  | Some (JsArrayBuffer store) =>
      ret (napi_ok, (Some (mk_ptr store 0),
                     Z.of_nat (length (block_bytes (w_mem w) store))))
  | _ => ret (napi_invalid_arg, (None, 0))
  end.

(** byte length and data pointer (the view's first byte) *)
Definition napi_get_dataview_info (value : napi_value)
    : M (napi_status * (Z * option ptr)) :=
  match value with
  | Some (JsDataView store byte_offset byte_length) =>
      ret (napi_ok, (byte_length, Some (mk_ptr store byte_offset)))
  | _ => ret (napi_invalid_arg, (0, None))
  end.

(** element kind, element count and data pointer (the first element) *)
Definition napi_get_typedarray_info (value : napi_value)
    : M (napi_status * (Z * Z * option ptr)) :=
  match value with
  | Some (JsTypedArray array_type store byte_offset elements) =>
      ret (napi_ok, (array_type, elements, Some (mk_ptr store byte_offset)))
  | _ => ret (napi_invalid_arg, (0, 0, None))
  end.

(** A zero-filled host buffer of [byte_length] bytes: its data pointer and
    the ArrayBuffer value. *)
Definition napi_create_arraybuffer (byte_length : Z)
    : M (napi_status * (option ptr * napi_value)) :=
  fun w =>
    if byte_length <=? w_host_avail w then
      let store := length (w_mem w) in
      (Ret (napi_ok, (Some (mk_ptr store 0), Some (JsArrayBuffer store))),
       set_host_avail (w_host_avail w - byte_length)
         (set_mem (w_mem w ++ [mk_block host_store true
                                 (replicate (Z.to_nat byte_length) x00)]) w))
    else (Ret (napi_generic_failure, (None, None)), w).

(** A view outside of the buffer makes the host throw a RangeError. *)
Definition napi_create_dataview (byte_length : Z) (arraybuffer : napi_value)
    (byte_offset : Z) : M (napi_status * js_value) :=
  let* w := get_world in
  match arraybuffer with
  | Some (JsArrayBuffer store) =>
      if byte_offset + byte_length
           <=? Z.of_nat (length (block_bytes (w_mem w) store))
      then ret (napi_ok, JsDataView store byte_offset byte_length)
      else
        run modify (set_pending (Some (JsError (JsString []) (JsString [])))) then
        ret (napi_pending_exception, JsUndefined)
  | _ => ret (napi_invalid_arg, JsUndefined)
  end.

(** ** Allocator Indirection *)

(** C's [atoi]: leading white space, an optional sign, decimal digits;
    anything else ends the number.  [decimal_value] is the number that is
    written there. *)
Definition is_space (c : ascii) : bool :=
  let n := N_of_ascii c in
  (N.eqb n 32 || (N.leb 9 n && N.leb n 13))%bool.

Definition digit_of (c : ascii) : option Z :=
  let n := Z.of_N (N_of_ascii c) in
  if (48 <=? n) && (n <=? 57) then Some (n - 48) else None.

Fixpoint digits_value (acc : Z) (s : string) : Z :=
  match s with
  | EmptyString => acc
  | String c rest =>
      match digit_of c with
      | Some d => digits_value (acc * 10 + d) rest
      | None => acc
      end
  end.

Fixpoint skip_space (s : string) : string :=
  match s with
  | EmptyString => EmptyString
  | String c rest => if is_space c then skip_space rest else s
  end.

Definition decimal_value (s : string) : Z :=
  match skip_space s with
  | String "-" rest => - digits_value 0 rest
  | String "+" rest => digits_value 0 rest
  | s' => digits_value 0 s'
  end.

Definition INT_MIN : Z := -2147483648.
Definition INT_MAX : Z := 2147483647.

(** The value of the type [int] that has the low 32 bits of [z]. *)
Definition to_int (z : Z) : Z := (z - INT_MIN) mod 2 ^ 32 + INT_MIN.

(** [atoi] returns an [int].  When the number written in [s] fits one,
    that number is the result; when it does not, C leaves the result
    undefined and the model takes the [int] that the C library of the
    surroundings returns. *)
Definition atoi (around : surroundings) (s : string) : Z :=
  let n := decimal_value s in
  if (INT_MIN <=? n) && (n <=? INT_MAX) then n
  else to_int (atoi_out_of_range around n).

Definition invalid_tracing_fmt : string :=
  "AWS_CRT_MEMORY_TRACING is set to invalid value: %s, must be 0 (none), 1 (bytes), or 2 (stacks)".

(** [aws_napi_get_allocator] (the string that
    [aws_get_environment_value] allocates is kept outside [w_mem]). *)
Definition aws_napi_get_allocator : M aws_allocator :=
  let* w := get_world in
  match s_allocator w with
  | Some a => ret a
  | None =>
      match getenv_mem_tracing (w_around w) with
      | EnvError | EnvUnset =>
          run modify (set_s_allocator (Some aws_default_allocator)) then
          ret aws_default_allocator
      | EnvSet value =>
          let level := atoi (w_around w) value in
          let* level :=
            (if (level <? AWS_MEMTRACE_NONE) || (level >? AWS_MEMTRACE_STACKS) then
               run emit (ev_stderr invalid_tracing_fmt [arg_text value]) then
               ret AWS_MEMTRACE_NONE
             else ret level) in
          let a := aws_mem_tracer_new aws_default_allocator level 16 in
          run modify (set_s_allocator (Some a)) then
          ret a
      end
  end.

(** ** Value Marshaling *)

(** The [switch (type_hack)] of [aws_byte_buf_init_from_napi]; the
    variable starts at 0 and the switch has no default. *)
Definition element_size (type_hack : Z) : Z :=
  if (type_hack =? napi_int8_array) || (type_hack =? napi_uint8_array)
     || (type_hack =? napi_uint8_clamped_array) then 1
  else if (type_hack =? napi_int16_array) || (type_hack =? napi_uint16_array) then 2
  else if (type_hack =? napi_int32_array) || (type_hack =? napi_uint32_array)
          || (type_hack =? napi_float32_array) then 4
  else if (type_hack =? napi_float64_array) || (type_hack =? 9)
          || (type_hack =? 10) then 8
  else 0.

(** [aws_byte_buf_init_from_napi]: [buf] is what the caller's structure
    holds on entry, the result is the status and what it holds on return. *)
Definition aws_byte_buf_init_from_napi (buf : aws_byte_buf) (node_str : napi_value)
    : M (napi_status * aws_byte_buf) :=
  AWS_NAPI_CALL "napi_typeof" (napi_typeof node_str)
    (fun status => ret (status, buf)) (fun type =>
  match type with
  | napi_string =>
      AWS_NAPI_CALL "napi_get_value_string_utf8"
        (napi_get_value_string_utf8 node_str None 0)
        (fun status => ret (status, buf)) (fun length =>
      (* Node requires that the null terminator be written *)
      let* a := aws_napi_get_allocator in
      let* (failed, buf) := aws_byte_buf_init a (size_t (length + 1)) in
      if failed : bool then ret (napi_generic_failure, buf)
      else
        AWS_NAPI_CALL "napi_get_value_string_utf8"
          (napi_get_value_string_utf8 node_str (buffer buf) (capacity buf))
          (fun status => ret (status, buf)) (fun written =>
        ret (napi_ok, set_len written buf)))
  | napi_object =>
      (* Try ArrayBuffer *)
      AWS_NAPI_CALL "napi_is_arraybuffer" (napi_is_arraybuffer node_str)
        (fun status => ret (status, buf)) (fun is_expected =>
      if is_expected : bool then
        let* (status, (data, byte_length)) := napi_get_arraybuffer_info node_str in
        let buf := if status_ok status
                   then set_len byte_length (set_buffer data buf) else buf in
        ret (status, set_capacity (len buf) buf)
      else
      (* Try DataView *)
      AWS_NAPI_CALL "napi_is_dataview" (napi_is_dataview node_str)
        (fun status => ret (status, buf)) (fun is_expected =>
      if is_expected : bool then
        let* (status, (byte_length, data)) := napi_get_dataview_info node_str in
        let buf := if status_ok status
                   then set_buffer data (set_len byte_length buf) else buf in
        ret (status, set_capacity (len buf) buf)
      else
      (* Try TypedArray *)
      AWS_NAPI_CALL "napi_is_typedarray" (napi_is_typedarray node_str)
        (fun status => ret (status, buf)) (fun is_expected =>
      if is_expected : bool then
        AWS_NAPI_CALL "napi_get_typedarray_info" (napi_get_typedarray_info node_str)
          (fun status => ret (status, buf)) (fun '(array_type, length, data) =>
        let buf := set_buffer data buf in
        let type_hack := array_type in
        let buf := set_len (size_t (length * element_size type_hack)) buf in
        ret (napi_ok, set_capacity (len buf) buf))
      else ret (napi_invalid_arg, buf))))
  | _ => ret (napi_invalid_arg, buf)
  end).

(** [aws_string_new_from_napi]; [temp_buf] is declared without an
    initialiser and starts with whatever the stack holds. *)
Definition aws_string_new_from_napi (node_str : napi_value) : M (option aws_string) :=
  let* w := get_world in
  let temp_buf := stack_byte_buf (w_around w) in
  let* (status, temp_buf) := aws_byte_buf_init_from_napi temp_buf node_str in
  if negb (status_ok status) then ret None
  else
    let* a := aws_napi_get_allocator in
    let* string := aws_string_new_from_array a (buffer temp_buf) (len temp_buf) in
    let* _ := aws_byte_buf_clean_up temp_buf in
    ret string.

(** [aws_napi_create_dataview_from_byte_cursor]: the status and, once
    written, [*result]. *)
Definition aws_napi_create_dataview_from_byte_cursor (cur : aws_byte_cursor)
    : M (napi_status * napi_value) :=
  AWS_NAPI_CALL "napi_create_arraybuffer" (napi_create_arraybuffer (cur_len cur))
    (fun status => ret (status, None)) (fun '(data, arraybuffer) =>
  let arraybuffer_buf := aws_byte_buf_from_empty_array data (cur_len cur) in
  let input := cur in
  let* (written, _) := aws_byte_buf_write_from_whole_cursor arraybuffer_buf input in
  if negb written then ret (napi_generic_failure, None)
  else
    AWS_NAPI_CALL "napi_create_dataview"
      (napi_create_dataview (cur_len cur) arraybuffer 0)
      (fun status => ret (status, None)) (fun result =>
    ret (napi_ok, Some result))).

(** [aws_napi_is_null_or_undefined] *)
Definition aws_napi_is_null_or_undefined (value : napi_value) : M bool :=
  let* (status, type) := napi_typeof value in
  if negb (status_ok status) then ret true
  else ret (match type with napi_null | napi_undefined => true | _ => false end).

(** ** Diagnostic Translator *)

(** [aws_napi_status_to_str] *)
Definition aws_napi_status_to_str (status : napi_status) : string :=
  match status with
  | napi_ok => "OK"
  | napi_invalid_arg => "napi_invalid_arg: an invalid argument was supplied"
  | napi_object_expected => "napi_object_expected"
  | napi_string_expected => "napi_name_expected"
  | napi_name_expected => "napi_name_expected"
  | napi_function_expected => "napi_function_expected"
  | napi_number_expected => "napi_number_expected"
  | napi_boolean_expected => "napi_boolean_expected"
  | napi_array_expected => "napi_array_expected"
  | napi_generic_failure => "napi_generic_failure"
  | napi_pending_exception => "napi_pending_exception"
  | napi_cancelled => "napi_cancelled"
  | napi_escape_called_twice => "napi_escape_called_twice"
  | napi_handle_scope_mismatch => "napi_handle_scope_mismatch"
  | napi_callback_scope_mismatch => "napi_callback_scope_mismatch"
  | napi_queue_full => "napi_queue_full"
  | napi_closing => "napi_closing"
  | napi_bigint_expected => "napi_bigint_expected"
  | napi_status_future _ => "UNKNOWN"
  end.

(** ** The host interface: exceptions, calls, thread-safe functions *)

Definition napi_is_exception_pending : M (napi_status * bool) :=
  let* w := get_world in
  ret (napi_ok, match w_pending w with Some _ => true | None => false end).

Definition napi_get_last_error_info : M (napi_status * napi_extended_error_info) :=
  let* w := get_world in
  ret (napi_ok, last_error_info (w_around w)).

(** Hands the pending exception over and clears it; undefined when
    nothing is pending. *)
Definition napi_get_and_clear_last_exception : M (napi_status * napi_value) :=
  let* w := get_world in
  match w_pending w with
  | Some e => run modify (set_pending None) then ret (napi_ok, Some e)
  | None => ret (napi_ok, Some JsUndefined)
  end.

Definition napi_is_error (value : napi_value) : M (napi_status * bool) :=
  match value with
  | None => ret (napi_invalid_arg, false)
  | Some (JsError _ _) => ret (napi_ok, true)
  | Some _ => ret (napi_ok, false)
  end.

Definition napi_get_undefined : M (napi_status * napi_value) :=
  ret (napi_ok, Some JsUndefined).

(** The TypeError the host raises when a conversion is impossible. *)
Definition type_error : js_value := JsError (JsString []) (JsString []).

(** ECMAScript ToString; the calls that may run host code refuse to start
    while an exception is pending, and leave the exception of a failed
    conversion pending. *)
Definition napi_coerce_to_string (value : napi_value) : M (napi_status * napi_value) :=
  let* w := get_world in
  match w_pending w, value with
  | Some _, _ => ret (napi_pending_exception, None)
  | None, None => ret (napi_invalid_arg, None)
  | None, Some v =>
      match to_string (w_around w) v with
      | Some text => ret (napi_ok, Some (JsString text))
      | None =>
          run modify (set_pending (Some type_error)) then
          ret (napi_string_expected, None)
      end
  end.

Definition napi_get_named_property (object : napi_value) (utf8name : string)
    : M (napi_status * napi_value) :=
  let* w := get_world in
  match w_pending w, object with
  | Some _, _ => ret (napi_pending_exception, None)
  | None, None => ret (napi_invalid_arg, None)
  | None, Some (JsUndefined | JsNull) => ret (napi_object_expected, None)
  | None, Some (JsError message stack) =>
      if String.eqb utf8name "message" then ret (napi_ok, Some message)
      else if String.eqb utf8name "stack" then ret (napi_ok, Some stack)
      else ret (napi_ok, Some JsUndefined)
  | None, Some _ => ret (napi_ok, Some JsUndefined)
  end.

(** Invoking a host callable: it returns, throws (the exception stays
    pending), or the engine fails the call with a status of its own. *)
Definition napi_call_function (recv func : napi_value) (argv : list napi_value)
    : M (napi_status * napi_value) :=
  let* w := get_world in
  match w_pending w, recv, func with
  | Some _, _, _ => ret (napi_pending_exception, None)
  | None, None, _ => ret (napi_invalid_arg, None)
  | None, Some _, None => ret (napi_invalid_arg, None)
  | None, Some _, Some (JsFunction body) =>
      match body with
      | CallReturns => ret (napi_ok, Some JsUndefined)
      | CallThrows e =>
          run modify (set_pending (Some e)) then ret (napi_pending_exception, None)
      | CallFails status => ret (status, None)
      end
  | None, Some _, Some _ => ret (napi_invalid_arg, None)
  end.

Definition fun_upd {A} (k : nat) (v : A) (f : nat -> A) : nat -> A :=
  fun i => if Nat.eqb i k then v else f i.

(** The host checks a thread-safe function handle itself and ends the
    process on a null one. *)
Definition napi_acquire_threadsafe_function (func : napi_threadsafe_function)
    : M (napi_status * unit) :=
  run emit (ev_tsfn_acquire func) then
  match func with
  | None => fatal "napi_acquire_threadsafe_function(NULL)"
  | Some h =>
      let* w := get_world in
      let st := w_tsfn w h in
      if is_closing st then ret (napi_closing, tt)
      else
        run modify (set_tsfn (fun_upd h
              (mk_tsfn (S (thread_count st)) (is_closing st) (queued st)) (w_tsfn w))) then
        ret (napi_ok, tt)
  end.

Definition napi_release_threadsafe_function (func : napi_threadsafe_function)
    (mode : napi_threadsafe_function_release_mode) : M (napi_status * unit) :=
  run emit (ev_tsfn_release func mode) then
  match func with
  | None => fatal "napi_release_threadsafe_function(NULL)"
  | Some h =>
      let* w := get_world in
      let st := w_tsfn w h in
      match thread_count st with
      | O => ret (napi_invalid_arg, tt)
      | S n =>
          let closing :=
            (is_closing st
             || match mode with napi_tsfn_abort => true | napi_tsfn_release => false end)%bool in
          run modify (set_tsfn (fun_upd h (mk_tsfn n closing (queued st)) (w_tsfn w))) then
          ret (napi_ok, tt)
      end
  end.

Definition napi_unref_threadsafe_function (func : napi_threadsafe_function)
    : M (napi_status * unit) :=
  run emit (ev_tsfn_unref func) then
  match func with
  | None => fatal "napi_unref_threadsafe_function(NULL)"
  | Some _ => ret (napi_ok, tt)
  end.

(** The functions of this module are created with an unbounded queue. *)
Definition napi_call_threadsafe_function (func : napi_threadsafe_function)
    (data : Z) (mode : napi_threadsafe_function_call_mode) : M (napi_status * unit) :=
  run emit (ev_tsfn_call func data mode) then
  match func with
  | None => fatal "napi_call_threadsafe_function(NULL)"
  | Some h =>
      let* w := get_world in
      let st := w_tsfn w h in
      if is_closing st then
        match thread_count st with
        | O => ret (napi_invalid_arg, tt)
        | S n =>
            run modify (set_tsfn (fun_upd h (mk_tsfn n true (queued st)) (w_tsfn w))) then
            ret (napi_closing, tt)
        end
      else
        run modify (set_tsfn (fun_upd h
              (mk_tsfn (thread_count st) false (queued st ++ [data])) (w_tsfn w))) then
        ret (napi_ok, tt)
  end.

(** ** Threadsafe Dispatch *)

(** [s_handle_failed_callback] *)
Definition s_handle_failed_callback (function : napi_value) (reason : napi_status)
    : M unit :=
  (* Figure out if there's an exception pending *)
  let pending_exception :=
    match reason with napi_pending_exception => true | _ => false end in
  let* pending_exception :=
    AWS_NAPI_ENSURE "napi_is_exception_pending" napi_is_exception_pending in
  (* if there's no pending exception, but failure occurred, log what we can find *)
  if negb pending_exception then
    let* node_error_info :=
      AWS_NAPI_ENSURE "napi_get_last_error_info" napi_get_last_error_info in
    AWS_NAPI_LOGF_ERROR
      "Extended error info: engine_error_code=%u error_code=%s error_message=%s"
      [arg_uint (engine_error_code node_error_info);
       arg_text (aws_napi_status_to_str (error_code node_error_info));
       match error_message node_error_info with
       | Some text => arg_text text
       | None => arg_null
       end]
  else
    (* get the current exception and report it, and clear it *)
    let* node_exception :=
      AWS_NAPI_ENSURE "napi_get_and_clear_last_exception"
        napi_get_and_clear_last_exception in
    (* figure out what the exception is *)
    let* is_error := AWS_NAPI_ENSURE "napi_is_error" (napi_is_error node_exception) in
    (* Convert the function to a string *)
    let* node_function_str :=
      AWS_NAPI_ENSURE "napi_coerce_to_string" (napi_coerce_to_string function) in
    let* function_str := aws_string_new_from_napi node_function_str in
    run (match function_str with
         | Some function_str =>
             let* text := aws_string_c_str function_str in
             AWS_NAPI_LOGF_ERROR "Calling %s" [text]
         | None => ret tt
         end) then
    (* If it's an Error, extract info from it and log it *)
    if is_error : bool then
      (* get the Error.message field *)
      let* node_message :=
        AWS_NAPI_ENSURE "napi_get_named_property"
          (napi_get_named_property node_exception "message") in
      (* extract and log the message *)
      let* message := aws_string_new_from_napi node_message in
      match message with
      | None =>
          AWS_NAPI_LOGF_ERROR "aws_string_new_from_napi(exception.message) failed" []
      | Some message =>
          let* text := aws_string_c_str message in
          run AWS_NAPI_LOGF_ERROR "Error: %s" [text] then
          run aws_string_destroy message then
          (* get the Error.stack field *)
          let* node_stack :=
            AWS_NAPI_ENSURE "napi_get_named_property"
              (napi_get_named_property node_exception "stack") in
          (* extract and log the stack trace *)
          let* stacktrace := aws_string_new_from_napi node_stack in
          match stacktrace with
          | None =>
              AWS_NAPI_LOGF_ERROR "aws_string_new_from_napi(exception.stack) failed" []
          | Some stacktrace =>
              let* text := aws_string_c_str stacktrace in
              run AWS_NAPI_LOGF_ERROR "Stack:\n%s" [text] then
              aws_string_destroy stacktrace
          end
      end
    else
      (* some other sort of object/primitive: convert it to a string and log it *)
      let* node_error_str :=
        AWS_NAPI_ENSURE "napi_coerce_to_string" (napi_coerce_to_string node_exception) in
      let* error_str := aws_string_new_from_napi node_error_str in
      match error_str with
      | Some error_str =>
          let* text := aws_string_c_str error_str in
          AWS_NAPI_LOGF_ERROR "Error: %s" [text]
      | None =>
          AWS_NAPI_LOGF_ERROR "aws_string_new_from_napi(ToString(exception)) failed" []
      end.

(** [aws_napi_dispatch_threadsafe_function]; [argv] stands for the pair
    [argc], [argv]. *)
Definition aws_napi_dispatch_threadsafe_function (tsfn : napi_threadsafe_function)
    (this_ptr function : napi_value) (argv : list napi_value) : M napi_status :=
  let call_status := napi_ok in
  let* this_ptr :=
    match this_ptr with
    | None => AWS_NAPI_ENSURE "napi_get_undefined" napi_get_undefined
    | Some _ => ret this_ptr
    end in
  let* call_status :=
    AWS_NAPI_CALL "napi_call_function" (napi_call_function this_ptr function argv)
      (fun status =>
         run s_handle_failed_callback function status then
         ret status)
      (fun _ => ret call_status) in
  (* Must always decrement the ref count, or the function will be pinned *)
  let* (release_status, _) := napi_release_threadsafe_function tsfn napi_tsfn_release in
  ret (if negb (status_ok call_status) then call_status else release_status).

(** [aws_napi_release_threadsafe_function] *)
Definition aws_napi_release_threadsafe_function (function : napi_threadsafe_function)
    (mode : napi_threadsafe_function_release_mode) : M napi_status :=
  match function with
  | Some _ =>
      let* (status, _) := napi_release_threadsafe_function function mode in
      ret status
  | None => ret napi_ok
  end.

(** [aws_napi_acquire_threadsafe_function] *)
Definition aws_napi_acquire_threadsafe_function (function : napi_threadsafe_function)
    : M napi_status :=
  match function with
  | Some _ =>
      let* (status, _) := napi_acquire_threadsafe_function function in
      ret status
  | None => ret napi_ok
  end.

(** [aws_napi_unref_threadsafe_function] *)
Definition aws_napi_unref_threadsafe_function (function : napi_threadsafe_function)
    : M napi_status :=
  match function with
  | Some _ =>
      let* (status, _) := napi_unref_threadsafe_function function in
      ret status
  | None => ret napi_ok
  end.

(** [aws_napi_queue_threadsafe_function] *)
Definition aws_napi_queue_threadsafe_function (function : napi_threadsafe_function)
    (user_data : Z) : M napi_status :=
  (* increase the ref count, gets decreased when the call completes *)
  let* _ :=
    AWS_NAPI_ENSURE "napi_acquire_threadsafe_function"
      (napi_acquire_threadsafe_function function) in
  let* (status, _) :=
    napi_call_threadsafe_function function user_data napi_tsfn_nonblocking in
  ret status.

(** ** Process Context *)

(** [struct aws_napi_context] *)
Record aws_napi_context : Type := mk_context {
  ctx_allocator : aws_allocator;
  ctx_logger : option nat
}.

Definition is_null {A} (p : option A) : bool :=
  match p with None => true | Some _ => false end.

Fixpoint allocator_eqb (a b : aws_allocator) : bool :=
  match a, b with
  | aws_default_allocator, aws_default_allocator => true
  | mem_tracer a' l f, mem_tracer b' l' f' =>
      allocator_eqb a' b' && (l =? l') && (f =? f')
  | _, _ => false
  end.

(** [s_napi_context_finalize]; [user_data] is the context.  The allocator
    member is read three more times after the context has been released;
    what those reads find in the released memory is not determined by the
    program, and the model takes it from the surroundings. *)
Definition s_napi_context_finalize (user_data : aws_napi_context) : M unit :=
  let* w := get_world in
  run emit (ev_lib (aws_client_bootstrap_release (s_default_client_bootstrap w))) then
  run emit (ev_lib (aws_host_resolver_release (s_default_host_resolver w))) then
  run emit (ev_lib (aws_event_loop_group_release (s_node_uv_elg w))) then
  run emit (ev_lib aws_thread_join_all_managed) then
  run emit (ev_lib aws_unregister_log_subject_info_list) then
  run emit (ev_lib aws_unregister_error_info) then
  run emit (ev_lib aws_auth_library_clean_up) then
  run emit (ev_lib aws_mqtt_library_clean_up) then
  let ctx := user_data in
  run emit (ev_lib (aws_napi_logger_destroy (ctx_logger ctx))) then
  run emit (ev_lib (aws_mem_release_context (ctx_allocator ctx))) then
  let ctx_allocator_after_release := released_allocator (w_around w) in
  if negb (allocator_eqb (ctx_allocator_after_release 0%nat) aws_default_allocator) then
    run emit (ev_lib (aws_mem_tracer_destroy (ctx_allocator_after_release 1%nat))) then
    let* w := get_world in
    match s_allocator w with
    | Some a =>
        if allocator_eqb a (ctx_allocator_after_release 2%nat)
        then modify (set_s_allocator None)
        else ret tt
    | None => ret tt
    end
  else ret tt.

(** The host calls of the set-up; the host decides their status. *)
Definition napi_wrap (exports : napi_value) : M (napi_status * unit) :=
  let* w := get_world in
  let status := host_status (w_around w) op_napi_wrap in
  if status_ok status then
    run emit (ev_lib napi_wrap_context) then ret (status, tt)
  else ret (status, tt).

Definition napi_create_function (utf8name : string) : M (napi_status * napi_value) :=
  let* w := get_world in
  let status := host_status (w_around w) (op_napi_create_function utf8name) in
  ret (status, if status_ok status then Some (JsFunction CallReturns) else None).

Definition napi_set_named_property (object : napi_value) (utf8name : string)
    (value : napi_value) : M (napi_status * unit) :=
  let* w := get_world in
  let status := host_status (w_around w) (op_napi_set_named_property utf8name) in
  if status_ok status then
    run emit (ev_lib (napi_export utf8name)) then ret (status, tt)
  else ret (status, tt).

(** The bindings of the other source files of the module. *)
Definition bind_exports (op : host_op) : M (napi_status * unit) :=
  let* w := get_world in
  ret (host_status (w_around w) op, tt).

(** [s_napi_context_new] *)
Definition s_napi_context_new (a : aws_allocator) (exports : napi_value)
    : M aws_napi_context :=
  let* w := get_world in
  let ctx := lib_new (w_around w) obj_context in       (* aws_mem_calloc *)
  run AWS_FATAL_ASSERT (negb (is_null ctx)) "Failed to initialize napi context" then
  (* bind the context to exports, thus binding its lifetime to that object *)
  let* _ := AWS_NAPI_ENSURE "napi_wrap" (napi_wrap exports) in
  run emit (ev_lib (aws_napi_logger_new a)) then
  ret (mk_context a (lib_new (w_around w) obj_logger)).

(** [s_create_and_register_function] *)
Definition s_create_and_register_function (exports : napi_value) (fn_name : string)
    : M bool :=
  AWS_NAPI_CALL "napi_create_function" (napi_create_function fn_name)
    (fun _ =>
       run emit (ev_lib (napi_throw_error "Unable to wrap native function")) then
       ret false)
    (fun napi_fn =>
  AWS_NAPI_CALL "napi_set_named_property"
    (napi_set_named_property exports fn_name napi_fn)
    (fun _ =>
       run emit (ev_lib (napi_throw_error "Unable to populate exports")) then
       ret false)
    (fun _ => ret true)).

(** The functions that NAPI_MODULE_INIT registers, in its order. *)
Definition registered_functions : list string :=
  [ "native_memory"; "native_memory_dump"; "error_code_to_string";
    "error_code_to_name";
    "io_logging_enable"; "is_alpn_available"; "io_client_bootstrap_new";
    "io_tls_ctx_new"; "io_tls_connection_options_new"; "io_socket_options_new";
    "io_input_stream_new"; "io_input_stream_append";
    "mqtt_client_new";
    "mqtt_client_connection_new"; "mqtt_client_connection_connect";
    "mqtt_client_connection_reconnect"; "mqtt_client_connection_publish";
    "mqtt_client_connection_subscribe"; "mqtt_client_connection_on_message";
    "mqtt_client_connection_unsubscribe"; "mqtt_client_connection_disconnect";
    "mqtt_client_connection_close";
    "hash_md5_new"; "hash_sha1_new"; "hash_sha256_new"; "hash_update";
    "hash_digest"; "hash_md5_compute"; "hash_sha1_compute";
    "hash_sha256_compute"; "hmac_sha256_new"; "hmac_update"; "hmac_digest";
    "hmac_sha256_compute";
    "checksums_crc32"; "checksums_crc32c";
    "http_proxy_options_new"; "http_connection_new"; "http_connection_close";
    "http_stream_new"; "http_stream_activate"; "http_stream_close";
    "http_connection_manager_new"; "http_connection_manager_close";
    "http_connection_manager_acquire"; "http_connection_manager_release" ]%string.

(** The run of CREATE_AND_REGISTER_FN: the first failure stops it. *)
Fixpoint register_functions (exports : napi_value) (names : list string) : M bool :=
  match names with
  | [] => ret true
  | fn :: rest =>
      let* registered := s_create_and_register_function exports fn in
      if registered : bool then register_functions exports rest else ret false
  end.

(** What NAPI_MODULE_INIT does once the three globals are in place. *)
Definition register_exports (exports : napi_value) : M napi_value :=
  let null := Some JsNull in
  let* registered := register_functions exports registered_functions in
  if negb registered then ret null
  else
    let* _ := AWS_NAPI_ENSURE "aws_napi_http_headers_bind" (bind_exports op_http_headers_bind) in
    let* _ := AWS_NAPI_ENSURE "aws_napi_http_message_bind" (bind_exports op_http_message_bind) in
    let* _ := AWS_NAPI_ENSURE "aws_napi_auth_bind" (bind_exports op_auth_bind) in
    ret exports.

(** What NAPI_MODULE_INIT does before it looks at the three globals. *)
Definition init_libraries (exports : napi_value) : M aws_allocator :=
  run emit (ev_lib install_crash_handler) then
  let* a := aws_napi_get_allocator in
  (* context is bound to exports, will be cleaned up by finalizer *)
  let* _ := s_napi_context_new a exports in
  run emit (ev_lib (aws_cal_library_init a)) then
  run emit (ev_lib (aws_http_library_init a)) then
  run emit (ev_lib (aws_mqtt_library_init a)) then
  run emit (ev_lib (aws_auth_library_init a)) then
  run emit (ev_lib aws_register_error_info) then
  run emit (ev_lib aws_register_log_subject_info_list) then
  ret a.

(** [NAPI_MODULE_INIT] *)
Definition NAPI_MODULE_INIT (exports : napi_value) : M napi_value :=
  let* a := init_libraries exports in
  (* Initialize the event loop group *)
  let* w := get_world in
  run AWS_FATAL_ASSERT (is_null (s_node_uv_elg w)) "s_node_uv_elg == NULL" then
  run emit (ev_lib (aws_event_loop_group_new_default a 1)) then
  run modify (set_s_node_uv_elg (lib_new (w_around w) obj_event_loop_group)) then
  let* w := get_world in
  run AWS_FATAL_ASSERT (negb (is_null (s_node_uv_elg w))) "s_node_uv_elg != NULL" then
  (* Default host resolver and client bootstrap *)
  run AWS_FATAL_ASSERT (is_null (s_default_host_resolver w))
        "s_default_host_resolver == NULL" then
  run emit (ev_lib (aws_host_resolver_new_default a 64 (s_node_uv_elg w))) then
  run modify (set_s_default_host_resolver (lib_new (w_around w) obj_host_resolver)) then
  let* w := get_world in
  run AWS_FATAL_ASSERT (negb (is_null (s_default_host_resolver w)))
        "s_default_host_resolver != NULL" then
  run AWS_FATAL_ASSERT (is_null (s_default_client_bootstrap w))
        "s_default_client_bootstrap == NULL" then
  run emit (ev_lib (aws_client_bootstrap_new a (s_node_uv_elg w)
                      (s_default_host_resolver w))) then
  run modify (set_s_default_client_bootstrap
                (lib_new (w_around w) obj_client_bootstrap)) then
  let* w := get_world in
  run AWS_FATAL_ASSERT (negb (is_null (s_default_client_bootstrap w)))
        "s_default_client_bootstrap != NULL" then
  register_exports exports.

(** ** Accessors of the process context *)

(** [s_node_uv_loop] and [s_node_uv_event_loop] are file-scope statics
    that start as NULL; module.c holds no assignment to either of them. *)
Definition s_node_uv_loop : option nat := None.
Definition s_node_uv_event_loop : option nat := None.

(** [aws_napi_get_node_uv_loop] *)
Definition aws_napi_get_node_uv_loop : M (option nat) :=
  ret s_node_uv_loop.

(** [aws_napi_get_node_event_loop] *)
Definition aws_napi_get_node_event_loop : M (option nat) :=
  ret s_node_uv_event_loop.

(** [aws_napi_get_node_elg] *)
Definition aws_napi_get_node_elg : M (option nat) :=
  let* w := get_world in
  ret (s_node_uv_elg w).

(** [aws_napi_get_default_client_bootstrap] *)
Definition aws_napi_get_default_client_bootstrap : M (option nat) :=
  let* w := get_world in
  ret (s_default_client_bootstrap w).

(** ** Memory statistics *)

(** A [size_t] passed for the [int64_t] parameter of [napi_create_int64]. *)
Definition int64_of_size_t (z : Z) : Z :=
  if z <? 2 ^ 63 then z else z - 2 ^ 64.

Section Tracer.

(** The tracer of aws-c-common and the host's number constructor lie
    outside module.c; the two functions below are embedded for every
    behaviour of the three. *)
Variable aws_mem_tracer_bytes : aws_allocator -> M Z.
Variable aws_mem_tracer_dump : aws_allocator -> M unit.
Variable napi_create_int64 : Z -> M (napi_status * napi_value).

(** [aws_napi_native_memory] *)
Definition aws_napi_native_memory : M napi_value :=
  let allocated := 0 in
  let* a := aws_napi_get_allocator in
  let* allocated :=
    (if negb (allocator_eqb a aws_default_allocator) then
       let* a := aws_napi_get_allocator in
       aws_mem_tracer_bytes a
     else ret allocated) in
  AWS_NAPI_CALL "napi_create_int64" (napi_create_int64 (int64_of_size_t allocated))
    (fun _ => ret None) (fun node_allocated => ret node_allocated).

(** [aws_napi_native_memory_dump] *)
Definition aws_napi_native_memory_dump : M napi_value :=
  let* a := aws_napi_get_allocator in
  run (if negb (allocator_eqb a aws_default_allocator) then
         let* a := aws_napi_get_allocator in
         aws_mem_tracer_dump a
       else ret tt) then
  ret None.

End Tracer.

(** ** Vocabulary of the statements *)

(** The host kinds that [aws_byte_buf_init_from_napi] accepts. *)
Definition accepted_kind (v : js_value) : bool :=
  match v with
  | JsString _ | JsArrayBuffer _ | JsDataView _ _ _ | JsTypedArray _ _ _ _ => true
  | _ => false
  end.

(** The eleven element kinds with their sizes in bytes. *)
Definition element_sizes : list (Z * Z) :=
  [ (napi_int8_array, 1); (napi_uint8_array, 1); (napi_uint8_clamped_array, 1);
    (napi_int16_array, 2); (napi_uint16_array, 2);
    (napi_int32_array, 4); (napi_uint32_array, 4); (napi_float32_array, 4);
    (napi_float64_array, 8); (napi_bigint64_array, 8); (napi_biguint64_array, 8) ].

(** The host's own BYTES_PER_ELEMENT of a typed array (kind 11 is the
    Float16Array of later hosts). *)
Definition BYTES_PER_ELEMENT (array_type : Z) : Z :=
  match array_type with
  | 0 | 1 | 2 => 1
  | 3 | 4 | 11 => 2
  | 5 | 6 | 7 => 4
  | 8 | 9 | 10 => 8
  | _ => 0
  end.

(** The byte sequence a host value stands for. *)
Definition js_bytes (m : list block) (v : js_value) : list byte :=
  match v with
  | JsString utf8 => utf8
  | JsArrayBuffer store => block_bytes m store
  | JsDataView store byte_offset byte_length =>
      take (Z.to_nat byte_length) (drop (Z.to_nat byte_offset) (block_bytes m store))
  | JsTypedArray array_type store byte_offset elements =>
      take (Z.to_nat (elements * BYTES_PER_ELEMENT array_type))
        (drop (Z.to_nat byte_offset) (block_bytes m store))
  | _ => []
  end.

(** A value of an accepted kind as the host can hold it: a view lies
    inside its buffer, and nothing is larger than half the address space. *)
Definition well_formed (m : list block) (v : js_value) : Prop :=
  match v with
  | JsString utf8 => Z.of_nat (length utf8) <= SIZE_MAX / 2
  | JsArrayBuffer store => Z.of_nat (length (block_bytes m store)) <= SIZE_MAX / 2
  | JsDataView store byte_offset byte_length =>
      0 <= byte_offset /\ 0 <= byte_length /\
      byte_offset + byte_length <= Z.of_nat (length (block_bytes m store)) /\
      Z.of_nat (length (block_bytes m store)) <= SIZE_MAX / 2
  | JsTypedArray array_type store byte_offset elements =>
      0 <= byte_offset /\ 0 <= elements /\
      byte_offset + elements * BYTES_PER_ELEMENT array_type
        <= Z.of_nat (length (block_bytes m store)) /\
      Z.of_nat (length (block_bytes m store)) <= SIZE_MAX / 2
  | _ => True
  end.

(** The typed arrays of the eleven kinds, and every other accepted kind. *)
Definition handled_kind (v : js_value) : bool :=
  match v with
  | JsTypedArray array_type _ _ _ => (0 <=? array_type) && (array_type <=? 10)
  | _ => accepted_kind v
  end.

(** Memory is there for the copies of the two conversions. *)
Definition memory_for (w : world) (v : js_value) : Prop :=
  Z.of_nat (length (js_bytes (w_mem w) v)) <= w_host_avail w /\
  match v with
  | JsString utf8 => Z.of_nat (length utf8) + 1 <= w_native_avail w
  | _ => True
  end.

(** Releases of one thread-safe function in a trace. *)
Definition is_release_of (h : nat) (e : event) : bool :=
  match e with
  | ev_tsfn_release (Some h') _ => Nat.eqb h' h
  | _ => false
  end.

Definition releases (h : nat) (trace : list event) : nat :=
  length (filter (fun e => is_release_of h e = true) trace).

(** The error log of a trace. *)
Definition logged (trace : list event) : list (string * list log_arg) :=
  omap (fun e => match e with
                 | ev_log_error fmt args => Some (fmt, args)
                 | _ => None
                 end) trace.

(** Releases of memory in a trace. *)
Definition released (trace : list event) : list (aws_allocator * ptr) :=
  omap (fun e => match e with
                 | ev_mem_release a p => Some (a, p)
                 | _ => None
                 end) trace.

(** *** Worlds to evaluate the code in *)

(** A host whose ToString follows ECMAScript on the primitive values: a
    Symbol cannot be converted. *)
Definition sample_to_string (v : js_value) : option (list byte) :=
  match v with
  | JsString utf8 => Some utf8
  | JsUndefined => Some (list_byte_of_string "undefined")
  | JsNull => Some (list_byte_of_string "null")
  | JsBoolean true => Some (list_byte_of_string "true")
  | JsBoolean false => Some (list_byte_of_string "false")
  | JsSymbol => None
  | JsFunction _ => Some (list_byte_of_string "function () { [native code] }")
  | _ => Some (list_byte_of_string "[object Object]")
  end.

(** An [atoi] that is [(int) strtol(s, NULL, 10)] with a [long] of 64
    bits: the number is clamped to the range of [long] and cut to its low
    32 bits. *)
Definition sample_atoi (n : Z) : Z :=
  Z.max (- 2 ^ 63) (Z.min (2 ^ 63 - 1) n).

Definition sample_surroundings (tracing : env_lookup) (stack : aws_byte_buf)
    : surroundings :=
  mk_surroundings tracing stack (mk_error_info None 0 napi_generic_failure)
    sample_to_string (fun _ => napi_ok)
    (fun o => match o with
              | obj_context => Some 1 | obj_logger => Some 2
              | obj_event_loop_group => Some 3 | obj_host_resolver => Some 4
              | obj_client_bootstrap => Some 5
              end%nat)
    sample_atoi (fun _ => aws_default_allocator).

(** One host buffer of four bytes, one thread-safe function holding one
    reference, nothing initialised yet. *)
Definition sample_world (tracing : env_lookup) (stack : aws_byte_buf) : world :=
  mk_world [mk_block host_store true [x01; x02; x03; x04]] 4096 4096
    None None None None None
    (fun _ => mk_tsfn 1 false []) [] (sample_surroundings tracing stack).

Definition plain_world : world := sample_world EnvUnset zero_byte_buf.

(** A callable that throws [e]. *)
Definition throwing (e : js_value) : napi_value := Some (JsFunction (CallThrows e)).

(** The three globals of the process context are the same in two worlds. *)
Definition same_globals (w w' : world) : Prop :=
  s_node_uv_elg w' = s_node_uv_elg w /\
  s_default_host_resolver w' = s_default_host_resolver w /\
  s_default_client_bootstrap w' = s_default_client_bootstrap w.

(** Events that are neither log lines nor calls on thread-safe functions. *)
Definition silent (e : event) : Prop :=
  match e with
  | ev_mem_release _ _ | ev_stderr _ _ => True
  | _ => False
  end.

(** A step that leaves the host's exception state and the thread-safe
    functions alone and adds only silent events. *)
Definition quiet (w w' : world) : Prop :=
  w_pending w' = w_pending w /\ w_tsfn w' = w_tsfn w /\
  w_around w' = w_around w /\
  exists l, w_trace w' = w_trace w ++ l /\ Forall silent l.

(** The printf argument [a] is the text of the host value [v]: for a
    string, its bytes up to the first NUL. *)
Definition printed (v : js_value) (a : log_arg) : Prop :=
  exists t, a = arg_cstr t /\
    forall utf8, v = JsString utf8 ->
      Z.of_nat (length utf8) <= SIZE_MAX / 2 -> t = c_str utf8.

(** The lines of the error log that the failure handler may add.  The
    function text is logged or left out; an Error gives its message and
    stack, each extraction that fails being reported and ending the
    report; any other thrown value gives its string form. *)
Definition calling_lines (ftxt : list byte)
    (lines : list (string * list log_arg)) : Prop :=
  lines = [] \/
  exists a, printed (JsString ftxt) a /\ lines = [("Calling %s"%string, [a])].

Definition error_lines (message stack : js_value)
    (lines : list (string * list log_arg)) : Prop :=
  lines = [("aws_string_new_from_napi(exception.message) failed"%string, [])] \/
  exists a, accepted_kind message = true /\ printed message a /\
    (lines = [("Error: %s"%string, [a]);
              ("aws_string_new_from_napi(exception.stack) failed"%string, [])] \/
     exists b, accepted_kind stack = true /\ printed stack b /\
       lines = [("Error: %s"%string, [a]); ("Stack:\n%s"%string, [b])]).

Definition thrown_value_lines (etxt : list byte)
    (lines : list (string * list log_arg)) : Prop :=
  lines = [("aws_string_new_from_napi(ToString(exception)) failed"%string, [])] \/
  exists a, printed (JsString etxt) a /\ lines = [("Error: %s"%string, [a])].

(** *** The report of the failure handler *)

(** For a text of [n] bytes [aws_string_new_from_napi] allocates twice:
    the buffer that the host writes the text and its terminator to, and
    the string, a header followed by the text and a terminator. *)
Definition buffer_size (n : Z) : Z := n + 1.
Definition string_size (n : Z) : Z := sizeof_aws_string + 1 + n.

(** A text, or a value of a kind that the extraction does not accept. *)
Definition text_or_unreadable (v : js_value) : Prop :=
  match v with
  | JsString utf8 => Z.of_nat (length utf8) <= SIZE_MAX / 2
  | _ => accepted_kind v = false
  end.

(** The extraction of such a value succeeds: it is a text, and [avail]
    bytes of native memory serve the two allocations. *)
Definition extractable (avail : Z) (v : js_value) : bool :=
  match v with
  | JsString utf8 =>
      buffer_size (Z.of_nat (length utf8)) + string_size (Z.of_nat (length utf8))
      <=? avail
  | _ => false
  end.

(** What is left of [avail] bytes once the extraction was tried. *)
Definition after_extraction (avail : Z) (v : js_value) : Z :=
  match v with
  | JsString utf8 =>
      let n := Z.of_nat (length utf8) in
      if buffer_size n <=? avail then
        if string_size n <=? avail - buffer_size n
        then avail - buffer_size n - string_size n
        else avail - buffer_size n
      else avail
  | _ => avail
  end.

(** What [%s] prints of an extracted value. *)
Definition text_arg (v : js_value) : log_arg :=
  match v with
  | JsString utf8 => arg_cstr (c_str utf8)
  | _ => arg_null
  end.

(** The lines of the report: the function text when it was extracted;
    for an Error the message and then the stack, the first extraction
    that fails being reported in their place and ending the report; for
    another thrown value its string form, or the failure to extract it. *)
Definition calling_report (avail : Z) (ftxt : list byte)
    : list (string * list log_arg) :=
  if extractable avail (JsString ftxt)
  then [("Calling %s"%string, [text_arg (JsString ftxt)])]
  else [].

Definition error_report (avail : Z) (message stack : js_value)
    : list (string * list log_arg) :=
  if extractable avail message then
    ("Error: %s"%string, [text_arg message])
    :: (if extractable (after_extraction avail message) stack
        then [("Stack:\n%s"%string, [text_arg stack])]
        else [("aws_string_new_from_napi(exception.stack) failed"%string, [])])
  else [("aws_string_new_from_napi(exception.message) failed"%string, [])].

Definition thrown_report (avail : Z) (etxt : list byte)
    : list (string * list log_arg) :=
  if extractable avail (JsString etxt)
  then [("Error: %s"%string, [text_arg (JsString etxt)])]
  else [("aws_string_new_from_napi(ToString(exception)) failed"%string, [])].

(** The log line for a failure without a pending exception. *)
Definition extended_error_event (info : napi_extended_error_info) : event :=
  ev_log_error
    "Extended error info: engine_error_code=%u error_code=%s error_message=%s"
    [arg_uint (engine_error_code info);
     arg_text (aws_napi_status_to_str (error_code info));
     match error_message info with
     | Some text => arg_text text
     | None => arg_null
     end].

Definition is_error_value (v : js_value) : bool :=
  match v with JsError _ _ => true | _ => false end.

(** The exception that is pending once the host call of a dispatch has
    failed: one that was pending before, or the one the callable throws. *)
Definition raised (w : world) (function : napi_value) : option js_value :=
  match w_pending w with
  | Some e => Some e
  | None =>
      match function with
      | Some (JsFunction (CallThrows e)) => Some e
      | _ => None
      end
  end.

(** The conversions that the failure handler asserts on succeed: the
    function has a string form and so has a thrown value that is not an
    Error. *)
Definition reportable (w : world) (function : napi_value) (e : js_value) : Prop :=
  (exists f ftxt, function = Some f /\ to_string (w_around w) f = Some ftxt) /\
  (is_error_value e = true \/ exists etxt, to_string (w_around w) e = Some etxt).

(** The receiver of the call: [this_ptr], or undefined for a null one. *)
Definition receiver (this_ptr : napi_value) : napi_value :=
  match this_ptr with
  | None => Some JsUndefined
  | Some _ => this_ptr
  end.

(** *** Vocabulary of the further properties *)

(** The library calls of a trace. *)
Definition lib_calls (trace : list event) : list lib_call :=
  omap (fun e => match e with
                 | ev_lib c => Some c
                 | _ => None
                 end) trace.

(** The host calls of a trace that the status-checking macro reported. *)
Definition failed_calls (trace : list event) : list (string * napi_status) :=
  omap (fun e => match e with
                 | ev_napi_call_failed call status => Some (call, status)
                 | _ => None
                 end) trace.

(** The number of native blocks that are allocated and not released. *)
Definition is_live_native (bl : block) : bool :=
  match b_region bl with
  | native _ => b_live bl
  | host_store => false
  end.

Definition live_native (m : list block) : nat :=
  length (filter (fun bl => is_live_native bl = true) m).

(** No process context is live. *)
Definition no_context (w : world) : Prop :=
  s_node_uv_elg w = None /\ s_default_host_resolver w = None /\
  s_default_client_bootstrap w = None.

(** The libraries and the host serve the set-up of the context. *)
Definition context_available (around : surroundings) : Prop :=
  lib_new around obj_context <> None /\
  host_status around op_napi_wrap = napi_ok /\
  lib_new around obj_event_loop_group <> None /\
  lib_new around obj_host_resolver <> None /\
  lib_new around obj_client_bootstrap <> None.

(** The bindings of the other source files succeed. *)
Definition bindings_available (around : surroundings) : Prop :=
  host_status around op_http_headers_bind = napi_ok /\
  host_status around op_http_message_bind = napi_ok /\
  host_status around op_auth_bind = napi_ok.

(** The host creates the function [name] and sets it on the exports. *)
Definition registers (around : surroundings) (name : string) : bool :=
  status_ok (host_status around (op_napi_create_function name)) &&
  status_ok (host_status around (op_napi_set_named_property name)).

(** The names that are exported before the host refuses one, and the
    first name it refuses. *)
Fixpoint registered_prefix (around : surroundings) (names : list string)
    : list string :=
  match names with
  | [] => []
  | name :: rest =>
      if registers around name then name :: registered_prefix around rest else []
  end.

Fixpoint refused (around : surroundings) (names : list string) : option string :=
  match names with
  | [] => None
  | name :: rest =>
      if registers around name then refused around rest else Some name
  end.

(** The message of the error that is thrown for a refused name. *)
Definition refusal_message (around : surroundings) (name : string) : string :=
  if status_ok (host_status around (op_napi_create_function name))
  then "Unable to populate exports"
  else "Unable to wrap native function".

(** The library calls of a module initialisation with allocator [a], up
    to the registration of the functions. *)
Definition set_up_calls (around : surroundings) (a : aws_allocator)
    : list lib_call :=
  [ install_crash_handler; napi_wrap_context; aws_napi_logger_new a;
    aws_cal_library_init a; aws_http_library_init a; aws_mqtt_library_init a;
    aws_auth_library_init a; aws_register_error_info;
    aws_register_log_subject_info_list;
    aws_event_loop_group_new_default a 1;
    aws_host_resolver_new_default a 64 (lib_new around obj_event_loop_group);
    aws_client_bootstrap_new a (lib_new around obj_event_loop_group)
      (lib_new around obj_host_resolver) ].

(** The library calls of the finalizer of the context [ctx] in the world
    [w], up to the release of the context itself. *)
Definition tear_down_calls (w : world) (ctx : aws_napi_context) : list lib_call :=
  [ aws_client_bootstrap_release (s_default_client_bootstrap w);
    aws_host_resolver_release (s_default_host_resolver w);
    aws_event_loop_group_release (s_node_uv_elg w);
    aws_thread_join_all_managed;
    aws_unregister_log_subject_info_list; aws_unregister_error_info;
    aws_auth_library_clean_up; aws_mqtt_library_clean_up;
    aws_napi_logger_destroy (ctx_logger ctx);
    aws_mem_release_context (ctx_allocator ctx) ].

(** [w'] is [w] with more of a trace, and nothing else changed. *)
Definition only_trace (w w' : world) : Prop :=
  w' = set_trace (w_trace w') w.

(** A value of the tracing variable that [atoi] reads no number from:
    after white space and one optional sign no digit follows. *)
Definition no_digit (s : string) : bool :=
  match s with
  | String c _ => match digit_of c with Some _ => false | None => true end
  | EmptyString => true
  end.

Definition reads_no_number (value : string) : bool :=
  match skip_space value with
  | String "-" rest | String "+" rest => no_digit rest
  | s => no_digit s
  end.

(** A host whose set-up calls succeed except for those of [refuse]. *)
Definition refusing_surroundings (refuse : host_op -> bool) : surroundings :=
  mk_surroundings EnvUnset zero_byte_buf (mk_error_info None 0 napi_generic_failure)
    sample_to_string
    (fun op => if refuse op then napi_generic_failure else napi_ok)
    (fun o => match o with
              | obj_context => Some 1 | obj_logger => Some 2
              | obj_event_loop_group => Some 3 | obj_host_resolver => Some 4
              | obj_client_bootstrap => Some 5
              end%nat)
    sample_atoi (fun _ => aws_default_allocator).

(** The host refuses to set one function on the exports, or refuses the
    last of the bindings. *)
Definition refuse_one_export (op : host_op) : bool :=
  match op with
  | op_napi_set_named_property name => String.eqb name "io_logging_enable"
  | _ => false
  end.

Definition refuse_auth_bind (op : host_op) : bool :=
  match op with
  | op_auth_bind => true
  | _ => false
  end.

Definition refusing_world (refuse : host_op -> bool) : world :=
  mk_world [mk_block host_store true [x01; x02; x03; x04]] 4096 4096
    None None None None None
    (fun _ => mk_tsfn 1 false []) [] (refusing_surroundings refuse).

(** A world in which [a] is the allocator in use and the memory of a
    released context still reads as holding it. *)
Definition traced_world (a : aws_allocator) : world :=
  mk_world [mk_block host_store true [x01; x02; x03; x04]] 4096 4096
    (Some a) None None None None
    (fun _ => mk_tsfn 1 false []) []
    (mk_surroundings EnvUnset zero_byte_buf (mk_error_info None 0 napi_generic_failure)
       sample_to_string (fun _ => napi_ok) (fun _ => None)
       sample_atoi (fun _ => a)).

(** * Properties *)

(** The functions of module.c are unfolded by hand, one at a time. *)
Arguments aws_napi_get_allocator : simpl never.
Arguments aws_byte_buf_init_from_napi : simpl never.
Arguments aws_string_new_from_napi : simpl never.
Arguments aws_napi_create_dataview_from_byte_cursor : simpl never.
Arguments s_handle_failed_callback : simpl never.
Arguments init_libraries : simpl never.
Arguments register_exports : simpl never.

(** ** Typed arrays and rejected kinds *)

Lemma element_size_unhandled (kind : Z) :
  kind < 0 \/ 10 < kind -> element_size kind = 0.
Proof.
  intros H. unfold element_size, napi_int8_array, napi_uint8_array,
    napi_uint8_clamped_array, napi_int16_array, napi_uint16_array,
    napi_int32_array, napi_uint32_array, napi_float32_array, napi_float64_array.
  repeat match goal with
         | |- context [?a =? ?b] => destruct (Z.eqb_spec a b); [lia|]
         end.
  reflexivity.
Qed.

Lemma element_size_listed (kind size : Z) :
  In (kind, size) element_sizes -> element_size kind = size.
Proof.
  unfold element_sizes. cbn [In]. intros H.
  repeat (destruct H as [H | H]; [injection H as <- <-; reflexivity |]).
  destruct H.
Qed.

Lemma size_t_small (z : Z) : 0 <= z <= SIZE_MAX -> size_t z = z.
Proof. unfold size_t, SIZE_MAX. intros H. apply Z.mod_small. lia. Qed.

(** C7. A host value that is neither a text string, an ArrayBuffer, a
    DataView nor a typed array makes [aws_byte_buf_init_from_napi] fail
    with [napi_invalid_arg]; the caller's buffer and the world are left
    as they were. *)
Theorem init_rejects_other_kinds (w : world) (buf : aws_byte_buf) (v : js_value) :
  accepted_kind v = false ->
  aws_byte_buf_init_from_napi buf (Some v) w = (Ret (napi_invalid_arg, buf), w).
Proof.
  intros H. destruct v; try discriminate H; reflexivity.
Qed.

Lemma init_rejects_other_kinds_witness :
  aws_byte_buf_init_from_napi zero_byte_buf (Some (JsNumber 42)) plain_world
  = (Ret (napi_invalid_arg, zero_byte_buf), plain_world).
Proof. apply init_rejects_other_kinds. reflexivity. Defined.

(** C8. For a typed array of one of the eleven element kinds, the buffer
    that [aws_byte_buf_init_from_napi] produces points at the array's
    first element in the array's own storage, its length is the element
    count times the element size of the kind (1, 2, 4 or 8 as listed in
    [element_sizes]), its capacity equals its length, and neither the
    allocator member nor the world is touched. *)
Theorem typed_array_byte_length (w : world) (buf : aws_byte_buf)
    (kind size : Z) (store : nat) (byte_offset elements : Z) :
  In (kind, size) element_sizes ->
  0 <= elements ->
  elements * size <= SIZE_MAX ->
  aws_byte_buf_init_from_napi buf
    (Some (JsTypedArray kind store byte_offset elements)) w
  = (Ret (napi_ok,
          {| len := elements * size;
             buffer := Some (mk_ptr store byte_offset);
             capacity := elements * size;
             allocator := allocator buf |}), w).
Proof.
  intros Hin Hn Hmax. unfold aws_byte_buf_init_from_napi. cbn.
  rewrite (element_size_listed _ _ Hin).
  rewrite size_t_small; [reflexivity |].
  assert (0 <= size).
  { unfold element_sizes in Hin. cbn [In] in Hin.
    repeat (destruct Hin as [Hin | Hin]; [injection Hin as <- <-; lia |]).
    destruct Hin. }
  lia.
Qed.

Lemma typed_array_byte_length_witness :
  aws_byte_buf_init_from_napi zero_byte_buf
    (Some (JsTypedArray napi_uint16_array 0 2 1)) plain_world
  = (Ret (napi_ok, mk_byte_buf 2 (Some (mk_ptr 0 2)) 2 None), plain_world).
Proof.
  apply (typed_array_byte_length plain_world zero_byte_buf napi_uint16_array 2 0%nat 2 1).
  - cbn. tauto.
  - lia.
  - vm_compute. discriminate.
Defined.

(** C10. For a typed array whose element kind is none of the eleven,
    [aws_byte_buf_init_from_napi] returns [napi_ok] with a buffer of
    length 0 and capacity 0 that points at the array's data. *)
Theorem unhandled_typed_array_is_empty (w : world) (buf : aws_byte_buf)
    (kind : Z) (store : nat) (byte_offset elements : Z) :
  kind < 0 \/ 10 < kind ->
  aws_byte_buf_init_from_napi buf
    (Some (JsTypedArray kind store byte_offset elements)) w
  = (Ret (napi_ok,
          {| len := 0;
             buffer := Some (mk_ptr store byte_offset);
             capacity := 0;
             allocator := allocator buf |}), w).
Proof.
  intros H. unfold aws_byte_buf_init_from_napi. cbn.
  rewrite (element_size_unhandled _ H).
  rewrite Z.mul_0_r. reflexivity.
Qed.

Lemma unhandled_typed_array_is_empty_witness :
  aws_byte_buf_init_from_napi zero_byte_buf (Some (JsTypedArray 11 0 0 2)) plain_world
  = (Ret (napi_ok, mk_byte_buf 0 (Some (mk_ptr 0 0)) 0 None), plain_world).
Proof. apply unhandled_typed_array_is_empty. right. lia. Defined.

(** ** Null handles *)

(** C3 (as amended). On a null handle, acquire, release and unreference
    do nothing and return [napi_ok]; queue has no such guard and hands
    the null handle to the host's acquire. *)
Theorem null_handle_noop (w : world)
    (mode : napi_threadsafe_function_release_mode) (user_data : Z) :
  aws_napi_acquire_threadsafe_function None w = (Ret napi_ok, w) /\
  aws_napi_release_threadsafe_function None mode w = (Ret napi_ok, w) /\
  aws_napi_unref_threadsafe_function None w = (Ret napi_ok, w) /\
  w_trace (snd (aws_napi_queue_threadsafe_function None user_data w))
  = w_trace w ++ [ev_tsfn_acquire None].
Proof. repeat split. Qed.

Lemma queue_null_counterexample :
  aws_napi_queue_threadsafe_function None 0 plain_world
  <> (Ret napi_ok, plain_world).
Proof. vm_compute. discriminate. Qed.

(** ** Allocator *)

Lemma to_int_is_int (z : Z) : INT_MIN <= to_int z <= INT_MAX.
Proof.
  unfold to_int, INT_MIN, INT_MAX.
  pose proof (Z.mod_pos_bound (z - -2147483648) (2 ^ 32) eq_refl). lia.
Qed.

Lemma atoi_is_int (around : surroundings) (s : string) :
  INT_MIN <= atoi around s <= INT_MAX.
Proof.
  unfold atoi.
  destruct ((INT_MIN <=? decimal_value s) && (decimal_value s <=? INT_MAX)) eqn:E.
  - apply andb_true_iff in E. lia.
  - apply to_int_is_int.
Qed.


(** C4 (as amended). With no allocator chosen yet: a tracing variable
    that is not set, or cannot be read, gives the default allocator
    itself; a value that [atoi] reads as an [int] outside 0..2 is
    reported on standard error and gives a tracing allocator of level 0
    around the default allocator; a value read as 0, 1 or 2 gives a
    tracing allocator of that level around the default allocator, with 16
    frames per stack.  What [atoi] reads is the number written in the
    value whenever that number fits an [int]. *)
Theorem allocator_selection (w : world) :
  s_allocator w = None ->
  (forall value, getenv_mem_tracing (w_around w) = EnvSet value ->
     (INT_MIN <= decimal_value value <= INT_MAX ->
        atoi (w_around w) value = decimal_value value) /\
     INT_MIN <= atoi (w_around w) value <= INT_MAX /\
     (atoi (w_around w) value < 0 \/ 2 < atoi (w_around w) value ->
        aws_napi_get_allocator w
        = (Ret (mem_tracer aws_default_allocator AWS_MEMTRACE_NONE 16),
           set_s_allocator (Some (mem_tracer aws_default_allocator AWS_MEMTRACE_NONE 16))
             (set_trace (w_trace w ++ [ev_stderr invalid_tracing_fmt [arg_text value]]) w)))
     /\
     (0 <= atoi (w_around w) value <= 2 ->
        aws_napi_get_allocator w
        = (Ret (mem_tracer aws_default_allocator (atoi (w_around w) value) 16),
           set_s_allocator
             (Some (mem_tracer aws_default_allocator (atoi (w_around w) value) 16)) w)))
  /\
  (getenv_mem_tracing (w_around w) = EnvUnset \/
   getenv_mem_tracing (w_around w) = EnvError ->
     aws_napi_get_allocator w
     = (Ret aws_default_allocator, set_s_allocator (Some aws_default_allocator) w)).
Proof.
  intros Hnull. split.
  - intros value Hset. split; [|split].
    { intros Hfit. unfold atoi.
      assert ((INT_MIN <=? decimal_value value) && (decimal_value value <=? INT_MAX)
              = true) as -> by (apply andb_true_iff; lia).
      reflexivity. }
    { apply atoi_is_int. }
    unfold aws_napi_get_allocator, bind, get_world.
    rewrite Hnull, Hset. cbn. unfold AWS_MEMTRACE_NONE, AWS_MEMTRACE_STACKS.
    split; intros H.
    + assert ((atoi (w_around w) value <? 0) || (atoi (w_around w) value >? 2) = true)
        as ->.
      { apply orb_true_iff. destruct H; [left | right]; lia. }
      reflexivity.
    + assert ((atoi (w_around w) value <? 0) || (atoi (w_around w) value >? 2) = false)
        as ->.
      { apply orb_false_iff. split; lia. }
      reflexivity.
  - intros H. unfold aws_napi_get_allocator. cbn.
    rewrite Hnull. destruct H as [-> | ->]; reflexivity.
Qed.

Lemma allocator_selection_witness :
  aws_napi_get_allocator (sample_world (EnvSet "2") zero_byte_buf)
  = (Ret (mem_tracer aws_default_allocator 2 16),
     set_s_allocator (Some (mem_tracer aws_default_allocator 2 16))
       (sample_world (EnvSet "2") zero_byte_buf)).
Proof.
  apply (proj2 (proj2 (proj2 (proj1 (allocator_selection
           (sample_world (EnvSet "2") zero_byte_buf) eq_refl) "2"%string eq_refl)))).
  vm_compute. split; discriminate.
Defined.

Lemma tracing_level_counterexample :
  fst (aws_napi_get_allocator (sample_world (EnvSet "0") zero_byte_buf))
    = Ret (mem_tracer aws_default_allocator 0 16) /\
  fst (aws_napi_get_allocator (sample_world (EnvSet "7") zero_byte_buf))
    = Ret (mem_tracer aws_default_allocator 0 16) /\
  Ret (mem_tracer aws_default_allocator 0 16) <> Ret aws_default_allocator.
Proof. repeat split. discriminate. Qed.

(** ** Process context *)

(** Evaluation of a computation, leaving arithmetic, lists and memory
    folded. *)
Ltac exec :=
  lazy -[Z.add Z.sub Z.mul Z.opp Z.div Z.modulo Z.pow Z.leb Z.ltb Z.gtb Z.geb
         Z.eqb Z.of_nat Z.to_nat Z.of_N Z.le Z.lt Z.ge Z.gt Z.compare
         Nat.eqb app length take drop resize write_block kill_block
         quiet accepted_kind handled_kind well_formed memory_for js_bytes
         printed logged releases released same_globals calling_lines
         error_lines thrown_value_lines raised reportable
         receiver
         replicate alter lookup block_bytes load store splice c_str size_t
         SIZE_MAX atoi allocator_eqb element_size
         lib_new host_status to_string getenv_mem_tracing stack_byte_buf
         atoi_out_of_range released_allocator
         extractable after_extraction text_arg calling_report error_report
         thrown_report buffer_size string_size text_or_unreadable
         last_error_info
         aws_napi_get_allocator aws_string_new_from_napi
         aws_byte_buf_init_from_napi s_handle_failed_callback
         init_libraries register_exports].

Ltac not_in_list H :=
  repeat (destruct H as [H | H]; [discriminate H |]); destruct H.

Lemma get_allocator_returns (w : world) :
  exists a w', aws_napi_get_allocator w = (Ret a, w') /\
    w_mem w' = w_mem w /\ w_native_avail w' = w_native_avail w /\
    w_host_avail w' = w_host_avail w /\ w_pending w' = w_pending w /\
    w_tsfn w' = w_tsfn w /\ w_around w' = w_around w /\
    same_globals w w' /\ s_allocator w' = Some a /\
    (w_trace w' = w_trace w \/
     exists value, w_trace w' = w_trace w ++ [ev_stderr invalid_tracing_fmt [arg_text value]]).
Proof.
  unfold aws_napi_get_allocator, same_globals. cbn.
  destruct (s_allocator w) as [a|] eqn:Ha.
  - exists a, w. cbn. tauto.
  - destruct (getenv_mem_tracing (w_around w)) as [| |value]; cbn;
      try (eexists _, _; split; [reflexivity|]; cbn; tauto).
    destruct ((atoi _ value <? AWS_MEMTRACE_NONE) || (atoi _ value >? AWS_MEMTRACE_STACKS));
      cbn; eexists _, _; (split; [reflexivity|]); cbn; repeat split; eauto.
Qed.

Lemma init_libraries_globals (exports : napi_value) (w w' : world) (a : aws_allocator) :
  init_libraries exports w = (Ret a, w') -> same_globals w w'.
Proof.
  unfold init_libraries. unfold bind at 1. unfold emit, modify. unfold bind at 1.
  destruct (get_allocator_returns (set_trace (w_trace w ++ [ev_lib install_crash_handler]) w))
    as (a0 & w0 & -> & _ & _ & _ & _ & _ & Haround & G & _).
  destruct G as (G1 & G2 & G3). cbn in G1, G2, G3, Haround.
  unfold s_napi_context_new, AWS_FATAL_ASSERT, AWS_NAPI_ENSURE, napi_wrap.
  destruct w0. cbn in G1, G2, G3, Haround. exec.
  destruct (lib_new _ obj_context); exec; [|discriminate].
  destruct (host_status _ op_napi_wrap); exec; try discriminate.
  intros [= <- <-]. unfold same_globals. cbn in *. auto.
Qed.

(** C5. Module initialisation with any of the event-loop group, the host
    resolver or the client bootstrap already set ends the process in a
    fatal assertion.  The finalizer of the context releases the client
    bootstrap, then the host resolver, then the event-loop group, and
    joins the managed threads after these three and only once. *)
Theorem context_lifecycle :
  (forall (w : world) (exports : napi_value),
      s_node_uv_elg w <> None \/ s_default_host_resolver w <> None \/
      s_default_client_bootstrap w <> None ->
      exists what w', NAPI_MODULE_INIT exports w = (Fatal what, w')) /\
  (forall (w : world) (ctx : aws_napi_context),
      exists w' later,
        s_napi_context_finalize ctx w = (Ret tt, w') /\
        w_trace w' = w_trace w
          ++ [ev_lib (aws_client_bootstrap_release (s_default_client_bootstrap w));
              ev_lib (aws_host_resolver_release (s_default_host_resolver w));
              ev_lib (aws_event_loop_group_release (s_node_uv_elg w));
              ev_lib aws_thread_join_all_managed]
          ++ later /\
        ~ In (ev_lib aws_thread_join_all_managed) later).
Proof.
  split.
  - intros w exports Hlive. unfold NAPI_MODULE_INIT. unfold bind at 1.
    destruct (init_libraries exports w) as [[a|what] w1] eqn:E; [|eauto].
    apply init_libraries_globals in E as (G1 & G2 & G3).
    rewrite <- G1, <- G2, <- G3 in Hlive. clear G1 G2 G3.
    unfold AWS_FATAL_ASSERT. destruct w1. cbn in Hlive. exec.
    destruct s_node_uv_elg0; exec; [eauto|].
    destruct (lib_new _ obj_event_loop_group); exec; [|eauto].
    destruct s_default_host_resolver0; exec; [eauto|].
    destruct (lib_new _ obj_host_resolver); exec; [|eauto].
    destruct s_default_client_bootstrap0; exec; [eauto|].
    exfalso. tauto.
  - intros w [ca cl]. destruct w. unfold s_napi_context_finalize.
    destruct (allocator_eqb (released_allocator w_around0 0%nat) aws_default_allocator)
      eqn:H;
      [| destruct s_allocator0 as [a|];
         [destruct (allocator_eqb a (released_allocator w_around0 2%nat)) eqn:H2 |] ];
      (eexists _, _; split; [exec; rewrite ?H, ?H2; exec; reflexivity|];
       cbn; rewrite <- !app_assoc; cbn;
       split; [reflexivity|]; intros Hin; not_in_list Hin).
Qed.

Lemma context_lifecycle_witness :
  exists what w',
    NAPI_MODULE_INIT (Some JsObject) (set_s_node_uv_elg (Some 3%nat) plain_world)
    = (Fatal what, w').
Proof.
  refine (proj1 context_lifecycle _ _ _).
  left. cbn. discriminate.
Defined.

(** ** Memory *)

Lemma block_bytes_app_l (m m' : list block) (b : nat) :
  (b < length m)%nat -> block_bytes (m ++ m') b = block_bytes m b.
Proof. intros H. unfold block_bytes. by rewrite lookup_app_l. Qed.

Lemma block_bytes_new (m m' : list block) (bl : block) :
  block_bytes (m ++ bl :: m') (length m) = b_bytes bl.
Proof. unfold block_bytes. by rewrite list_lookup_middle. Qed.

Lemma block_bytes_outside (m : list block) (b : nat) :
  (length m <= b)%nat -> block_bytes m b = [].
Proof. intros H. unfold block_bytes. by rewrite lookup_ge_None_2. Qed.

Lemma block_bytes_kill (m : list block) (i b : nat) :
  block_bytes (alter kill_block i m) b = block_bytes m b.
Proof.
  unfold block_bytes. rewrite list_lookup_alter.
  destruct (decide (i = b)) as [->|]; [|done].
  by destruct (m !! b).
Qed.

Lemma store_new (m : list block) (bl : block) (bs : list byte) :
  store (Some (mk_ptr (length m) 0)) bs (m ++ [bl]) = m ++ [write_block 0 bs bl].
Proof.
  unfold store. cbn [blk off]. change (Z.to_nat 0) with 0%nat.
  replace (length m) with (length m + 0)%nat at 1 by lia.
  by rewrite alter_app_r.
Qed.

Lemma splice_fresh (bs : list byte) (n : nat) :
  n = length bs -> splice 0 bs (replicate n x00) = bs.
Proof.
  intros ->. unfold splice. cbn.
  rewrite drop_ge; [by rewrite app_nil_r | by rewrite length_replicate].
Qed.

Lemma load_whole (m : list block) (b : nat) (bs : list byte) (n : Z) :
  block_bytes m b = bs -> n = Z.of_nat (length bs) ->
  load m (Some (mk_ptr b 0)) n = bs.
Proof.
  intros <- ->. unfold load. cbn. rewrite Nat2Z.id, drop_0. apply resize_all.
Qed.

Lemma load_prefix (m : list block) (b : nat) (bs rest : list byte) (n : Z) :
  block_bytes m b = bs ++ rest -> n = Z.of_nat (length bs) ->
  load m (Some (mk_ptr b 0)) n = bs.
Proof.
  intros E ->. unfold load. cbn. rewrite Nat2Z.id, drop_0, E.
  by apply resize_app.
Qed.

Lemma c_str_terminated (s : list byte) : c_str (s ++ [x00]) = c_str s.
Proof.
  induction s as [|b s IH]; [reflexivity|].
  cbn. by rewrite IH.
Qed.

Lemma quiet_refl (w : world) : quiet w w.
Proof.
  repeat split. exists []. split; [by rewrite app_nil_r | constructor].
Qed.

Lemma quiet_trans (w1 w2 w3 : world) : quiet w1 w2 -> quiet w2 w3 -> quiet w1 w3.
Proof.
  intros (P1 & T1 & A1 & l1 & E1 & S1) (P2 & T2 & A2 & l2 & E2 & S2).
  repeat split; try congruence.
  exists (l1 ++ l2). split.
  - by rewrite E2, E1, app_assoc.
  - by apply Forall_app.
Qed.

Lemma quiet_logged (w w' : world) :
  quiet w w' -> logged (w_trace w') = logged (w_trace w).
Proof.
  intros (_ & _ & _ & l & -> & Hl). unfold logged. rewrite omap_app.
  rewrite <- (app_nil_r (omap _ (w_trace w))) at 2. f_equal.
  induction Hl as [|e l He _ IH]; [reflexivity|].
  cbn. destruct e; try destruct He; exact IH.
Qed.

Lemma quiet_releases (h : nat) (w w' : world) :
  quiet w w' -> releases h (w_trace w') = releases h (w_trace w).
Proof.
  intros (_ & _ & _ & l & -> & Hl). unfold releases. rewrite filter_app, length_app.
  enough (filter (fun e => is_release_of h e = true) l = []) as -> by (cbn; lia).
  induction Hl as [|e l He _ IH]; [reflexivity|].
  rewrite filter_cons. destruct e; try destruct He; cbn; rewrite IH;
    by destruct (decide _).
Qed.

Lemma get_allocator_cached (w : world) (a : aws_allocator) :
  s_allocator w = Some a -> aws_napi_get_allocator w = (Ret a, w).
Proof. intros H. unfold aws_napi_get_allocator. cbn. by rewrite H. Qed.

Ltac split_if :=
  match goal with
  | |- context [if ?c then _ else _] =>
      let E := fresh "E" in
      destruct c eqn:E;
      first [ apply Z.eqb_eq in E | apply Z.eqb_neq in E
            | apply Z.leb_le in E | apply Z.leb_gt in E | idtac ]
  end; exec.

Ltac world_fields :=
  cbn [w_mem w_native_avail w_host_avail s_allocator s_node_uv_elg
       s_default_host_resolver s_default_client_bootstrap w_pending w_tsfn
       w_trace w_around] in *.

Ltac first_allocator :=
  match goal with
  | |- context [aws_napi_get_allocator ?w] =>
      let a := fresh "a" in
      let w1 := fresh "w" in
      let Htr := fresh "Htr" in
      destruct (get_allocator_returns w)
        as (a & w1 & -> & ? & ? & ? & ? & ? & ? & _ & ? & Htr);
      destruct w1; world_fields; subst; exec
  end.

Ltac solve_quiet :=
  unfold quiet; world_fields;
  split; [reflexivity|]; split; [reflexivity|]; split; [reflexivity|];
  first [ exists []; split; [symmetry; apply app_nil_r | constructor]
        | eexists; split;
          [ rewrite <- ?app_assoc; reflexivity | repeat constructor ] ].

Lemma write_new (m : list block) (r : region) (bs : list byte) (n : nat) :
  n = length bs ->
  alter (write_block (Z.to_nat 0) bs) (length m)
    (m ++ [mk_block r true (replicate n x00)])
  = m ++ [mk_block r true bs].
Proof.
  intros ->. replace (length m) with (length m + 0)%nat at 1 by lia.
  rewrite alter_app_r. cbn. unfold write_block. cbn [b_region b_live b_bytes].
  change (Z.to_nat 0) with 0%nat. by rewrite splice_fresh.
Qed.

Lemma load_new (m : list block) (bl : block) (bs rest : list byte) (n : Z) :
  b_bytes bl = bs ++ rest -> n = Z.of_nat (length bs) ->
  load (m ++ [bl]) (Some (mk_ptr (length m) 0)) n = bs.
Proof.
  intros E ->. eapply load_prefix; [|reflexivity].
  by rewrite block_bytes_new.
Qed.

Lemma load_kill (m : list block) (i : nat) (p : option ptr) (n : Z) :
  load (alter kill_block i m) p n = load m p n.
Proof. destruct p as [p|]; [|reflexivity]. unfold load. by rewrite block_bytes_kill. Qed.

Ltac sizes :=
  change (SIZE_MAX / 2) with 9223372036854775807 in *;
  change SIZE_MAX with 18446744073709551615 in *.

Ltac leaf tac :=
  match goal with
  | Htr : _ \/ _ |- _ => destruct Htr as [-> | [? ->]]
  end;
  (eexists _, _; split; [reflexivity|]; split; [solve_quiet | tac]).

Lemma string_new_returns (v : js_value) (w : world) :
  exists r w', aws_string_new_from_napi (Some v) w = (Ret r, w') /\ quiet w w' /\
    forall str, r = Some str ->
      accepted_kind v = true /\
      forall utf8, v = JsString utf8 -> Z.of_nat (length utf8) <= SIZE_MAX / 2 ->
        load (w_mem w') (Some (str_bytes str)) (str_len str + 1) = utf8 ++ [x00].
Proof.
  destruct w.
  unfold aws_string_new_from_napi. unfold bind at 1. unfold get_world.
  world_fields. destruct (stack_byte_buf w_around0) as [jl jb jc ja].
  unfold aws_byte_buf_init_from_napi, AWS_NAPI_CALL.
  destruct v; exec;
    try (eexists _, _; split; [reflexivity|]; split; [solve_quiet | discriminate]).
  - (* text *)
    first_allocator.
    repeat first [ erewrite get_allocator_cached by reflexivity; exec | split_if ];
      leaf idtac.
    all: intros str Hs; try discriminate Hs; injection Hs as <-.
    all: split; [reflexivity|]; intros ? [= <-] Hb.
    all: cbn [str_bytes str_len w_mem].
    all: try (exfalso; rewrite size_t_small in * by (sizes; lia); lia).
    all: rewrite !size_t_small by (sizes; lia).
    all: replace (Z.to_nat (Z.of_nat (length utf8) + 1 - 1)) with (length utf8) by lia.
    all: rewrite take_ge by lia.
    all: unfold store; cbn [blk off].
    all: rewrite !(write_new w_mem0 _ (utf8 ++ [x00])) by (rewrite length_app; cbn [length]; lia).
    all: rewrite (load_new w_mem0 _ utf8 [x00]) by reflexivity.
    all: rewrite write_new by (rewrite length_app; cbn [length]; lia).
    all: rewrite load_kill.
    all: apply load_whole; [apply block_bytes_new | rewrite length_app; cbn [length]; lia].
  - first_allocator; split_if; destruct ja; exec; leaf idtac.
    all: intros str Hs; first [discriminate Hs | split; [reflexivity | discriminate]].
  - first_allocator; split_if; destruct ja; exec; leaf idtac.
    all: intros str Hs; first [discriminate Hs | split; [reflexivity | discriminate]].
  - first_allocator; split_if; destruct ja; exec; leaf idtac.
    all: intros str Hs; first [discriminate Hs | split; [reflexivity | discriminate]].
Qed.

(** ** The failure handler *)

Lemma logged_app (l1 l2 : list event) : logged (l1 ++ l2) = logged l1 ++ logged l2.
Proof. apply omap_app. Qed.

Lemma logged_silent (l : list event) : Forall silent l -> logged l = [].
Proof.
  induction 1 as [|e l He _ IH]; [reflexivity|].
  cbn. destruct e; try destruct He; exact IH.
Qed.

Lemma releases_app (h : nat) (l1 l2 : list event) :
  releases h (l1 ++ l2) = (releases h l1 + releases h l2)%nat.
Proof. unfold releases. by rewrite filter_app, length_app. Qed.

Lemma releases_silent (h : nat) (l : list event) : Forall silent l -> releases h l = 0%nat.
Proof.
  induction 1 as [|e l He _ IH]; [reflexivity|].
  unfold releases in *. rewrite filter_cons.
  destruct e; try destruct He; cbn; destruct (decide _); try done.
Qed.

Lemma printed_intro (v : js_value) (bytes : list byte) :
  (forall utf8, v = JsString utf8 -> Z.of_nat (length utf8) <= SIZE_MAX / 2 ->
     bytes = utf8 ++ [x00]) ->
  printed v (arg_cstr (c_str bytes)).
Proof.
  intros H. exists (c_str bytes). split; [reflexivity|].
  intros utf8 Hv Hb. rewrite (H utf8 Hv Hb). apply c_str_terminated.
Qed.

Ltac convert_string :=
  match goal with
  | |- context [aws_string_new_from_napi (Some ?v) ?w] =>
      let r := fresh "r" in
      let w1 := fresh "w" in
      let l := fresh "l" in
      let S := fresh "S" in
      let P := fresh "P" in
      destruct (string_new_returns v w)
        as (r & w1 & -> & (? & ? & ? & l & ? & S) & P);
      destruct w1; world_fields; subst;
      destruct r as [[? ? ?]|]; exec
  end.

Ltac trace_facts :=
  world_fields;
  rewrite ?logged_app, ?releases_app;
  repeat match goal with
         | S : Forall silent ?l |- _ =>
             first [ rewrite (logged_silent l S) | rewrite (releases_silent _ l S) ]
         end;
  cbn; rewrite ?app_nil_r, ?Nat.add_0_r, <- ?app_assoc; cbn.

Ltac take_world :=
  lazymatch goal with
  | |- exists w', (Ret tt, ?W) = (Ret tt, w') /\ _ => exists W; split; [reflexivity|]
  end.

Ltac log_equation :=
  lazymatch goal with
  | |- ?L = _ =>
      let E := fresh "E" in
      eassert (E : L = _) by (trace_facts; reflexivity); exact E
  end.

Ltac accepted_of v :=
  match goal with
  | P : forall str, Some _ = Some str -> accepted_kind v = true /\ _ |- _ =>
      exact (proj1 (P _ eq_refl))
  end.

Ltac printed_of v :=
  match goal with
  | P : forall str, Some _ = Some str -> accepted_kind v = true /\ _ |- _ =>
      let u := fresh "u" in
      let Hv := fresh "Hv" in
      let Hb := fresh "Hb" in
      apply printed_intro; intros u Hv Hb;
      exact (proj2 (P _ eq_refl) u Hv Hb)
  end.

Ltac handler_frame :=
  take_world; split; [reflexivity|]; split; [reflexivity|];
  split; [intros h; trace_facts; reflexivity|].

Lemma handler_reports_error (w : world) (f m s : js_value) (ftxt : list byte)
    (reason : napi_status) :
  w_pending w = Some (JsError m s) -> to_string (w_around w) f = Some ftxt ->
  exists w',
    s_handle_failed_callback (Some f) reason w = (Ret tt, w') /\
    w_pending w' = None /\ w_tsfn w' = w_tsfn w /\
    (forall h, releases h (w_trace w') = releases h (w_trace w)) /\
    exists calling rest,
      logged (w_trace w') = logged (w_trace w) ++ calling ++ rest /\
      calling_lines ftxt calling /\ error_lines m s rest.
Proof.
  destruct w; world_fields. intros -> Hf.
  unfold s_handle_failed_callback, AWS_NAPI_ENSURE. exec. rewrite Hf. exec.
  convert_string; (convert_string; [convert_string|]).
  all: handler_frame.
  1-3: eexists [_], _; split; [log_equation|];
       split; [right; eexists; split; [printed_of (JsString ftxt) | reflexivity]|].
  4-6: eexists [], _; split; [log_equation|]; split; [by left|].
  all: first
    [ by left
    | right; eexists; split; [accepted_of m|]; split; [printed_of m|];
      first
        [ by left
        | right; eexists; split; [accepted_of s|]; split; [printed_of s|];
          reflexivity ] ].
Qed.

Lemma handler_reports_thrown (w : world) (f e : js_value) (ftxt etxt : list byte)
    (reason : napi_status) :
  w_pending w = Some e -> is_error_value e = false ->
  to_string (w_around w) f = Some ftxt -> to_string (w_around w) e = Some etxt ->
  exists w',
    s_handle_failed_callback (Some f) reason w = (Ret tt, w') /\
    w_pending w' = None /\ w_tsfn w' = w_tsfn w /\
    (forall h, releases h (w_trace w') = releases h (w_trace w)) /\
    exists calling rest,
      logged (w_trace w') = logged (w_trace w) ++ calling ++ rest /\
      calling_lines ftxt calling /\ thrown_value_lines etxt rest.
Proof.
  destruct w; world_fields. intros -> He Hf Ht.
  unfold s_handle_failed_callback, AWS_NAPI_ENSURE.
  destruct e; try discriminate He; exec; rewrite Hf; exec.
  all: convert_string; rewrite Ht; exec; convert_string.
  all: handler_frame.
  all: first
    [ eexists [_], _; split; [log_equation|];
      split; [right; eexists; split; [printed_of (JsString ftxt) | reflexivity]|]
    | eexists [], _; split; [log_equation|]; split; [by left|] ].
  all: first
    [ by left
    | right; eexists; split; [printed_of (JsString etxt) | reflexivity] ].
Qed.

Lemma handler_reports_engine_error (w : world) (function : napi_value)
    (reason : napi_status) :
  w_pending w = None ->
  s_handle_failed_callback function reason w
  = (Ret tt,
     set_trace (w_trace w ++ [extended_error_event (last_error_info (w_around w))]) w).
Proof.
  destruct w; world_fields. intros ->.
  unfold s_handle_failed_callback, AWS_NAPI_ENSURE. exec. reflexivity.
Qed.

Lemma releases_one (h : nat) (mode : napi_threadsafe_function_release_mode) :
  releases h [ev_tsfn_release (Some h) mode] = 1%nat.
Proof. unfold releases. cbn. rewrite Nat.eqb_refl. by destruct (decide _). Qed.

Lemma is_error_value_inv (e : js_value) :
  is_error_value e = true -> exists m s, e = JsError m s.
Proof. destruct e; try discriminate. eauto. Qed.

Lemma call_function_returns (w : world) (recv : js_value) (function : napi_value)
    (argv : list napi_value) :
  exists status r w1,
    napi_call_function (Some recv) function argv w = (Ret (status, r), w1) /\
    w_tsfn w1 = w_tsfn w /\ w_trace w1 = w_trace w /\ w_around w1 = w_around w /\
    (status <> napi_ok -> w_pending w1 = raised w function).
Proof.
  destruct w. unfold napi_call_function, raised. exec.
  destruct w_pending0 as [e|]; exec.
  { eexists _, _, _. split; [reflexivity|]. cbn. auto. }
  destruct function as [[]|]; exec;
    try (eexists _, _, _; split; [reflexivity|]; cbn; auto).
  destruct body; exec; eexists _, _, _; (split; [reflexivity|]); cbn; auto.
Qed.

(** The host call of a dispatch together with the report of its failure. *)
Lemma call_and_report (w : world) (recv : js_value) (function : napi_value)
    (argv : list napi_value) :
  (forall e, raised w function = Some e -> reportable w function e) ->
  exists call_status w',
    AWS_NAPI_CALL "napi_call_function" (napi_call_function (Some recv) function argv)
      (fun status => run s_handle_failed_callback function status then ret status)
      (fun _ => ret napi_ok) w
    = (Ret call_status, w') /\
    w_tsfn w' = w_tsfn w /\
    (forall h, releases h (w_trace w') = releases h (w_trace w)) /\
    forall status r w1,
      napi_call_function (Some recv) function argv w = (Ret (status, r), w1) ->
      status <> napi_ok -> call_status = status.
Proof.
  intros Hrep. unfold AWS_NAPI_CALL.
  assert (forall st W,
    w_pending W = None ->
    exists w',
      (run emit (ev_napi_call_failed "napi_call_function" st) then
       run s_handle_failed_callback function st then ret st) W = (Ret st, w') /\
      w_tsfn w' = w_tsfn W /\
      (forall h, releases h (w_trace w') = releases h (w_trace W))) as Hquiet.
  { intros st W HW. destruct W. world_fields. subst. exec.
    rewrite handler_reports_engine_error by reflexivity. exec.
    eexists. split; [reflexivity|]. split; [reflexivity|].
    intros h. trace_facts. reflexivity. }
  assert (forall st W e,
    w_pending W = Some e -> reportable W function e ->
    exists w',
      (run emit (ev_napi_call_failed "napi_call_function" st) then
       run s_handle_failed_callback function st then ret st) W = (Ret st, w') /\
      w_tsfn w' = w_tsfn W /\
      (forall h, releases h (w_trace w') = releases h (w_trace W))) as Hexc.
  { intros st W e HW ((f & ftxt & -> & Hf) & He). destruct W. world_fields. subst.
    exec.
    match goal with
    | |- context [s_handle_failed_callback _ _ ?W1] => set (W := W1)
    end.
    assert (exists w', s_handle_failed_callback (Some f) st W = (Ret tt, w') /\
              w_tsfn w' = w_tsfn W /\
              (forall h, releases h (w_trace w') = releases h (w_trace W)))
      as (w' & -> & Ht & Hr).
    { destruct He as [He | [etxt He]].
      - apply is_error_value_inv in He as (m & s & ->).
        destruct (handler_reports_error W f m s ftxt st eq_refl Hf)
          as (w' & E & _ & Ht & Hr & _). eauto.
      - destruct (is_error_value e) eqn:Hv.
        + apply is_error_value_inv in Hv as (m & s & ->).
          destruct (handler_reports_error W f m s ftxt st eq_refl Hf)
            as (w' & E & _ & Ht & Hr & _). eauto.
        + destruct (handler_reports_thrown W f e ftxt etxt st eq_refl Hv Hf He)
            as (w' & E & _ & Ht & Hr & _). eauto. }
    exec. eexists. split; [reflexivity|]. split; [exact Ht|].
    intros h. rewrite Hr. subst W. trace_facts. reflexivity. }
  destruct (call_function_returns w recv function argv)
    as (st & r & w1 & Hcall & Ht & Htr & Har & Hp).
  unfold bind at 1. rewrite Hcall. cbn [fst snd].
  destruct (status_ok st) eqn:Hok.
  - exists napi_ok, w1. split; [reflexivity|]. split; [exact Ht|].
    split; [intros h; by rewrite Htr|].
    intros st' r' w1' [= <- <- <-]. by destruct st.
  - assert (st <> napi_ok) as Hne by (intros ->; discriminate Hok).
    specialize (Hp Hne).
    assert (exists w',
      (run emit (ev_napi_call_failed "napi_call_function" st) then
       run s_handle_failed_callback function st then ret st) w1 = (Ret st, w') /\
      w_tsfn w' = w_tsfn w1 /\
      (forall h, releases h (w_trace w') = releases h (w_trace w1)))
      as (w' & E & Ht' & Hr').
    { destruct (w_pending w1) as [e|] eqn:Hw1.
      - apply (Hexc st w1 e Hw1).
        destruct (Hrep e (eq_sym Hp)) as (Hf & He).
        unfold reportable. rewrite Har. by split.
      - by apply Hquiet. }
    exists st, w'. split; [exact E|]. split; [congruence|].
    split; [intros h; by rewrite Hr', Htr|].
    by intros st' r' w1' [= <- <- <-].
Qed.

(** The paths of a dispatch that return: when the conversions that the
    failure handler asserts on succeed and the handle holds a reference, a
    dispatch returns, has released exactly one reference of the function
    by then, and returns the status of the host call whenever that status
    is not [napi_ok]. *)
Lemma dispatch_returns_released (w : world) (h : nat)
    (this_ptr function : napi_value) (argv : list napi_value) :
  (forall e, raised w function = Some e -> reportable w function e) ->
  (0 < thread_count (w_tsfn w h))%nat ->
  exists status w',
    aws_napi_dispatch_threadsafe_function (Some h) this_ptr function argv w
    = (Ret status, w') /\
    releases h (w_trace w') = S (releases h (w_trace w)) /\
    thread_count (w_tsfn w h) = S (thread_count (w_tsfn w' h)) /\
    forall call_status r w1,
      napi_call_function (receiver this_ptr) function argv w
      = (Ret (call_status, r), w1) ->
      call_status <> napi_ok -> status = call_status.
Proof.
  intros Hrep Hcount.
  assert (exists recv, receiver this_ptr = Some recv) as [recv Hrecv]
    by (destruct this_ptr; cbn; eauto).
  rewrite Hrecv.
  destruct (call_and_report w recv function argv Hrep)
    as (cs & w1 & E & Ht & Hr & Hs').
  assert (forall st, (exists r w2,
            napi_call_function (Some recv) function argv w = (Ret (st, r), w2)) ->
          st <> napi_ok -> cs = st) as Hs.
  { intros st (r & w2 & Hc). by apply (Hs' st r w2). }
  assert (aws_napi_dispatch_threadsafe_function (Some h) this_ptr function argv w
          = (let* call_status :=
               AWS_NAPI_CALL "napi_call_function"
                 (napi_call_function (Some recv) function argv)
                 (fun status =>
                    run s_handle_failed_callback function status then ret status)
                 (fun _ => ret napi_ok) in
             let* (release_status, _) :=
               napi_release_threadsafe_function (Some h) napi_tsfn_release in
             ret (if negb (status_ok call_status) then call_status
                  else release_status)) w) as ->.
  { destruct this_ptr; cbn in Hrecv; injection Hrecv as <-; reflexivity. }
  unfold bind at 1. rewrite E. clear E Hs' Hrep.
  destruct w, w1. world_fields. subst.
  destruct (w_tsfn0 h) as [count closing q] eqn:Hh.
  unfold napi_release_threadsafe_function. exec. rewrite Hh. exec.
  cbn [thread_count] in Hcount.
  destruct count as [|n]; [lia|]. exec.
  eexists _, _. split; [reflexivity|]. world_fields.
  split; [rewrite releases_app, Hr, releases_one; lia|].
  rewrite ?Hh. unfold fun_upd. rewrite Nat.eqb_refl. split; [reflexivity|].
  intros st r w1 Hc Hne. rewrite (Hs st (ex_intro _ r (ex_intro _ w1 Hc)) Hne).
  by destruct st.
Qed.

Lemma dispatch_returns_released_witness :
  exists status w',
    aws_napi_dispatch_threadsafe_function (Some 0%nat) None
      (throwing (JsError (JsString (list_byte_of_string "boom"))
                   (JsString (list_byte_of_string "at f")))) [] plain_world
    = (Ret status, w') /\
    releases 0 (w_trace w') = 1%nat /\
    1%nat = S (thread_count (w_tsfn w' 0%nat)) /\
    forall call_status r w1,
      napi_call_function (Some JsUndefined)
        (throwing (JsError (JsString (list_byte_of_string "boom"))
                     (JsString (list_byte_of_string "at f")))) [] plain_world
      = (Ret (call_status, r), w1) ->
      call_status <> napi_ok -> status = call_status.
Proof.
  apply (dispatch_returns_released plain_world 0%nat None).
  - intros e [= <-]. split.
    + eexists _, _. split; reflexivity.
    + left. reflexivity.
  - cbn. lia.
Defined.

(** The path that does not return: the callable throws a value that is
    not an Error and has no string form.  The handler clears the
    exception and asserts on the conversion of the value; the process
    ends there, with no release and no status. *)
Lemma handler_aborts (w : world) (f e : js_value) (reason : napi_status) :
  w_pending w = Some e -> is_error_value e = false ->
  to_string (w_around w) e = None ->
  exists what w',
    s_handle_failed_callback (Some f) reason w = (Fatal what, w') /\
    (forall h, releases h (w_trace w') = releases h (w_trace w)) /\
    w_tsfn w' = w_tsfn w.
Proof.
  destruct w as [mem navail havail alloc elg res boot pend tsfn tr around].
  world_fields. intros -> He Ht.
  unfold s_handle_failed_callback, AWS_NAPI_ENSURE.
  destruct e; try discriminate He; exec.
  all: destruct (to_string around f) as [ftxt|]; exec.
  all: try convert_string.
  all: rewrite ?Ht; exec.
  all: eexists _, _; split; [reflexivity|]; split; [intros h; trace_facts|]; reflexivity.
Qed.

Lemma dispatch_aborts_on_unconvertible (w : world) (h : nat) (this_ptr : napi_value)
    (e : js_value) (argv : list napi_value) :
  w_pending w = None -> is_error_value e = false ->
  to_string (w_around w) e = None ->
  exists what w',
    aws_napi_dispatch_threadsafe_function (Some h) this_ptr (throwing e) argv w
    = (Fatal what, w') /\
    releases h (w_trace w') = releases h (w_trace w) /\
    w_tsfn w' = w_tsfn w.
Proof.
  destruct w as [mem navail havail alloc elg res boot pend tsfn tr around].
  world_fields. intros -> He Ht.
  unfold aws_napi_dispatch_threadsafe_function, AWS_NAPI_CALL, AWS_NAPI_ENSURE, throwing.
  destruct this_ptr as [recv|]; exec.
  all: match goal with
       | |- context [s_handle_failed_callback (Some ?f) ?st ?W] =>
           destruct (handler_aborts W f e st eq_refl He Ht) as (what & w' & -> & Hr & Htf)
       end.
  all: exists what, w'; split; [reflexivity|]; split;
         [rewrite Hr; trace_facts; reflexivity | exact Htf].
Qed.

(** C2 (the defect). The dispatch of a callable that throws a Symbol, on
    a handle that holds one reference and with nothing pending: the call
    fails with the exception pending, the failure handler asserts on the
    conversion of the Symbol to a string, and the process ends inside the
    handler.  The release that follows the handler in
    [aws_napi_dispatch_threadsafe_function] is not reached: the handle
    holds its reference as before, and no status is returned. *)
Theorem dispatch_aborts_before_release :
  let w := plain_world in
  let r := aws_napi_dispatch_threadsafe_function (Some 0%nat) None
             (throwing JsSymbol) [] w in
  fst r = Fatal "napi_coerce_to_string" /\
  releases 0 (w_trace (snd r)) = 0%nat /\
  w_tsfn (snd r) 0%nat = w_tsfn w 0%nat /\
  thread_count (w_tsfn w 0%nat) = 1%nat.
Proof. vm_compute. repeat split. Qed.

(** The result of an extraction, with the memory it takes. *)
Lemma string_new_outcome (v : js_value) (w : world) :
  text_or_unreadable v ->
  exists r w' l,
    aws_string_new_from_napi (Some v) w = (Ret r, w') /\
    w_pending w' = w_pending w /\ w_tsfn w' = w_tsfn w /\
    w_around w' = w_around w /\
    w_trace w' = w_trace w ++ l /\ Forall silent l /\
    w_native_avail w' = after_extraction (w_native_avail w) v /\
    match r with
    | Some str =>
        extractable (w_native_avail w) v = true /\
        arg_cstr (c_str (load (w_mem w') (Some (str_bytes str)) (str_len str + 1)))
        = text_arg v
    | None => extractable (w_native_avail w) v = false
    end.
Proof.
  intros Hv.
  destruct w as [m navail havail alloc elg res boot pend tsfn tr around].
  unfold aws_string_new_from_napi. unfold bind at 1. unfold get_world.
  world_fields. destruct (stack_byte_buf around) as [jl jb jc ja].
  unfold aws_byte_buf_init_from_napi, AWS_NAPI_CALL.
  destruct v; try discriminate Hv; exec;
    try (eexists _, _, []; split; [reflexivity|]; cbn; rewrite ?app_nil_r;
         repeat split; constructor).
  cbn in Hv.
  first_allocator.
  rewrite !size_t_small by (sizes; lia).
  destruct (Z.eqb_spec (Z.of_nat (length utf8) + 1) 0) as [|_]; [lia|].
  unfold extractable, after_extraction, buffer_size, string_size, text_arg,
    sizeof_aws_string.
  destruct (Z.leb_spec (Z.of_nat (length utf8) + 1) navail) as [H1|H1]; exec.
  - destruct (Z.eqb_spec (Z.of_nat (length utf8) + 1) 0) as [|_]; [lia|]. exec.
    erewrite get_allocator_cached by reflexivity. exec.
    replace (Z.to_nat (Z.of_nat (length utf8) + 1 - 1)) with (length utf8) by lia.
    rewrite take_ge by lia.
    destruct (Z.leb_spec (16 + 1 + Z.of_nat (length utf8))
                (navail - (Z.of_nat (length utf8) + 1))) as [H2|H2]; exec.
    + unfold store; cbn [blk off].
      rewrite !(write_new m _ (utf8 ++ [x00])) by (rewrite length_app; cbn [length]; lia).
      rewrite (load_new m _ utf8 [x00]) by reflexivity.
      rewrite write_new by (rewrite length_app; cbn [length]; lia).
      destruct Htr as [-> | [value ->]].
      * eexists _, _, [_]. split; [reflexivity|]. world_fields.
        do 3 (split; [reflexivity|]). split; [reflexivity|].
        split; [repeat constructor|].
        assert ((Z.of_nat (length utf8) + 1 + (16 + 1 + Z.of_nat (length utf8))
                 <=? navail) = true) as -> by lia.
        split; [reflexivity|]. split; [reflexivity|].
        cbn [str_bytes str_len]. rewrite load_kill.
        rewrite (load_whole _ _ (utf8 ++ [x00]));
          [by rewrite c_str_terminated | apply block_bytes_new
          | rewrite length_app; cbn [length]; lia].
      * eexists _, _, [_; _]. split; [reflexivity|]. world_fields.
        do 3 (split; [reflexivity|]).
        split; [by rewrite <- app_assoc|].
        split; [repeat constructor|].
        assert ((Z.of_nat (length utf8) + 1 + (16 + 1 + Z.of_nat (length utf8))
                 <=? navail) = true) as -> by lia.
        split; [reflexivity|]. split; [reflexivity|].
        cbn [str_bytes str_len]. rewrite load_kill.
        rewrite (load_whole _ _ (utf8 ++ [x00]));
          [by rewrite c_str_terminated | apply block_bytes_new
          | rewrite length_app; cbn [length]; lia].
    + destruct Htr as [-> | [value ->]].
      * eexists _, _, [_]. split; [reflexivity|]. world_fields.
        do 3 (split; [reflexivity|]). split; [reflexivity|].
        split; [repeat constructor|].
        split; [reflexivity|]. lia.
      * eexists _, _, [_; _]. split; [reflexivity|]. world_fields.
        do 3 (split; [reflexivity|]).
        split; [by rewrite <- app_assoc|].
        split; [repeat constructor|].
        split; [reflexivity|]. lia.
  - destruct Htr as [-> | [value ->]].
    + eexists _, _, []. split; [reflexivity|]. world_fields.
      do 3 (split; [reflexivity|]). split; [by rewrite app_nil_r|].
      split; [constructor|]. split; [reflexivity|]. lia.
    + eexists _, _, [_]. split; [reflexivity|]. world_fields.
      do 3 (split; [reflexivity|]). split; [reflexivity|].
      split; [repeat constructor|]. split; [reflexivity|]. lia.
Qed.

Ltac extract :=
  match goal with
  | |- context [aws_string_new_from_napi (Some ?v) ?w] =>
      let r := fresh "r" in
      let w1 := fresh "w" in
      let l := fresh "l" in
      let S := fresh "S" in
      let X := fresh "X" in
      let sa := fresh "sa" in
      let sn := fresh "sn" in
      let sp := fresh "sp" in
      let P := fresh "P" in
      destruct (string_new_outcome v w)
        as (r & w1 & l & -> & ? & ? & ? & ? & S & ? & X);
      [ first [assumption | cbn; assumption] |];
      destruct w1; world_fields; subst;
      destruct r as [[sa sn sp]|];
      [destruct X as [X P]; cbn [str_bytes str_len] in P|]; exec
  end.

Lemma handler_error_report (w : world) (f m s : js_value) (ftxt : list byte)
    (reason : napi_status) :
  w_pending w = Some (JsError m s) -> to_string (w_around w) f = Some ftxt ->
  Z.of_nat (length ftxt) <= SIZE_MAX / 2 ->
  text_or_unreadable m -> text_or_unreadable s ->
  exists w',
    s_handle_failed_callback (Some f) reason w = (Ret tt, w') /\
    w_pending w' = None /\
    logged (w_trace w')
    = logged (w_trace w)
      ++ calling_report (w_native_avail w) ftxt
      ++ error_report (after_extraction (w_native_avail w) (JsString ftxt)) m s.
Proof.
  destruct w as [mem navail havail alloc elg res boot pend tsfn tr around].
  world_fields. intros -> Hf Hbf Hm Hs.
  unfold s_handle_failed_callback, AWS_NAPI_ENSURE. exec. rewrite Hf. exec.
  extract; (extract; [extract|]).
  all: take_world; split; [reflexivity|].
  all: world_fields; unfold calling_report, error_report.
  all: repeat match goal with
              | X : extractable _ _ = _ |- _ => rewrite X; clear X
              end.
  all: repeat match goal with
              | P : arg_cstr _ = text_arg _ |- _ => rewrite P; clear P
              end.
  all: trace_facts; reflexivity.
Qed.

Lemma handler_thrown_report (w : world) (f e : js_value) (ftxt etxt : list byte)
    (reason : napi_status) :
  w_pending w = Some e -> is_error_value e = false ->
  to_string (w_around w) f = Some ftxt -> to_string (w_around w) e = Some etxt ->
  Z.of_nat (length ftxt) <= SIZE_MAX / 2 ->
  Z.of_nat (length etxt) <= SIZE_MAX / 2 ->
  exists w',
    s_handle_failed_callback (Some f) reason w = (Ret tt, w') /\
    w_pending w' = None /\
    logged (w_trace w')
    = logged (w_trace w)
      ++ calling_report (w_native_avail w) ftxt
      ++ thrown_report (after_extraction (w_native_avail w) (JsString ftxt)) etxt.
Proof.
  destruct w as [mem navail havail alloc elg res boot pend tsfn tr around].
  world_fields. intros -> He Hf Ht Hbf Hbe.
  unfold s_handle_failed_callback, AWS_NAPI_ENSURE.
  destruct e; try discriminate He; exec; rewrite Hf; exec.
  all: extract; rewrite Ht; exec; extract.
  all: take_world; split; [reflexivity|].
  all: world_fields; unfold calling_report, thrown_report.
  all: repeat match goal with
              | X : extractable _ _ = _ |- _ => rewrite X; clear X
              end.
  all: repeat match goal with
              | P : arg_cstr _ = text_arg _ |- _ => rewrite P; clear P
              end.
  all: trace_facts; reflexivity.
Qed.

Lemma extractable_iff (w : world) (v : js_value) :
  text_or_unreadable v ->
  extractable (w_native_avail w) v = true <->
  exists str w', aws_string_new_from_napi (Some v) w = (Ret (Some str), w').
Proof.
  intros Hv.
  destruct (string_new_outcome v w Hv) as (r & w' & l & E & _ & _ & _ & _ & _ & _ & X).
  rewrite E. destruct r as [str|].
  - destruct X as [X _]. split; [eauto | intros _; exact X].
  - split; [intros H; congruence | intros (str & w2 & [=])].
Qed.

(** C6 (as amended). Without a pending exception the handler logs the
    engine error code, the error code and the error message of the host's
    last error.  With a pending exception and a function that has a
    string form, the handler returns with the exception cleared, and its
    log lines are these and no others, in this order.  The function text
    is logged when it was extracted; when it was not, no line is written
    and the handler goes on.  For an Error whose message and stack are
    texts or values that cannot be extracted, the message is logged and
    after it the stack; the first of the two whose extraction fails is
    reported in its place and ends the report.  For any other thrown
    value that has a string form, that string is logged, or the failure
    to extract it.  An extraction succeeds exactly when
    [aws_string_new_from_napi] returns a string: the value is a text and
    there is native memory for its two copies. *)
Theorem failed_callback_log (w : world) (reason : napi_status) :
  (w_pending w = None ->
   forall function,
     s_handle_failed_callback function reason w
     = (Ret tt,
        set_trace (w_trace w ++ [extended_error_event (last_error_info (w_around w))])
          w)) /\
  (forall f ftxt m s,
     w_pending w = Some (JsError m s) ->
     to_string (w_around w) f = Some ftxt ->
     Z.of_nat (length ftxt) <= SIZE_MAX / 2 ->
     text_or_unreadable m -> text_or_unreadable s ->
     exists w',
       s_handle_failed_callback (Some f) reason w = (Ret tt, w') /\
       w_pending w' = None /\
       logged (w_trace w')
       = logged (w_trace w)
         ++ calling_report (w_native_avail w) ftxt
         ++ error_report (after_extraction (w_native_avail w) (JsString ftxt)) m s) /\
  (forall f ftxt e etxt,
     w_pending w = Some e -> is_error_value e = false ->
     to_string (w_around w) f = Some ftxt ->
     to_string (w_around w) e = Some etxt ->
     Z.of_nat (length ftxt) <= SIZE_MAX / 2 ->
     Z.of_nat (length etxt) <= SIZE_MAX / 2 ->
     exists w',
       s_handle_failed_callback (Some f) reason w = (Ret tt, w') /\
       w_pending w' = None /\
       logged (w_trace w')
       = logged (w_trace w)
         ++ calling_report (w_native_avail w) ftxt
         ++ thrown_report (after_extraction (w_native_avail w) (JsString ftxt)) etxt) /\
  (forall v,
     text_or_unreadable v ->
     extractable (w_native_avail w) v = true <->
     exists str w', aws_string_new_from_napi (Some v) w = (Ret (Some str), w')).
Proof.
  split; [|split; [|split]].
  - intros Hp function. by apply handler_reports_engine_error.
  - intros f ftxt m s. apply handler_error_report.
  - intros f ftxt e etxt. apply handler_thrown_report.
  - intros v. apply extractable_iff.
Qed.

Lemma failed_callback_log_witness :
  exists w',
    s_handle_failed_callback (Some (JsFunction CallReturns)) napi_pending_exception
      (set_pending (Some (JsError (JsString (list_byte_of_string "boom"))
                            (JsNumber 7))) plain_world)
    = (Ret tt, w') /\
    w_pending w' = None /\
    logged (w_trace w')
    = [("Calling %s"%string,
        [arg_cstr (list_byte_of_string "function () { [native code] }")]);
       ("Error: %s"%string, [arg_cstr (list_byte_of_string "boom")]);
       ("aws_string_new_from_napi(exception.stack) failed"%string, [])].
Proof.
  apply (proj1 (proj2 (failed_callback_log
           (set_pending (Some (JsError (JsString (list_byte_of_string "boom"))
                                 (JsNumber 7))) plain_world)
           napi_pending_exception))
           (JsFunction CallReturns)
           (list_byte_of_string "function () { [native code] }")
           (JsString (list_byte_of_string "boom")) (JsNumber 7));
    first [reflexivity | vm_compute; discriminate].
Defined.

Lemma failed_callback_log_counterexample :
  logged (w_trace (snd (s_handle_failed_callback (Some (JsFunction CallReturns))
     napi_pending_exception
     (set_native_avail 72
        (set_pending (Some (JsError (JsString (list_byte_of_string "m"))
                              (JsString (list_byte_of_string "s"))))
           plain_world)))))
  = [("Error: %s"%string, [arg_cstr (list_byte_of_string "m")]);
     ("Stack:\n%s"%string, [arg_cstr (list_byte_of_string "s")])] /\
  logged (w_trace (snd (s_handle_failed_callback (Some (JsFunction CallReturns))
     napi_pending_exception
     (set_pending (Some (JsString (list_byte_of_string "boom"))) plain_world))))
  = [("Calling %s"%string,
      [arg_cstr (list_byte_of_string "function () { [native code] }")]);
     ("Error: %s"%string, [arg_cstr (list_byte_of_string "boom")])].
Proof. vm_compute. split; reflexivity. Qed.

(** ** Round trip *)

Lemma length_load (m : list block) (p : option ptr) (n : Z) :
  length (load m p n) = Z.to_nat n.
Proof.
  destruct p; unfold load; [apply length_resize | apply length_replicate].
Qed.

Lemma load_app_l (m m' : list block) (p : ptr) (n : Z) :
  (blk p < length m)%nat -> load (m ++ m') (Some p) n = load m (Some p) n.
Proof. intros H. unfold load. by rewrite block_bytes_app_l. Qed.

Lemma create_dataview_copies (w : world) (p : ptr) (n : Z) :
  0 <= n <= SIZE_MAX / 2 -> n <= w_host_avail w ->
  (n <> 0 -> (blk p < length (w_mem w))%nat) ->
  exists w2,
    aws_napi_create_dataview_from_byte_cursor (mk_cursor n (Some p)) w
    = (Ret (napi_ok, Some (JsDataView (length (w_mem w)) 0 n)), w2) /\
    js_bytes (w_mem w2) (JsDataView (length (w_mem w)) 0 n)
    = load (w_mem w) (Some p) n.
Proof.
  intros Hn Hh Hp. destruct w, p as [b o]. world_fields. cbn [blk] in Hp.
  unfold aws_napi_create_dataview_from_byte_cursor, AWS_NAPI_CALL,
    napi_create_arraybuffer, aws_byte_buf_write_from_whole_cursor,
    napi_create_dataview.
  exec.
  assert ((n <=? w_host_avail0) = true) as -> by lia. exec.
  destruct (Z.eqb_spec n 0) as [-> | Hn0]; exec.
  - rewrite block_bytes_new. cbn [b_bytes length replicate Z.to_nat Z.of_nat].
    change (0 + 0 <=? 0) with true. exec.
    eexists. split; [reflexivity|].
    unfold js_bytes, load. cbn [w_mem blk off].
    change (Z.to_nat 0) with 0%nat. by rewrite resize_0.
  - assert ((0 >? SIZE_MAX / 2) = false) as -> by reflexivity.
    assert ((n >? SIZE_MAX / 2) = false) as -> by lia.
    assert ((0 + n >? n) = false) as -> by lia. exec.
    unfold store. cbn [blk off ptr_add].
    change (Z.to_nat (0 + 0)) with (Z.to_nat 0).
    rewrite load_app_l by (cbn [blk]; auto).
    rewrite write_new by (by rewrite length_load).
    rewrite block_bytes_new. cbn [b_bytes]. rewrite length_load.
    rewrite Z2Nat.id by lia.
    assert ((0 + n <=? n) = true) as -> by lia. exec.
    eexists. split; [reflexivity|].
    unfold js_bytes. cbn [w_mem]. rewrite block_bytes_new. cbn [b_bytes].
    change (Z.to_nat 0) with 0%nat. rewrite drop_0.
    apply take_ge. by rewrite length_load.
Qed.

Lemma element_size_handled (kind : Z) :
  0 <= kind <= 10 ->
  element_size kind = BYTES_PER_ELEMENT kind /\ 1 <= BYTES_PER_ELEMENT kind <= 8.
Proof.
  intros H.
  assert (kind = 0 \/ kind = 1 \/ kind = 2 \/ kind = 3 \/ kind = 4 \/ kind = 5 \/
          kind = 6 \/ kind = 7 \/ kind = 8 \/ kind = 9 \/ kind = 10) as Hk by lia.
  repeat (destruct Hk as [-> | Hk]; [cbn; lia |]). subst. cbn. lia.
Qed.

Lemma block_bytes_inside (m : list block) (b : nat) :
  block_bytes m b <> [] -> (b < length m)%nat.
Proof.
  intros H. destruct (decide (b < length m)%nat) as [|Hge]; [done|].
  exfalso. apply H. apply block_bytes_outside. lia.
Qed.

Lemma init_from_text (w : world) (buf : aws_byte_buf) (utf8 : list byte) :
  Z.of_nat (length utf8) <= SIZE_MAX / 2 ->
  Z.of_nat (length utf8) + 1 <= w_native_avail w ->
  exists a w1,
    aws_byte_buf_init_from_napi buf (Some (JsString utf8)) w
    = (Ret (napi_ok,
            mk_byte_buf (Z.of_nat (length utf8))
              (Some (mk_ptr (length (w_mem w)) 0))
              (Z.of_nat (length utf8) + 1) (Some a)), w1) /\
    w_mem w1 = w_mem w ++ [mk_block (native a) true (utf8 ++ [x00])] /\
    w_host_avail w1 = w_host_avail w.
Proof.
  intros Hb Hm. destruct w. world_fields.
  unfold aws_byte_buf_init_from_napi, AWS_NAPI_CALL. exec.
  first_allocator. clear Htr.
  rewrite !size_t_small by (sizes; lia).
  destruct (Z.eqb_spec (Z.of_nat (length utf8) + 1) 0) as [|_]; [lia|].
  assert ((Z.of_nat (length utf8) + 1 <=? w_native_avail0) = true) as -> by lia.
  exec.
  destruct (Z.eqb_spec (Z.of_nat (length utf8) + 1) 0) as [|_]; [lia|].
  exec.
  replace (Z.to_nat (Z.of_nat (length utf8) + 1 - 1)) with (length utf8) by lia.
  rewrite take_ge by lia.
  unfold store. cbn [blk off].
  rewrite write_new by (rewrite length_app; cbn [length]; lia).
  eexists _, _. split; [reflexivity|]. split; reflexivity.
Qed.

Lemma load_view (m : list block) (store : nat) (o n : Z) :
  0 <= o -> 0 <= n -> o + n <= Z.of_nat (length (block_bytes m store)) ->
  load m (Some (mk_ptr store o)) n
  = take (Z.to_nat n) (drop (Z.to_nat o) (block_bytes m store)).
Proof.
  intros Ho Hn Hle. unfold load. cbn [blk off].
  apply resize_le. rewrite length_drop. lia.
Qed.

Lemma length_view (bytes : list byte) (o n : Z) :
  0 <= o -> 0 <= n -> o + n <= Z.of_nat (length bytes) ->
  Z.of_nat (length (take (Z.to_nat n) (drop (Z.to_nat o) bytes))) = n.
Proof. intros Ho Hn Hle. rewrite length_take, length_drop. lia. Qed.

(** C1. A well-formed host value of an accepted kind (text string,
    ArrayBuffer, DataView, typed array of one of the eleven element
    kinds), converted by [aws_byte_buf_init_from_napi] and back by
    [aws_napi_create_dataview_from_byte_cursor], gives a DataView over
    exactly the bytes of the value, when memory is there for the copies.
    The buffer's length is the number of these bytes.  For a text the
    capacity is one more than the length and the buffer holds the text
    followed by one NUL; for the other kinds capacity and length agree
    and the conversion leaves the world as it was. *)
Theorem marshal_roundtrip (w : world) (buf : aws_byte_buf) (v : js_value) :
  handled_kind v = true -> well_formed (w_mem w) v -> memory_for w v ->
  exists nbuf w1 dv w2,
    aws_byte_buf_init_from_napi buf (Some v) w = (Ret (napi_ok, nbuf), w1) /\
    aws_napi_create_dataview_from_byte_cursor (aws_byte_cursor_from_buf nbuf) w1
    = (Ret (napi_ok, Some dv), w2) /\
    js_bytes (w_mem w2) dv = js_bytes (w_mem w) v /\
    len nbuf = Z.of_nat (length (js_bytes (w_mem w) v)) /\
    match v with
    | JsString utf8 =>
        capacity nbuf = len nbuf + 1 /\
        load (w_mem w1) (buffer nbuf) (capacity nbuf) = utf8 ++ [x00]
    | _ => capacity nbuf = len nbuf /\ w1 = w
    end.
Proof.
  intros Hk Hwf [Hhost Hnat].
  destruct v as [ | | ? | ? | utf8 | | ? | | ? | | ? ? | st | st o n | k st o n ];
    try discriminate Hk; cbn [js_bytes well_formed] in *.
  - (* text *)
    destruct (init_from_text w buf utf8 Hwf Hnat) as (a & w1 & E & Hm & Hh).
    destruct (create_dataview_copies w1 (mk_ptr (length (w_mem w)) 0)
                (Z.of_nat (length utf8))) as (w2 & E2 & Hb).
    { lia. }
    { lia. }
    { intros _. rewrite Hm, length_app. cbn. lia. }
    eexists _, w1, _, w2. split; [exact E|]. split; [exact E2|].
    cbn [len capacity buffer]. rewrite Hb, Hm.
    split; [by apply (load_new _ _ utf8 [x00])|].
    split; [reflexivity|]. split; [reflexivity|].
    apply load_whole; [apply block_bytes_new|].
    rewrite length_app. cbn [length]. lia.
  - (* ArrayBuffer *)
    destruct (create_dataview_copies w (mk_ptr st 0)
                (Z.of_nat (length (block_bytes (w_mem w) st))))
      as (w2 & E2 & Hb).
    { lia. }
    { lia. }
    { intros Hne. cbn [blk]. apply block_bytes_inside. intros Hnil.
      rewrite Hnil in Hne. cbn in Hne. lia. }
    exists (mk_byte_buf (Z.of_nat (length (block_bytes (w_mem w) st)))
              (Some (mk_ptr st 0))
              (Z.of_nat (length (block_bytes (w_mem w) st))) (allocator buf)).
    eexists w, _, w2.
    split; [unfold aws_byte_buf_init_from_napi; clear; destruct w; reflexivity|].
    split; [exact E2|]. cbn [len capacity].
    rewrite Hb. split; [by apply load_whole|]. auto.
  - (* DataView *)
    destruct Hwf as (Ho & Hn & Hle & Hmax).
    rewrite length_view in Hhost by assumption.
    destruct (create_dataview_copies w (mk_ptr st o) n)
      as (w2 & E2 & Hb).
    { lia. }
    { lia. }
    { intros Hne. cbn [blk]. apply block_bytes_inside. intros Hnil.
      rewrite Hnil in Hle. cbn in Hle. lia. }
    exists (mk_byte_buf n (Some (mk_ptr st o)) n (allocator buf)).
    eexists w, _, w2.
    split; [unfold aws_byte_buf_init_from_napi; clear; destruct w; reflexivity|].
    split; [exact E2|]. cbn [len capacity].
    rewrite Hb, length_view by assumption.
    split; [by apply load_view|]. auto.
  - (* typed array *)
    cbn in Hk. apply andb_true_iff in Hk as [Hk0 Hk10].
    destruct (element_size_handled k) as [Hes Hbpe]; [lia|].
    destruct Hwf as (Ho & Hn & Hle & Hmax).
    set (size := n * BYTES_PER_ELEMENT k) in *.
    assert (0 <= size) by (subst size; nia).
    rewrite length_view in Hhost by assumption.
    destruct (create_dataview_copies w (mk_ptr st o) size)
      as (w2 & E2 & Hb).
    { lia. }
    { lia. }
    { intros Hne. cbn [blk]. apply block_bytes_inside. intros Hnil.
      rewrite Hnil in Hle. cbn in Hle. lia. }
    exists (mk_byte_buf size (Some (mk_ptr st o)) size (allocator buf)).
    eexists w, _, w2.
    split.
    { transitivity
        (Ret (napi_ok,
              mk_byte_buf (size_t (n * element_size k)) (Some (mk_ptr st o))
                (size_t (n * element_size k)) (allocator buf)), w).
      - unfold aws_byte_buf_init_from_napi. clear. destruct w. reflexivity.
      - rewrite Hes. fold size. by rewrite size_t_small by (sizes; lia). }
    split; [exact E2|]. cbn [len capacity].
    rewrite Hb, length_view by assumption.
    split; [by apply load_view|]. auto.
Qed.

Lemma marshal_roundtrip_witness :
  exists nbuf w1 dv w2,
    aws_byte_buf_init_from_napi zero_byte_buf
      (Some (JsString (list_byte_of_string "hi"))) plain_world
    = (Ret (napi_ok, nbuf), w1) /\
    aws_napi_create_dataview_from_byte_cursor (aws_byte_cursor_from_buf nbuf) w1
    = (Ret (napi_ok, Some dv), w2) /\
    js_bytes (w_mem w2) dv = list_byte_of_string "hi" /\
    len nbuf = 2 /\
    capacity nbuf = len nbuf + 1 /\
    load (w_mem w1) (buffer nbuf) (capacity nbuf) = list_byte_of_string "hi" ++ [x00].
Proof.
  apply (marshal_roundtrip plain_world zero_byte_buf
           (JsString (list_byte_of_string "hi"))).
  - reflexivity.
  - vm_compute. discriminate.
  - split; vm_compute; discriminate.
Defined.

(** ** Ownership of the buffer *)

(** The borrowed paths leave the allocator member of the caller's
    structure as it was; the text path sets it. *)
Lemma init_owner_flag (w w1 : world) (buf nbuf : aws_byte_buf) (v : js_value) :
  aws_byte_buf_init_from_napi buf (Some v) w = (Ret (napi_ok, nbuf), w1) ->
  match v with
  | JsString _ => True
  | _ => allocator nbuf = allocator buf /\ w1 = w
  end.
Proof.
  destruct w. unfold aws_byte_buf_init_from_napi.
  destruct v; try exact (fun _ => I); exec; try discriminate.
  all: intros [= <- <-]; split; reflexivity.
Qed.

(** C9 (the defect). [aws_string_new_from_napi] on an ArrayBuffer, with a
    stack slot that holds a non-null allocator: the clean-up hands the
    host's own storage to [aws_mem_release]. *)
Theorem string_new_releases_borrowed_store :
  let w := sample_world EnvUnset (mk_byte_buf 0 None 0 (Some aws_default_allocator)) in
  let w' := snd (aws_string_new_from_napi (Some (JsArrayBuffer 0)) w) in
  (b_region <$> w_mem w !! 0%nat) = Some host_store /\
  released (w_trace w') = [(aws_default_allocator, mk_ptr 0 0)] /\
  (b_live <$> w_mem w' !! 0%nat) = Some false.
Proof. vm_compute. repeat split. Qed.

(** With a zeroed stack slot the clean-up releases the copy of a text
    and nothing for the borrowed kinds. *)
Lemma string_new_clean_stack :
  let w := plain_world in
  released (w_trace (snd (aws_string_new_from_napi (Some (JsArrayBuffer 0)) w))) = [] /\
  released (w_trace (snd (aws_string_new_from_napi
                            (Some (JsString (list_byte_of_string "hi"))) w)))
  = [(aws_default_allocator, mk_ptr 1 0)].
Proof. vm_compute. split; reflexivity. Qed.

Lemma released_app (l1 l2 : list event) : released (l1 ++ l2) = released l1 ++ released l2.
Proof. apply omap_app. Qed.

(** The same for every world and every borrowed kind: what the clean-up
    releases is decided by the allocator member the stack slot held. *)
Lemma string_new_borrowed_release (w : world) (v : js_value) :
  accepted_kind v = true -> (forall utf8, v <> JsString utf8) ->
  exists data,
    released (w_trace (snd (aws_string_new_from_napi (Some v) w)))
    = released (w_trace w)
      ++ match allocator (stack_byte_buf (w_around w)) with
         | Some a => [(a, data)]
         | None => []
         end.
Proof.
  intros Hk Hs. destruct w.
  unfold aws_string_new_from_napi. unfold bind at 1. unfold get_world.
  world_fields. destruct (stack_byte_buf w_around0) as [jl jb jc ja].
  unfold aws_byte_buf_init_from_napi, AWS_NAPI_CALL.
  destruct v; try discriminate Hk; try (by destruct (Hs utf8)); exec.
  all: first_allocator; split_if; destruct ja; exec.
  all: destruct Htr as [Htr | [? Htr]]; subst w_trace1.
  all: first [ eexists; rewrite ?released_app; cbn; rewrite ?app_nil_r; reflexivity
             | exists (mk_ptr 0 0); rewrite ?released_app; cbn;
               rewrite ?app_nil_r; reflexivity ].
Qed.

(** ** Further properties of module.c *)

(** Evaluation that also keeps the vocabulary of this part folded. *)
Ltac step :=
  lazy -[Z.add Z.sub Z.mul Z.opp Z.div Z.modulo Z.pow Z.leb Z.ltb Z.gtb Z.geb
         Z.eqb Z.of_nat Z.to_nat Z.of_N Z.le Z.lt Z.ge Z.gt Z.compare
         Nat.eqb app length take drop resize write_block kill_block
         quiet accepted_kind handled_kind well_formed memory_for js_bytes
         printed logged releases released same_globals calling_lines
         error_lines thrown_value_lines raised reportable
         receiver
         replicate alter lookup block_bytes load store splice c_str size_t
         SIZE_MAX atoi allocator_eqb element_size
         lib_new host_status to_string getenv_mem_tracing stack_byte_buf
         atoi_out_of_range released_allocator
         extractable after_extraction text_arg calling_report error_report
         thrown_report buffer_size string_size text_or_unreadable
         last_error_info
         aws_napi_get_allocator aws_string_new_from_napi
         aws_byte_buf_init_from_napi s_handle_failed_callback
         init_libraries register_exports
         live_native lib_calls failed_calls registers registered_prefix refused
         refusal_message set_up_calls no_context context_available
         bindings_available register_functions registered_functions only_trace
         tear_down_calls
         int64_of_size_t].

Ltac choose_allocator :=
  match goal with
  | |- context [aws_napi_get_allocator ?w] =>
      let a := fresh "a" in
      let w1 := fresh "w" in
      let Htr := fresh "Htr" in
      let G := fresh "G" in
      destruct (get_allocator_returns w)
        as (a & w1 & -> & ? & ? & ? & ? & ? & ? & G & ? & Htr);
      destruct w1; unfold same_globals in G; world_fields;
      destruct G as (? & ? & ?); subst; step
  end.

Lemma alter_new (f : block -> block) (m rest : list block) (bl : block) :
  alter f (length m) (m ++ bl :: rest) = m ++ f bl :: rest.
Proof.
  replace (length m) with (length m + 0)%nat by lia. by rewrite alter_app_r.
Qed.

Lemma alter_new_second (f : block -> block) (m rest : list block) (b1 b2 : block) :
  alter f (S (length m)) (m ++ b1 :: b2 :: rest) = m ++ b1 :: f b2 :: rest.
Proof.
  replace (S (length m)) with (length m + 1)%nat by lia. by rewrite alter_app_r.
Qed.

Lemma load_new_second (m : list block) (b1 b2 : block) (n : Z) :
  n = Z.of_nat (length (b_bytes b2)) ->
  load (m ++ [b1; b2]) (Some (mk_ptr (S (length m)) 0)) n = b_bytes b2.
Proof.
  intros ->. apply load_whole; [|reflexivity].
  unfold block_bytes.
  rewrite lookup_app_r by lia.
  by replace (S (length m) - length m)%nat with 1%nat by lia.
Qed.

Lemma live_native_app (m m' : list block) :
  live_native (m ++ m') = (live_native m + live_native m')%nat.
Proof. unfold live_native. by rewrite filter_app, length_app. Qed.

Lemma live_native_pair (a b : aws_allocator) (x y : list byte) (l1 l2 : bool) :
  live_native [mk_block (native a) l1 x; mk_block (native b) l2 y]
  = ((if l1 then 1 else 0) + (if l2 then 1 else 0))%nat.
Proof. by destruct l1, l2. Qed.

Lemma live_native_live (a : aws_allocator) (x : list byte) :
  live_native [mk_block (native a) true x] = 1%nat.
Proof. reflexivity. Qed.

Lemma live_native_dead (r : region) (x : list byte) :
  live_native [mk_block r false x] = 0%nat.
Proof. by destruct r. Qed.

(** The conversion of a text to a native string, step by step: the
    temporary buffer is allocated and released, the string stays. *)
Lemma string_new_text_exact (w : world) (utf8 : list byte) :
  Z.of_nat (length utf8) <= SIZE_MAX / 2 ->
  2 * Z.of_nat (length utf8) + 18 <= w_native_avail w ->
  exists a w' warn,
    aws_string_new_from_napi (Some (JsString utf8)) w
    = (Ret (Some (mk_string a (Z.of_nat (length utf8))
                    (mk_ptr (S (length (w_mem w))) 0))), w') /\
    w_mem w' = w_mem w ++ [mk_block (native a) false (utf8 ++ [x00]);
                           mk_block (native a) true (utf8 ++ [x00])] /\
    w_native_avail w' = w_native_avail w - (2 * Z.of_nat (length utf8) + 18) /\
    w_host_avail w' = w_host_avail w /\
    w_pending w' = w_pending w /\ w_tsfn w' = w_tsfn w /\
    w_around w' = w_around w /\ same_globals w w' /\
    s_allocator w' = Some a /\
    w_trace w' = w_trace w ++ warn ++ [ev_mem_release a (mk_ptr (length (w_mem w)) 0)] /\
    Forall silent warn /\ released warn = [].
Proof.
  intros Hb Hm.
  destruct w as [m navail havail alloc elg res boot pend tsfn tr around].
  world_fields.
  unfold aws_string_new_from_napi. unfold bind at 1. unfold get_world.
  world_fields. destruct (stack_byte_buf around) as [jl jb jc ja].
  unfold aws_byte_buf_init_from_napi, AWS_NAPI_CALL. step.
  choose_allocator.
  rewrite !size_t_small by (sizes; lia).
  destruct (Z.eqb_spec (Z.of_nat (length utf8) + 1) 0) as [|_]; [lia|].
  assert ((Z.of_nat (length utf8) + 1 <=? navail) = true) as -> by lia.
  step.
  destruct (Z.eqb_spec (Z.of_nat (length utf8) + 1) 0) as [|_]; [lia|].
  step.
  erewrite get_allocator_cached by reflexivity. step.
  replace (Z.to_nat (Z.of_nat (length utf8) + 1 - 1)) with (length utf8) by lia.
  rewrite take_ge by lia.
  assert ((16 + 1 + Z.of_nat (length utf8)
           <=? navail - (Z.of_nat (length utf8) + 1)) = true) as -> by lia.
  step.
  unfold store; cbn [blk off].
  rewrite !(write_new m _ (utf8 ++ [x00])) by (rewrite length_app; cbn [length]; lia).
  rewrite (load_new m _ utf8 [x00]) by reflexivity.
  rewrite write_new by (rewrite length_app; cbn [length]; lia).
  rewrite <- app_assoc. cbn [app].
  rewrite alter_new. unfold kill_block at 1. cbn [b_region b_bytes].
  rewrite length_app. cbn [length].
  replace (length m + 1)%nat with (S (length m)) by lia.
  destruct Htr as [-> | [value ->]].
  - eexists a, _, []. split; [reflexivity|]. cbn. unfold same_globals. cbn.
    repeat split; first [reflexivity | lia | constructor].
  - eexists a, _, [_]. split; [reflexivity|]. cbn. unfold same_globals. cbn.
    rewrite <- app_assoc.
    repeat split; first [reflexivity | lia | repeat constructor].
Qed.

Ltac convert_text :=
  match goal with
  | |- context [aws_string_new_from_napi (Some (JsString ?u)) ?w] =>
      let a := fresh "a" in
      let w1 := fresh "w" in
      let warn := fresh "warn" in
      let G := fresh "G" in
      let Hs := fresh "Hsilent" in
      let Hr := fresh "Hkept" in
      destruct (string_new_text_exact w u)
        as (a & w1 & warn & -> & ? & ? & ? & ? & ? & ? & G & ? & ? & Hs & Hr);
      [ assumption | cbn [w_native_avail]; lia | ];
      destruct w1; unfold same_globals in G; world_fields;
      destruct G as (? & ? & ?); subst; step
  end.

(** *** Marshaling *)

Lemma init_text_exact (w : world) (buf : aws_byte_buf) (utf8 : list byte) :
  Z.of_nat (length utf8) <= SIZE_MAX / 2 ->
  Z.of_nat (length utf8) + 1 <= w_native_avail w ->
  exists a w1 warn,
    aws_byte_buf_init_from_napi buf (Some (JsString utf8)) w
    = (Ret (napi_ok,
            mk_byte_buf (Z.of_nat (length utf8))
              (Some (mk_ptr (length (w_mem w)) 0))
              (Z.of_nat (length utf8) + 1) (Some a)), w1) /\
    w_mem w1 = w_mem w ++ [mk_block (native a) true (utf8 ++ [x00])] /\
    s_allocator w1 = Some a /\
    w_trace w1 = w_trace w ++ warn /\ Forall silent warn /\ released warn = [].
Proof.
  intros Hb Hm.
  destruct w as [m navail havail alloc elg res boot pend tsfn tr around].
  world_fields.
  unfold aws_byte_buf_init_from_napi, AWS_NAPI_CALL. step.
  choose_allocator.
  rewrite !size_t_small by (sizes; lia).
  destruct (Z.eqb_spec (Z.of_nat (length utf8) + 1) 0) as [|_]; [lia|].
  assert ((Z.of_nat (length utf8) + 1 <=? navail) = true) as -> by lia.
  step.
  destruct (Z.eqb_spec (Z.of_nat (length utf8) + 1) 0) as [|_]; [lia|].
  step.
  replace (Z.to_nat (Z.of_nat (length utf8) + 1 - 1)) with (length utf8) by lia.
  rewrite take_ge by lia.
  unfold store. cbn [blk off].
  rewrite write_new by (rewrite length_app; cbn [length]; lia).
  destruct Htr as [-> | [value ->]].
  - eexists a, _, []. split; [reflexivity|]. cbn. rewrite app_nil_r.
    repeat split; constructor.
  - eexists a, _, [_]. split; [reflexivity|]. cbn.
    repeat split; repeat constructor.
Qed.

(** X1. Initialising a buffer whose allocator member is null from a value
    of an accepted kind, and cleaning it up again, leaves as many native
    blocks allocated as there were.  For a text the clean-up releases
    exactly the copy that the initialisation allocated; for an
    ArrayBuffer, a DataView or a typed array neither step changes the
    world, and the buffer stays a borrowed view. *)
Theorem init_then_clean_up (w : world) (buf : aws_byte_buf) (v : js_value) :
  accepted_kind v = true -> allocator buf = None ->
  (forall utf8, v = JsString utf8 ->
     Z.of_nat (length utf8) <= SIZE_MAX / 2 /\
     Z.of_nat (length utf8) + 1 <= w_native_avail w) ->
  exists nbuf w1 w2,
    aws_byte_buf_init_from_napi buf (Some v) w = (Ret (napi_ok, nbuf), w1) /\
    aws_byte_buf_clean_up nbuf w1 = (Ret zero_byte_buf, w2) /\
    live_native (w_mem w2) = live_native (w_mem w) /\
    match v with
    | JsString utf8 =>
        exists a, allocator nbuf = Some a /\
          released (w_trace w2)
          = released (w_trace w) ++ [(a, mk_ptr (length (w_mem w)) 0)] /\
          w_mem w2 = w_mem w ++ [mk_block (native a) false (utf8 ++ [x00])]
    | _ => allocator nbuf = None /\ w1 = w /\ w2 = w
    end.
Proof.
  intros Hk Hnull Htext.
  destruct v as [ | | ? | ? | utf8 | | ? | | ? | | ? ? | st | st o n | k st o n ];
    try discriminate Hk.
  - destruct (Htext utf8 eq_refl) as [Hb Hm].
    destruct (init_text_exact w buf utf8 Hb Hm)
      as (a & w1 & warn & E & Hmem & _ & Htr & _ & R).
    rewrite E. clear E Htext.
    destruct w as [m navail havail alloc elg res boot pend tsfn tr around].
    destruct w1 as [m1 navail1 havail1 alloc1 elg1 res1 boot1 pend1 tsfn1 tr1 around1].
    world_fields. subst m1 tr1.
    eexists _, _, _. split; [reflexivity|]. split; [step; reflexivity|].
    world_fields. rewrite alter_new. unfold kill_block. cbn [b_region b_bytes b_live].
    split.
    { rewrite live_native_app, live_native_dead. lia. }
    exists a. split; [reflexivity|]. split; [|reflexivity].
    rewrite !released_app, R, app_nil_r. reflexivity.
  - destruct w as [m navail havail alloc elg res boot pend tsfn tr around].
    destruct buf as [bl bb bc ba]. cbn in Hnull. subst ba.
    eexists _, _, _. split; [reflexivity|]. split; [reflexivity|]. auto.
  - destruct w as [m navail havail alloc elg res boot pend tsfn tr around].
    destruct buf as [bl bb bc ba]. cbn in Hnull. subst ba.
    eexists _, _, _. split; [reflexivity|]. split; [reflexivity|]. auto.
  - destruct w as [m navail havail alloc elg res boot pend tsfn tr around].
    destruct buf as [bl bb bc ba]. cbn in Hnull. subst ba.
    eexists _, _, _. split; [reflexivity|]. split; [reflexivity|]. auto.
Qed.

Lemma init_then_clean_up_witness :
  exists nbuf w1 w2,
    aws_byte_buf_init_from_napi zero_byte_buf
      (Some (JsString (list_byte_of_string "hi"))) plain_world
    = (Ret (napi_ok, nbuf), w1) /\
    aws_byte_buf_clean_up nbuf w1 = (Ret zero_byte_buf, w2) /\
    live_native (w_mem w2) = live_native (w_mem plain_world) /\
    exists a, allocator nbuf = Some a /\
      released (w_trace w2)
      = released (w_trace plain_world) ++ [(a, mk_ptr (length (w_mem plain_world)) 0)] /\
      w_mem w2 = w_mem plain_world
                 ++ [mk_block (native a) false (list_byte_of_string "hi" ++ [x00])].
Proof.
  apply (init_then_clean_up plain_world zero_byte_buf
           (JsString (list_byte_of_string "hi"))).
  - reflexivity.
  - reflexivity.
  - intros utf8 [= <-]. vm_compute. split; discriminate.
Defined.

(** X2. For an ArrayBuffer, a DataView or a typed array of one of the
    eleven kinds, [aws_byte_buf_init_from_napi] copies nothing: the world
    is unchanged, the allocator member is left as it was, capacity and
    length agree, and the buffer is a window on the host's storage, so
    that whatever that storage holds later is what the buffer reads. *)
Theorem borrowed_view_aliases (w : world) (buf : aws_byte_buf) (v : js_value) :
  handled_kind v = true -> (forall utf8, v <> JsString utf8) ->
  well_formed (w_mem w) v ->
  exists nbuf,
    aws_byte_buf_init_from_napi buf (Some v) w = (Ret (napi_ok, nbuf), w) /\
    allocator nbuf = allocator buf /\ capacity nbuf = len nbuf /\
    forall m' : list block,
      (forall b, length (block_bytes m' b) = length (block_bytes (w_mem w) b)) ->
      load m' (buffer nbuf) (len nbuf) = js_bytes m' v.
Proof.
  intros Hk Hs Hwf.
  destruct v as [ | | ? | ? | utf8 | | ? | | ? | | ? ? | st | st o n | k st o n ];
    try discriminate Hk; [by destruct (Hs utf8) | | |];
    cbn [js_bytes well_formed] in *.
  - exists (mk_byte_buf (Z.of_nat (length (block_bytes (w_mem w) st)))
              (Some (mk_ptr st 0))
              (Z.of_nat (length (block_bytes (w_mem w) st))) (allocator buf)).
    split; [clear; destruct w; reflexivity|].
    cbn [allocator capacity len buffer]. split; [reflexivity|]. split; [reflexivity|].
    intros m' Hsame. apply load_whole; [reflexivity|]. by rewrite Hsame.
  - destruct Hwf as (Ho & Hn & Hle & Hmax).
    exists (mk_byte_buf n (Some (mk_ptr st o)) n (allocator buf)).
    split; [clear; destruct w; reflexivity|].
    cbn [allocator capacity len buffer]. split; [reflexivity|]. split; [reflexivity|].
    intros m' Hsame. apply load_view; [assumption..|]. by rewrite Hsame.
  - cbn in Hk. apply andb_true_iff in Hk as [Hk0 Hk10].
    destruct (element_size_handled k) as [Hes Hbpe]; [lia|].
    destruct Hwf as (Ho & Hn & Hle & Hmax).
    set (size := n * BYTES_PER_ELEMENT k) in *.
    assert (0 <= size) by (subst size; nia).
    exists (mk_byte_buf size (Some (mk_ptr st o)) size (allocator buf)).
    split.
    { transitivity
        (Ret (napi_ok,
              mk_byte_buf (size_t (n * element_size k)) (Some (mk_ptr st o))
                (size_t (n * element_size k)) (allocator buf)), w).
      - clear. destruct w. reflexivity.
      - rewrite Hes. fold size. by rewrite size_t_small by (sizes; lia). }
    cbn [allocator capacity len buffer]. split; [reflexivity|]. split; [reflexivity|].
    intros m' Hsame. apply load_view; [assumption..|]. by rewrite Hsame.
Qed.

Lemma borrowed_view_aliases_witness :
  exists nbuf,
    aws_byte_buf_init_from_napi zero_byte_buf (Some (JsDataView 0 1 2)) plain_world
    = (Ret (napi_ok, nbuf), plain_world) /\
    allocator nbuf = allocator zero_byte_buf /\ capacity nbuf = len nbuf /\
    forall m' : list block,
      (forall b, length (block_bytes m' b) = length (block_bytes (w_mem plain_world) b)) ->
      load m' (buffer nbuf) (len nbuf) = js_bytes m' (JsDataView 0 1 2).
Proof.
  apply (borrowed_view_aliases plain_world zero_byte_buf (JsDataView 0 1 2)).
  - reflexivity.
  - discriminate.
  - vm_compute. repeat split; discriminate.
Defined.

(** X3. When the allocator cannot serve the length of a text plus one
    byte, [aws_byte_buf_init_from_napi] returns [napi_generic_failure]
    with a zeroed buffer and [aws_string_new_from_napi] returns NULL;
    neither changes memory nor releases anything. *)
Theorem text_needs_memory (w : world) (buf : aws_byte_buf) (utf8 : list byte) :
  Z.of_nat (length utf8) <= SIZE_MAX / 2 ->
  w_native_avail w < Z.of_nat (length utf8) + 1 ->
  exists w1 w2,
    aws_byte_buf_init_from_napi buf (Some (JsString utf8)) w
    = (Ret (napi_generic_failure, zero_byte_buf), w1) /\
    aws_string_new_from_napi (Some (JsString utf8)) w = (Ret None, w2) /\
    w_mem w1 = w_mem w /\ w_mem w2 = w_mem w /\
    released (w_trace w1) = released (w_trace w) /\
    released (w_trace w2) = released (w_trace w).
Proof.
  intros Hb Hm.
  destruct w as [m navail havail alloc elg res boot pend tsfn tr around].
  world_fields.
  unfold aws_string_new_from_napi. unfold bind at 1. unfold get_world.
  world_fields. destruct (stack_byte_buf around) as [jl jb jc ja].
  unfold aws_byte_buf_init_from_napi, AWS_NAPI_CALL. exec.
  first_allocator.
  all: rewrite !size_t_small by (sizes; lia).
  all: destruct (Z.eqb_spec (Z.of_nat (length utf8) + 1) 0) as [|_]; [lia|].
  all: assert ((Z.of_nat (length utf8) + 1 <=? navail) = false) as -> by lia.
  all: exec.
  all: destruct Htr as [-> | [? ->]].
  all: eexists _, _; split; [reflexivity|]; split; [reflexivity|].
  all: cbn; rewrite ?released_app; cbn; rewrite ?app_nil_r; auto.
Qed.

Lemma text_needs_memory_witness :
  exists w1 w2,
    aws_byte_buf_init_from_napi zero_byte_buf
      (Some (JsString (list_byte_of_string "hello"))) (set_native_avail 5 plain_world)
    = (Ret (napi_generic_failure, zero_byte_buf), w1) /\
    aws_string_new_from_napi (Some (JsString (list_byte_of_string "hello")))
      (set_native_avail 5 plain_world) = (Ret None, w2) /\
    w_mem w1 = w_mem (set_native_avail 5 plain_world) /\
    w_mem w2 = w_mem (set_native_avail 5 plain_world) /\
    released (w_trace w1) = released (w_trace (set_native_avail 5 plain_world)) /\
    released (w_trace w2) = released (w_trace (set_native_avail 5 plain_world)).
Proof.
  apply (text_needs_memory (set_native_avail 5 plain_world) zero_byte_buf
           (list_byte_of_string "hello")).
  - vm_compute. discriminate.
  - vm_compute. reflexivity.
Defined.

(** X4. For a text, [aws_string_new_from_napi] returns a string of the
    text's length that holds the text followed by one NUL and belongs to
    the process allocator.  The temporary buffer is released, one more
    native block is live than before, and the memory that was there is
    untouched. *)
Theorem string_new_of_text (w : world) (utf8 : list byte) :
  Z.of_nat (length utf8) <= SIZE_MAX / 2 ->
  2 * Z.of_nat (length utf8) + 18 <= w_native_avail w ->
  exists str w',
    aws_string_new_from_napi (Some (JsString utf8)) w = (Ret (Some str), w') /\
    str_len str = Z.of_nat (length utf8) /\
    load (w_mem w') (Some (str_bytes str)) (str_len str + 1) = utf8 ++ [x00] /\
    s_allocator w' = Some (str_allocator str) /\
    released (w_trace w')
    = released (w_trace w) ++ [(str_allocator str, mk_ptr (length (w_mem w)) 0)] /\
    live_native (w_mem w') = S (live_native (w_mem w)) /\
    (forall b, (b < length (w_mem w))%nat -> w_mem w' !! b = w_mem w !! b).
Proof.
  intros Hb Hm.
  destruct (string_new_text_exact w utf8 Hb Hm)
    as (a & w' & warn & E & Hmem & _ & _ & _ & _ & _ & _ & Ha & Htr & _ & R).
  eexists _, w'. split; [exact E|]. cbn [str_len str_bytes str_allocator].
  split; [reflexivity|]. rewrite Hmem, Htr.
  split; [apply load_new_second; cbn [b_bytes]; rewrite length_app; cbn [length]; lia|].
  split; [exact Ha|].
  split; [rewrite !released_app, R; reflexivity|].
  split; [rewrite live_native_app, live_native_pair; lia|].
  intros b Hlt. by rewrite lookup_app_l.
Qed.

Lemma string_new_of_text_witness :
  exists str w',
    aws_string_new_from_napi (Some (JsString (list_byte_of_string "hi"))) plain_world
    = (Ret (Some str), w') /\
    str_len str = 2 /\
    load (w_mem w') (Some (str_bytes str)) (str_len str + 1)
    = list_byte_of_string "hi" ++ [x00] /\
    s_allocator w' = Some (str_allocator str) /\
    released (w_trace w') = [(str_allocator str, mk_ptr 1 0)] /\
    live_native (w_mem w') = 1%nat /\
    (forall b, (b < 1)%nat -> w_mem w' !! b = w_mem plain_world !! b).
Proof.
  apply (string_new_of_text plain_world (list_byte_of_string "hi"));
    vm_compute; discriminate.
Defined.

(** X5. For an ArrayBuffer, a DataView or a typed array of one of the
    eleven kinds, and a stack slot whose allocator member is null,
    [aws_string_new_from_napi] returns a string that holds a copy of the
    value's bytes followed by one NUL.  Nothing is released, one more
    native block is live, and the memory that was there (the host's
    storage included) is untouched. *)
Theorem string_new_of_bytes (w : world) (v : js_value) :
  handled_kind v = true -> (forall utf8, v <> JsString utf8) ->
  well_formed (w_mem w) v ->
  allocator (stack_byte_buf (w_around w)) = None ->
  Z.of_nat (length (js_bytes (w_mem w) v)) + 17 <= w_native_avail w ->
  exists str w',
    aws_string_new_from_napi (Some v) w = (Ret (Some str), w') /\
    str_len str = Z.of_nat (length (js_bytes (w_mem w) v)) /\
    load (w_mem w') (Some (str_bytes str)) (str_len str + 1)
    = js_bytes (w_mem w) v ++ [x00] /\
    released (w_trace w') = released (w_trace w) /\
    live_native (w_mem w') = S (live_native (w_mem w)) /\
    (forall b, (b < length (w_mem w))%nat -> w_mem w' !! b = w_mem w !! b).
Proof.
  intros Hk Hs Hwf Hstack Hmem.
  assert (forall (p : ptr) (n : Z),
    0 <= n -> n + 17 <= w_native_avail w ->
    (aws_byte_buf_init_from_napi (stack_byte_buf (w_around w)) (Some v) w
     = (Ret (napi_ok, mk_byte_buf n (Some p) n None), w)) ->
    exists str w',
      aws_string_new_from_napi (Some v) w = (Ret (Some str), w') /\
      str_len str = n /\
      load (w_mem w') (Some (str_bytes str)) (str_len str + 1)
      = load (w_mem w) (Some p) n ++ [x00] /\
      released (w_trace w') = released (w_trace w) /\
      live_native (w_mem w') = S (live_native (w_mem w)) /\
      (forall b, (b < length (w_mem w))%nat -> w_mem w' !! b = w_mem w !! b)) as Hcopy.
  { intros p n Hn Hav Hinit. clear Hk Hs Hwf Hmem Hstack.
    unfold aws_string_new_from_napi. unfold bind at 1. unfold get_world.
    unfold bind at 1. rewrite Hinit. clear Hinit.
    destruct w as [m navail havail alloc elg res boot pend tsfn tr around].
    world_fields. step. choose_allocator.
    assert ((16 + 1 + n <=? navail) = true) as -> by lia. step.
    unfold store. cbn [blk off].
    rewrite write_new by (rewrite length_app, length_load; cbn [length]; lia).
    eexists _, _. split; [reflexivity|]. cbn [str_len str_bytes]. world_fields.
    split; [reflexivity|].
    split; [apply load_whole; [apply block_bytes_new|];
            rewrite length_app, length_load; cbn [length]; lia|].
    split.
    { destruct Htr as [-> | [value ->]]; rewrite ?released_app; cbn;
        by rewrite ?app_nil_r. }
    split.
    { rewrite live_native_app, live_native_live. lia. }
    intros b Hb. apply lookup_app_l. exact Hb. }
  destruct v as [ | | ? | ? | utf8 | | ? | | ? | | ? ? | st | st o n | k st o n ];
    try discriminate Hk; [by destruct (Hs utf8) | | |];
    cbn [js_bytes well_formed] in *.
  - (* ArrayBuffer *)
    destruct (Hcopy (mk_ptr st 0) (Z.of_nat (length (block_bytes (w_mem w) st))))
      as (str & w' & E & Hl & Hb & R); [lia | lia | |].
    { clear Hcopy. destruct w as [m navail havail alloc elg res boot pend tsfn tr around].
      world_fields. destruct (stack_byte_buf around) as [jl jb jc ja].
      cbn in Hstack. subst ja. reflexivity. }
    exists str, w'. split; [exact E|]. split; [exact Hl|].
    rewrite Hb. rewrite (load_whole _ _ (block_bytes (w_mem w) st)) by reflexivity.
    auto.
  - (* DataView *)
    destruct Hwf as (Ho & Hn & Hle & Hmax).
    rewrite length_view in Hmem |- * by assumption.
    destruct (Hcopy (mk_ptr st o) n)
      as (str & w' & E & Hl & Hb & R); [lia | lia | |].
    { clear Hcopy. destruct w as [m navail havail alloc elg res boot pend tsfn tr around].
      world_fields. destruct (stack_byte_buf around) as [jl jb jc ja].
      cbn in Hstack. subst ja. reflexivity. }
    exists str, w'. split; [exact E|]. split; [exact Hl|].
    rewrite Hb, load_view by assumption. auto.
  - (* typed array *)
    cbn in Hk. apply andb_true_iff in Hk as [Hk0 Hk10].
    destruct (element_size_handled k) as [Hes Hbpe]; [lia|].
    destruct Hwf as (Ho & Hn & Hle & Hmax).
    set (size := n * BYTES_PER_ELEMENT k) in *.
    assert (0 <= size) by (subst size; nia).
    rewrite length_view in Hmem |- * by assumption.
    destruct (Hcopy (mk_ptr st o) size)
      as (str & w' & E & Hl & Hb & R); [lia | lia | |].
    { clear Hcopy.
      transitivity
        (Ret (napi_ok,
              mk_byte_buf (size_t (n * element_size k)) (Some (mk_ptr st o))
                (size_t (n * element_size k)) None), w).
      - destruct w as [m navail havail alloc elg res boot pend tsfn tr around].
        world_fields. destruct (stack_byte_buf around) as [jl jb jc ja].
        cbn in Hstack. subst ja. reflexivity.
      - rewrite Hes. fold size. by rewrite size_t_small by (sizes; lia). }
    exists str, w'. split; [exact E|]. split; [exact Hl|].
    rewrite Hb, load_view by assumption. auto.
Qed.

Lemma string_new_of_bytes_witness :
  exists str w',
    aws_string_new_from_napi (Some (JsDataView 0 1 2)) plain_world
    = (Ret (Some str), w') /\
    str_len str = 2 /\
    load (w_mem w') (Some (str_bytes str)) (str_len str + 1) = [x02; x03; x00] /\
    released (w_trace w') = [] /\
    live_native (w_mem w') = 1%nat /\
    (forall b, (b < 1)%nat -> w_mem w' !! b = w_mem plain_world !! b).
Proof.
  apply (string_new_of_bytes plain_world (JsDataView 0 1 2)).
  - reflexivity.
  - discriminate.
  - vm_compute. repeat split; discriminate.
  - reflexivity.
  - vm_compute. discriminate.
Defined.

(** X6. [aws_string_new_from_napi] returns NULL for a value of a kind
    that is not accepted, leaving the world as it was, and for a null
    handle, where the failed [napi_typeof] is reported and nothing else
    happens. *)
Theorem string_new_rejects (w : world) (v : js_value) :
  accepted_kind v = false ->
  aws_string_new_from_napi (Some v) w = (Ret None, w) /\
  aws_string_new_from_napi None w
  = (Ret None,
     set_trace (w_trace w ++ [ev_napi_call_failed "napi_typeof" napi_invalid_arg]) w).
Proof.
  intros H. destruct w. split; [|reflexivity].
  destruct v; try discriminate H; reflexivity.
Qed.

Lemma string_new_rejects_witness :
  aws_string_new_from_napi (Some (JsNumber 7)) plain_world = (Ret None, plain_world) /\
  aws_string_new_from_napi None plain_world
  = (Ret None,
     set_trace (w_trace plain_world
                ++ [ev_napi_call_failed "napi_typeof" napi_invalid_arg]) plain_world).
Proof. apply (string_new_rejects plain_world (JsNumber 7)). reflexivity. Defined.

(** The world after a conversion to a DataView. *)
Lemma create_dataview_result (w : world) (p : ptr) (n : Z) :
  0 <= n <= SIZE_MAX / 2 -> n <= w_host_avail w ->
  (n <> 0 -> (blk p < length (w_mem w))%nat) ->
  aws_napi_create_dataview_from_byte_cursor (mk_cursor n (Some p)) w
  = (Ret (napi_ok, Some (JsDataView (length (w_mem w)) 0 n)),
     set_host_avail (w_host_avail w - n)
       (set_mem (w_mem w ++ [mk_block host_store true (load (w_mem w) (Some p) n)]) w)).
Proof.
  intros Hn Hh Hp.
  destruct w as [m navail havail alloc elg res boot pend tsfn tr around].
  destruct p as [b o]. world_fields. cbn [blk] in Hp.
  unfold aws_napi_create_dataview_from_byte_cursor, AWS_NAPI_CALL,
    napi_create_arraybuffer, aws_byte_buf_write_from_whole_cursor,
    napi_create_dataview.
  exec.
  assert ((n <=? havail) = true) as -> by lia. exec.
  destruct (Z.eqb_spec n 0) as [-> | Hn0]; exec.
  - rewrite block_bytes_new. cbn [b_bytes length replicate Z.to_nat Z.of_nat].
    change (0 + 0 <=? 0) with true. exec.
    unfold load. cbn [blk off]. change (Z.to_nat 0) with 0%nat.
    by rewrite resize_0.
  - assert ((0 >? SIZE_MAX / 2) = false) as -> by reflexivity.
    assert ((n >? SIZE_MAX / 2) = false) as -> by lia.
    assert ((0 + n >? n) = false) as -> by lia. exec.
    unfold store. cbn [blk off ptr_add].
    change (Z.to_nat (0 + 0)) with (Z.to_nat 0).
    rewrite load_app_l by (cbn [blk]; auto).
    rewrite write_new by (by rewrite length_load).
    rewrite block_bytes_new. cbn [b_bytes]. rewrite length_load.
    rewrite Z2Nat.id by lia.
    assert ((0 + n <=? n) = true) as -> by lia. exec.
    reflexivity.
Qed.

(** X7. The DataView that [aws_napi_create_dataview_from_byte_cursor]
    returns lives in one fresh host block holding the cursor's bytes.
    The memory that was there is unchanged, and neither a later write to
    it nor its release changes the bytes of the view. *)
Theorem dataview_is_a_copy (w : world) (p : ptr) (n : Z) :
  0 <= n <= SIZE_MAX / 2 -> n <= w_host_avail w ->
  (n <> 0 -> (blk p < length (w_mem w))%nat) ->
  exists dv w2,
    aws_napi_create_dataview_from_byte_cursor (mk_cursor n (Some p)) w
    = (Ret (napi_ok, Some dv), w2) /\
    w_mem w2 = w_mem w ++ [mk_block host_store true (load (w_mem w) (Some p) n)] /\
    (forall (q : ptr) (bs : list byte),
       (blk q < length (w_mem w))%nat ->
       js_bytes (store (Some q) bs (w_mem w2)) dv = js_bytes (w_mem w2) dv) /\
    (forall (a : aws_allocator) (q : ptr),
       (blk q < length (w_mem w))%nat ->
       js_bytes (w_mem (snd (aws_mem_release a q w2))) dv = js_bytes (w_mem w2) dv).
Proof.
  intros Hn Hh Hp. rewrite create_dataview_result by assumption.
  eexists _, _. split; [reflexivity|].
  destruct w as [m navail havail alloc elg res boot pend tsfn tr around].
  world_fields. split; [reflexivity|]. split.
  - intros q bs Hq. unfold js_bytes, store, block_bytes.
    rewrite list_lookup_alter_ne by lia. reflexivity.
  - intros a q Hq. cbn. unfold block_bytes.
    rewrite list_lookup_alter_ne by lia. reflexivity.
Qed.

Lemma dataview_is_a_copy_witness :
  exists dv w2,
    aws_napi_create_dataview_from_byte_cursor (mk_cursor 2 (Some (mk_ptr 0 1))) plain_world
    = (Ret (napi_ok, Some dv), w2) /\
    w_mem w2 = w_mem plain_world
               ++ [mk_block host_store true
                     (load (w_mem plain_world) (Some (mk_ptr 0 1)) 2)] /\
    (forall (q : ptr) (bs : list byte),
       (blk q < length (w_mem plain_world))%nat ->
       js_bytes (store (Some q) bs (w_mem w2)) dv = js_bytes (w_mem w2) dv) /\
    (forall (a : aws_allocator) (q : ptr),
       (blk q < length (w_mem plain_world))%nat ->
       js_bytes (w_mem (snd (aws_mem_release a q w2))) dv = js_bytes (w_mem w2) dv).
Proof.
  apply (dataview_is_a_copy plain_world (mk_ptr 0 1) 2).
  - vm_compute. split; discriminate.
  - vm_compute. discriminate.
  - intros _. cbn. lia.
Defined.

(** X8. An empty cursor, whatever its pointer (the null pointer
    included), gives an empty DataView over a fresh empty host buffer. *)
Theorem dataview_of_nothing (w : world) (p : option ptr) :
  0 <= w_host_avail w ->
  exists w2,
    aws_napi_create_dataview_from_byte_cursor (mk_cursor 0 p) w
    = (Ret (napi_ok, Some (JsDataView (length (w_mem w)) 0 0)), w2) /\
    w_mem w2 = w_mem w ++ [mk_block host_store true []] /\
    js_bytes (w_mem w2) (JsDataView (length (w_mem w)) 0 0) = [].
Proof.
  intros Hh.
  destruct w as [m navail havail alloc elg res boot pend tsfn tr around].
  world_fields.
  unfold aws_napi_create_dataview_from_byte_cursor, AWS_NAPI_CALL,
    napi_create_arraybuffer, aws_byte_buf_write_from_whole_cursor,
    napi_create_dataview.
  exec.
  assert ((0 <=? havail) = true) as -> by lia. exec.
  change (0 =? 0) with true. exec.
  rewrite block_bytes_new. cbn [b_bytes length replicate Z.to_nat Z.of_nat].
  change (0 + 0 <=? 0) with true. exec.
  eexists. split; [reflexivity|]. split; [reflexivity|].
  unfold js_bytes. by rewrite take_0.
Qed.

Lemma dataview_of_nothing_witness :
  exists w2,
    aws_napi_create_dataview_from_byte_cursor (mk_cursor 0 None) plain_world
    = (Ret (napi_ok, Some (JsDataView (length (w_mem plain_world)) 0 0)), w2) /\
    w_mem w2 = w_mem plain_world ++ [mk_block host_store true []] /\
    js_bytes (w_mem w2) (JsDataView (length (w_mem plain_world)) 0 0) = [].
Proof. apply (dataview_of_nothing plain_world None). vm_compute. discriminate. Defined.

(** X9. When the host cannot allocate the ArrayBuffer,
    [aws_napi_create_dataview_from_byte_cursor] passes the host's status
    on, produces no view, reports the failed call and changes nothing
    else. *)
Theorem dataview_needs_host_memory (w : world) (cur : aws_byte_cursor) :
  w_host_avail w < cur_len cur ->
  aws_napi_create_dataview_from_byte_cursor cur w
  = (Ret (napi_generic_failure, None),
     set_trace (w_trace w
                ++ [ev_napi_call_failed "napi_create_arraybuffer" napi_generic_failure])
       w).
Proof.
  intros Hh.
  destruct w as [m navail havail alloc elg res boot pend tsfn tr around].
  destruct cur as [n p]. world_fields. cbn [cur_len] in Hh.
  unfold aws_napi_create_dataview_from_byte_cursor, AWS_NAPI_CALL,
    napi_create_arraybuffer.
  exec. assert ((n <=? havail) = false) as -> by lia. exec. reflexivity.
Qed.

Lemma dataview_needs_host_memory_witness :
  aws_napi_create_dataview_from_byte_cursor (mk_cursor 4 (Some (mk_ptr 0 0)))
    (set_host_avail 3 plain_world)
  = (Ret (napi_generic_failure, None),
     set_trace (w_trace (set_host_avail 3 plain_world)
                ++ [ev_napi_call_failed "napi_create_arraybuffer" napi_generic_failure])
       (set_host_avail 3 plain_world)).
Proof.
  apply (dataview_needs_host_memory (set_host_avail 3 plain_world)
           (mk_cursor 4 (Some (mk_ptr 0 0)))).
  vm_compute. reflexivity.
Defined.

(** X10. [aws_napi_is_null_or_undefined] answers true for the null handle
    (where [napi_typeof] fails), for null and for undefined, false for
    every other value, and in no case changes the world or reports
    anything. *)
Theorem null_or_undefined_cases (value : napi_value) (w : world) :
  aws_napi_is_null_or_undefined value w
  = (Ret match value with
         | None | Some JsNull | Some JsUndefined => true
         | Some _ => false
         end, w).
Proof. destruct value as [[]|]; reflexivity. Qed.

(** *** Diagnostic texts *)

(** X11. Two statuses have the same text exactly when they are the same
    status, or both are among [napi_string_expected] and
    [napi_name_expected] (the switch gives the former the text of the
    latter), or both lie outside the cases of the switch. *)
Theorem status_text_identifies (s s' : napi_status) :
  aws_napi_status_to_str s = aws_napi_status_to_str s' <->
  s = s' \/
  (In s [napi_string_expected; napi_name_expected] /\
   In s' [napi_string_expected; napi_name_expected]) \/
  (exists code code', s = napi_status_future code /\ s' = napi_status_future code').
Proof.
  split.
  - destruct s, s'; cbn; intros H; try discriminate H;
      first [ by left
            | right; left; cbn; tauto
            | right; right; eauto ].
  - intros [-> | [[H H'] | (c & c' & -> & ->)]]; [reflexivity | | reflexivity].
    cbn in H, H'.
    destruct H as [<- | [<- | []]], H' as [<- | [<- | []]]; reflexivity.
Qed.

(** *** Failure handler and dispatch *)

(** X12. With a pending Error whose message and stack are texts, a
    function that has a string form, and memory for the copies, the
    failure handler clears the exception and logs three lines: the
    function text, the message and the stack, each up to its first NUL.
    It destroys the strings of the message and of the stack but not the
    string of the function text: one more native block is live than
    before. *)
Theorem handler_keeps_function_text (w : world) (f : js_value)
    (ftxt mt st : list byte) (reason : napi_status) :
  w_pending w = Some (JsError (JsString mt) (JsString st)) ->
  to_string (w_around w) f = Some ftxt ->
  Z.of_nat (length ftxt) <= SIZE_MAX / 2 ->
  Z.of_nat (length mt) <= SIZE_MAX / 2 ->
  Z.of_nat (length st) <= SIZE_MAX / 2 ->
  2 * (Z.of_nat (length ftxt) + Z.of_nat (length mt) + Z.of_nat (length st)) + 54
    <= w_native_avail w ->
  exists w',
    s_handle_failed_callback (Some f) reason w = (Ret tt, w') /\
    w_pending w' = None /\
    logged (w_trace w')
    = logged (w_trace w)
      ++ [("Calling %s"%string, [arg_cstr (c_str ftxt)]);
          ("Error: %s"%string, [arg_cstr (c_str mt)]);
          ("Stack:\n%s"%string, [arg_cstr (c_str st)])] /\
    live_native (w_mem w') = S (live_native (w_mem w)).
Proof.
  destruct w as [m navail havail alloc elg res boot pend tsfn tr around].
  world_fields. intros -> Hf Hbf Hbm Hbs Hmem.
  unfold s_handle_failed_callback, AWS_NAPI_ENSURE. step. rewrite Hf. step.
  convert_text. convert_text. convert_text.
  take_world. split; [reflexivity|]. split.
  - world_fields. rewrite !logged_app.
    rewrite (logged_silent warn Hsilent), (logged_silent warn0 Hsilent0),
      (logged_silent warn1 Hsilent1).
    rewrite !load_new_second by (cbn [b_bytes]; rewrite length_app; cbn [length]; lia).
    cbn [b_bytes]. rewrite !c_str_terminated.
    cbn [logged omap list_omap app]. rewrite <- !app_assoc. reflexivity.
  - world_fields. rewrite !alter_new_second.
    unfold kill_block. cbn [b_region b_bytes b_live].
    rewrite !live_native_app, !live_native_pair. lia.
Qed.

Lemma handler_keeps_function_text_witness :
  exists w',
    s_handle_failed_callback (Some (JsFunction CallReturns)) napi_pending_exception
      (set_pending (Some (JsError (JsString (list_byte_of_string "boom"))
                            (JsString (list_byte_of_string "at f")))) plain_world)
    = (Ret tt, w') /\
    w_pending w' = None /\
    logged (w_trace w')
    = [("Calling %s"%string,
        [arg_cstr (c_str (list_byte_of_string "function () { [native code] }"))]);
       ("Error: %s"%string, [arg_cstr (c_str (list_byte_of_string "boom"))]);
       ("Stack:\n%s"%string, [arg_cstr (c_str (list_byte_of_string "at f"))])] /\
    live_native (w_mem w') = 1%nat.
Proof.
  apply (handler_keeps_function_text
           (set_pending (Some (JsError (JsString (list_byte_of_string "boom"))
                                 (JsString (list_byte_of_string "at f")))) plain_world)
           (JsFunction CallReturns)
           (list_byte_of_string "function () { [native code] }")
           (list_byte_of_string "boom") (list_byte_of_string "at f")
           napi_pending_exception);
    first [reflexivity | vm_compute; discriminate].
Defined.

(** X13. With a pending value that is not an Error, string forms of the
    function and of the value, and memory for the copies, the failure
    handler clears the exception and logs two lines: the function text
    and the string form of the value.  It destroys neither of the two
    strings: two more native blocks are live than before. *)
Theorem handler_keeps_both_texts (w : world) (f e : js_value)
    (ftxt etxt : list byte) (reason : napi_status) :
  w_pending w = Some e -> is_error_value e = false ->
  to_string (w_around w) f = Some ftxt ->
  to_string (w_around w) e = Some etxt ->
  Z.of_nat (length ftxt) <= SIZE_MAX / 2 ->
  Z.of_nat (length etxt) <= SIZE_MAX / 2 ->
  2 * (Z.of_nat (length ftxt) + Z.of_nat (length etxt)) + 36 <= w_native_avail w ->
  exists w',
    s_handle_failed_callback (Some f) reason w = (Ret tt, w') /\
    w_pending w' = None /\
    logged (w_trace w')
    = logged (w_trace w)
      ++ [("Calling %s"%string, [arg_cstr (c_str ftxt)]);
          ("Error: %s"%string, [arg_cstr (c_str etxt)])] /\
    live_native (w_mem w') = S (S (live_native (w_mem w))).
Proof.
  destruct w as [m navail havail alloc elg res boot pend tsfn tr around].
  world_fields. intros -> He Hf Ht Hbf Hbe Hmem.
  unfold s_handle_failed_callback, AWS_NAPI_ENSURE.
  destruct e; try discriminate He; step; rewrite Hf; step.
  all: convert_text; rewrite Ht; step; convert_text.
  all: take_world; split; [reflexivity|]; split.
  all: world_fields.
  all: try (rewrite !logged_app;
    rewrite (logged_silent warn Hsilent), (logged_silent warn0 Hsilent0);
    rewrite !load_new_second by (cbn [b_bytes]; rewrite length_app; cbn [length]; lia);
    cbn [b_bytes]; rewrite !c_str_terminated;
    cbn [logged omap list_omap app]; rewrite <- !app_assoc; reflexivity).
  all: rewrite !live_native_app, !live_native_pair; lia.
Qed.

Lemma handler_keeps_both_texts_witness :
  exists w',
    s_handle_failed_callback (Some (JsFunction CallReturns)) napi_pending_exception
      (set_pending (Some (JsString (list_byte_of_string "boom"))) plain_world)
    = (Ret tt, w') /\
    w_pending w' = None /\
    logged (w_trace w')
    = [("Calling %s"%string,
        [arg_cstr (c_str (list_byte_of_string "function () { [native code] }"))]);
       ("Error: %s"%string, [arg_cstr (c_str (list_byte_of_string "boom"))])] /\
    live_native (w_mem w') = 2%nat.
Proof.
  apply (handler_keeps_both_texts
           (set_pending (Some (JsString (list_byte_of_string "boom"))) plain_world)
           (JsFunction CallReturns) (JsString (list_byte_of_string "boom"))
           (list_byte_of_string "function () { [native code] }")
           (list_byte_of_string "boom") napi_pending_exception);
    first [reflexivity | vm_compute; discriminate].
Defined.

(** X14. With no exception pending, the dispatch of a callable that
    returns adds nothing to the trace but the one release, leaves memory
    alone, and returns the status of the release: [napi_ok], or
    [napi_invalid_arg] when the handle holds no reference. *)
Theorem dispatch_of_returning_call (w : world) (h : nat) (this_ptr : napi_value)
    (argv : list napi_value) :
  w_pending w = None ->
  exists w',
    aws_napi_dispatch_threadsafe_function (Some h) this_ptr
      (Some (JsFunction CallReturns)) argv w
    = (Ret match thread_count (w_tsfn w h) with
           | O => napi_invalid_arg
           | S _ => napi_ok
           end, w') /\
    w_trace w' = w_trace w ++ [ev_tsfn_release (Some h) napi_tsfn_release] /\
    thread_count (w_tsfn w' h) = Nat.pred (thread_count (w_tsfn w h)) /\
    w_mem w' = w_mem w /\ w_pending w' = None.
Proof.
  destruct w as [m navail havail alloc elg res boot pend tsfn tr around].
  world_fields. intros ->.
  destruct (tsfn h) as [count closing q] eqn:Hh.
  unfold aws_napi_dispatch_threadsafe_function, AWS_NAPI_ENSURE, AWS_NAPI_CALL,
    napi_release_threadsafe_function.
  destruct this_ptr as [recv|]; step; rewrite Hh; step.
  all: destruct count as [|n]; step.
  all: eexists; split; [reflexivity|]; cbn; rewrite ?Nat.eqb_refl, ?Hh; cbn; auto.
Qed.

Lemma dispatch_of_returning_call_witness :
  exists w',
    aws_napi_dispatch_threadsafe_function (Some 0%nat) None
      (Some (JsFunction CallReturns)) [] plain_world
    = (Ret napi_ok, w') /\
    w_trace w' = w_trace plain_world ++ [ev_tsfn_release (Some 0%nat) napi_tsfn_release] /\
    thread_count (w_tsfn w' 0%nat) = Nat.pred (thread_count (w_tsfn plain_world 0%nat)) /\
    w_mem w' = w_mem plain_world /\ w_pending w' = None.
Proof. apply (dispatch_of_returning_call plain_world 0%nat None []). reflexivity. Defined.

(** X15. When the host fails the call without raising an exception (a
    null or non-callable function, a failure of the engine), the dispatch
    reports the failed call, logs the one line of extended error
    information, releases the reference and returns the status of the
    call. *)
Theorem dispatch_without_exception (w : world) (h : nat)
    (this_ptr function r : napi_value) (argv : list napi_value) (st : napi_status) :
  w_pending w = None ->
  napi_call_function (receiver this_ptr) function argv w = (Ret (st, r), w) ->
  st <> napi_ok ->
  exists w',
    aws_napi_dispatch_threadsafe_function (Some h) this_ptr function argv w
    = (Ret st, w') /\
    w_trace w'
    = w_trace w ++ [ev_napi_call_failed "napi_call_function" st;
                    extended_error_event (last_error_info (w_around w));
                    ev_tsfn_release (Some h) napi_tsfn_release] /\
    w_mem w' = w_mem w /\ w_pending w' = None.
Proof.
  intros Hp Hcall Hst.
  assert (exists recv, receiver this_ptr = Some recv) as [recv Hrecv]
    by (destruct this_ptr; cbn; eauto).
  rewrite Hrecv in Hcall.
  assert (aws_napi_dispatch_threadsafe_function (Some h) this_ptr function argv w
          = (let* call_status :=
               AWS_NAPI_CALL "napi_call_function"
                 (napi_call_function (Some recv) function argv)
                 (fun status =>
                    run s_handle_failed_callback function status then ret status)
                 (fun _ => ret napi_ok) in
             let* (release_status, _) :=
               napi_release_threadsafe_function (Some h) napi_tsfn_release in
             ret (if negb (status_ok call_status) then call_status
                  else release_status)) w) as ->.
  { destruct this_ptr; cbn in Hrecv; injection Hrecv as <-; reflexivity. }
  unfold AWS_NAPI_CALL. unfold bind at 1 2. rewrite Hcall. cbn [fst snd].
  assert (status_ok st = false) as -> by (by destruct st).
  unfold bind at 1. unfold emit, modify. unfold bind at 1.
  rewrite handler_reports_engine_error by exact Hp.
  clear Hcall.
  destruct w as [m navail havail alloc elg res boot pend tsfn tr around].
  world_fields. subst.
  destruct (tsfn h) as [count closing q] eqn:Hh.
  unfold napi_release_threadsafe_function. step. rewrite Hh. step.
  assert (status_ok st = false) as Hok by (by destruct st).
  destruct count as [|n]; step.
  all: match goal with
       | |- exists w', (_, ?W) = _ /\ _ => exists W
       end.
  all: split; [destruct st; first [by destruct Hst | reflexivity]|].
  all: cbn; rewrite <- !app_assoc; auto.
Qed.

Lemma dispatch_without_exception_witness :
  exists w',
    aws_napi_dispatch_threadsafe_function (Some 0%nat) None None [] plain_world
    = (Ret napi_invalid_arg, w') /\
    w_trace w'
    = w_trace plain_world
      ++ [ev_napi_call_failed "napi_call_function" napi_invalid_arg;
          extended_error_event (last_error_info (w_around plain_world));
          ev_tsfn_release (Some 0%nat) napi_tsfn_release] /\
    w_mem w' = w_mem plain_world /\ w_pending w' = None.
Proof.
  apply (dispatch_without_exception plain_world 0%nat None None None []
           napi_invalid_arg).
  - reflexivity.
  - reflexivity.
  - discriminate.
Defined.

(** The host call of a dispatch and the report of its failure leave no
    exception pending. *)
Lemma call_and_report_clears (w : world) (recv : js_value) (function : napi_value)
    (argv : list napi_value) :
  (forall e, raised w function = Some e -> reportable w function e) ->
  exists call_status w',
    AWS_NAPI_CALL "napi_call_function" (napi_call_function (Some recv) function argv)
      (fun status => run s_handle_failed_callback function status then ret status)
      (fun _ => ret napi_ok) w
    = (Ret call_status, w') /\
    w_tsfn w' = w_tsfn w /\ w_pending w' = None /\ w_around w' = w_around w.
Proof.
  intros Hrep. unfold AWS_NAPI_CALL.
  assert (forall st W,
    w_pending W = None ->
    exists w',
      (run emit (ev_napi_call_failed "napi_call_function" st) then
       run s_handle_failed_callback function st then ret st) W = (Ret st, w') /\
      w_tsfn w' = w_tsfn W /\ w_pending w' = None /\ w_around w' = w_around W)
    as Hquiet.
  { intros st W HW.
    destruct W as [m navail havail alloc elg res boot pend tsfn tr around].
    world_fields. subst. step.
    rewrite handler_reports_engine_error by reflexivity. step.
    eexists. split; [reflexivity|]. cbn. auto. }
  assert (forall st W e,
    w_pending W = Some e -> reportable W function e ->
    exists w',
      (run emit (ev_napi_call_failed "napi_call_function" st) then
       run s_handle_failed_callback function st then ret st) W = (Ret st, w') /\
      w_tsfn w' = w_tsfn W /\ w_pending w' = None /\ w_around w' = w_around W)
    as Hexc.
  { intros st W e HW ((f & ftxt & -> & Hf) & He).
    destruct W as [m navail havail alloc elg res boot pend tsfn tr around].
    world_fields. subst. step.
    match goal with
    | |- context [s_handle_failed_callback _ _ ?W1] => set (W := W1)
    end.
    assert (exists w', s_handle_failed_callback (Some f) st W = (Ret tt, w') /\
              w_tsfn w' = w_tsfn W /\ w_pending w' = None /\
              w_around w' = w_around W)
      as (w' & -> & Ht & Hp & Ha).
    { assert (forall ms ss, e = JsError ms ss ->
                exists w', s_handle_failed_callback (Some f) st W = (Ret tt, w') /\
                  w_tsfn w' = w_tsfn W /\ w_pending w' = None /\
                  w_around w' = w_around W) as Herr.
      { intros ms ss ->. subst W.
        unfold s_handle_failed_callback, AWS_NAPI_ENSURE. step. rewrite Hf. step.
        convert_string; (convert_string; [convert_string|]).
        all: eexists; split; [reflexivity|]; cbn; auto. }
      destruct He as [He | [etxt He]].
      - apply is_error_value_inv in He as (ms & ss & ->). eauto.
      - destruct (is_error_value e) eqn:Hv.
        + apply is_error_value_inv in Hv as (ms & ss & ->). eauto.
        + subst W. unfold s_handle_failed_callback, AWS_NAPI_ENSURE.
          destruct e; try discriminate Hv; step; rewrite Hf; step.
          all: convert_string; rewrite He; step; convert_string.
          all: eexists; split; [reflexivity|]; cbn; auto. }
    step. eexists. split; [reflexivity|]. auto. }
  destruct (call_function_returns w recv function argv)
    as (st & r & w1 & Hcall & Ht & Htr & Har & Hp).
  unfold bind at 1. rewrite Hcall. cbn [fst snd].
  destruct (status_ok st) eqn:Hok.
  - exists napi_ok, w1. split; [reflexivity|]. split; [exact Ht|].
    split; [|exact Har].
    clear Hquiet Hexc Hrep Hp.
    destruct w as [m navail havail alloc elg res boot pend tsfn tr around].
    unfold napi_call_function in Hcall. revert Hcall. step.
    destruct pend as [e|]; step; [intros [= <- _ _]; discriminate Hok|].
    destruct function as [[ | | ? | ? | ? | | ? | | body | | ? ? | ? | ? ? ? | ? ? ? ? ]|];
      step; try (intros [= <- _ _]; discriminate Hok).
    destruct body; step; intros [= <- _ <-]; first [reflexivity | discriminate Hok].
  - assert (st <> napi_ok) as Hne by (intros ->; discriminate Hok).
    specialize (Hp Hne).
    assert (exists w',
      (run emit (ev_napi_call_failed "napi_call_function" st) then
       run s_handle_failed_callback function st then ret st) w1 = (Ret st, w') /\
      w_tsfn w' = w_tsfn w1 /\ w_pending w' = None /\ w_around w' = w_around w1)
      as (w' & E & Ht' & Hp' & Ha').
    { destruct (w_pending w1) as [e|] eqn:Hw1.
      - apply (Hexc st w1 e Hw1).
        destruct (Hrep e (eq_sym Hp)) as (Hf & He).
        unfold reportable. rewrite Har. by split.
      - by apply Hquiet. }
    exists st, w'. split; [exact E|]. split; [congruence|].
    split; [exact Hp' | congruence].
Qed.

(** A dispatch whose report succeeds: what is left of the handle and of
    the host's exception state. *)
Lemma dispatch_outcome (w : world) (h : nat) (this_ptr function : napi_value)
    (argv : list napi_value) :
  (forall e, raised w function = Some e -> reportable w function e) ->
  exists status w',
    aws_napi_dispatch_threadsafe_function (Some h) this_ptr function argv w
    = (Ret status, w') /\
    w_pending w' = None /\ w_around w' = w_around w /\
    thread_count (w_tsfn w' h) = Nat.pred (thread_count (w_tsfn w h)) /\
    queued (w_tsfn w' h) = queued (w_tsfn w h) /\
    (forall h', h' <> h -> w_tsfn w' h' = w_tsfn w h').
Proof.
  intros Hrep.
  assert (exists recv, receiver this_ptr = Some recv) as [recv Hrecv]
    by (destruct this_ptr; cbn; eauto).
  destruct (call_and_report_clears w recv function argv Hrep)
    as (cs & w1 & E & Ht & Hp & Ha).
  assert (aws_napi_dispatch_threadsafe_function (Some h) this_ptr function argv w
          = (let* call_status :=
               AWS_NAPI_CALL "napi_call_function"
                 (napi_call_function (Some recv) function argv)
                 (fun status =>
                    run s_handle_failed_callback function status then ret status)
                 (fun _ => ret napi_ok) in
             let* (release_status, _) :=
               napi_release_threadsafe_function (Some h) napi_tsfn_release in
             ret (if negb (status_ok call_status) then call_status
                  else release_status)) w) as ->.
  { destruct this_ptr; cbn in Hrecv; injection Hrecv as <-; reflexivity. }
  unfold bind at 1. rewrite E. clear E Hrep.
  destruct w as [m navail havail alloc elg res boot pend tsfn tr around].
  destruct w1 as [m1 navail1 havail1 alloc1 elg1 res1 boot1 pend1 tsfn1 tr1 around1].
  world_fields. subst.
  destruct (tsfn h) as [count closing q] eqn:Hh.
  unfold napi_release_threadsafe_function. step. rewrite Hh. step.
  destruct count as [|n]; step.
  - eexists _, _. split; [reflexivity|]. world_fields. rewrite Hh. cbn. auto.
  - eexists _, _. split; [reflexivity|]. world_fields.
    unfold fun_upd. rewrite Nat.eqb_refl. cbn.
    repeat split; try reflexivity.
    intros h' Hne. by destruct (Nat.eqb_spec h' h).
Qed.

(** X16. After a dispatch that returns, no exception is pending, also
    when one was pending before the dispatch started; a call of a host
    function made right after it is not refused. *)
Theorem dispatch_clears_exception (w : world) (h : nat)
    (this_ptr function : napi_value) (argv : list napi_value) :
  (forall e, raised w function = Some e -> reportable w function e) ->
  exists status w',
    aws_napi_dispatch_threadsafe_function (Some h) this_ptr function argv w
    = (Ret status, w') /\
    w_pending w' = None /\
    forall recv argv',
      napi_call_function (Some recv) (Some (JsFunction CallReturns)) argv' w'
      = (Ret (napi_ok, Some JsUndefined), w').
Proof.
  intros Hrep.
  destruct (dispatch_outcome w h this_ptr function argv Hrep)
    as (status & w' & E & Hp & _).
  exists status, w'. split; [exact E|]. split; [exact Hp|].
  intros recv argv'.
  destruct w' as [m navail havail alloc elg res boot pend tsfn tr around].
  world_fields. subst. reflexivity.
Qed.

Lemma dispatch_clears_exception_witness :
  exists status w',
    aws_napi_dispatch_threadsafe_function (Some 0%nat) None
      (Some (JsFunction CallReturns)) []
      (set_pending (Some (JsString (list_byte_of_string "stale"))) plain_world)
    = (Ret status, w') /\
    w_pending w' = None /\
    forall recv argv',
      napi_call_function (Some recv) (Some (JsFunction CallReturns)) argv' w'
      = (Ret (napi_ok, Some JsUndefined), w').
Proof.
  apply (dispatch_clears_exception
           (set_pending (Some (JsString (list_byte_of_string "stale"))) plain_world)
           0%nat None (Some (JsFunction CallReturns)) []).
  intros e [= <-]. split.
  - eexists _, _. split; reflexivity.
  - right. eexists. reflexivity.
Defined.

(** X17. On a handle that is not closing, queueing returns [napi_ok],
    takes one reference and appends the user data to the queue.  The
    dispatch that follows gives the reference back: the handle holds as
    many references as before the two calls, and the other handles are
    as they were. *)
Theorem queue_then_dispatch_balanced (w : world) (h : nat) (user_data : Z)
    (this_ptr function : napi_value) (argv : list napi_value) :
  is_closing (w_tsfn w h) = false ->
  (forall e, raised w function = Some e -> reportable w function e) ->
  exists w1 status w2,
    aws_napi_queue_threadsafe_function (Some h) user_data w = (Ret napi_ok, w1) /\
    thread_count (w_tsfn w1 h) = S (thread_count (w_tsfn w h)) /\
    queued (w_tsfn w1 h) = queued (w_tsfn w h) ++ [user_data] /\
    aws_napi_dispatch_threadsafe_function (Some h) this_ptr function argv w1
    = (Ret status, w2) /\
    thread_count (w_tsfn w2 h) = thread_count (w_tsfn w h) /\
    (forall h', h' <> h -> w_tsfn w2 h' = w_tsfn w h').
Proof.
  intros Hopen Hrep.
  destruct w as [m navail havail alloc elg res boot pend tsfn tr around].
  world_fields.
  destruct (tsfn h) as [count closing q] eqn:Hh. cbn in Hopen. subst closing.
  unfold aws_napi_queue_threadsafe_function, AWS_NAPI_ENSURE,
    napi_acquire_threadsafe_function, napi_call_threadsafe_function.
  step. rewrite Hh. step. rewrite !Nat.eqb_refl. step.
  match goal with
  | |- exists w1 status w2, (_, ?W) = _ /\ _ => set (W1 := W)
  end.
  destruct (dispatch_outcome W1 h this_ptr function argv)
    as (status & w2 & E & _ & _ & Hc & _ & Hother).
  { exact Hrep. }
  subst W1. cbn in Hc, Hother. rewrite Nat.eqb_refl in Hc. cbn in Hc.
  eexists _, status, w2. split; [reflexivity|].
  cbn. rewrite Nat.eqb_refl. cbn.
  split; [reflexivity|]. split; [reflexivity|]. split; [exact E|].
  split; [exact Hc|].
  intros h' Hne. etransitivity; [exact (Hother h' Hne)|].
  by destruct (Nat.eqb_spec h' h).
Qed.

Lemma queue_then_dispatch_balanced_witness :
  exists w1 status w2,
    aws_napi_queue_threadsafe_function (Some 0%nat) 7 plain_world = (Ret napi_ok, w1) /\
    thread_count (w_tsfn w1 0%nat) = S (thread_count (w_tsfn plain_world 0%nat)) /\
    queued (w_tsfn w1 0%nat) = queued (w_tsfn plain_world 0%nat) ++ [7] /\
    aws_napi_dispatch_threadsafe_function (Some 0%nat) None
      (Some (JsFunction CallReturns)) [] w1
    = (Ret status, w2) /\
    thread_count (w_tsfn w2 0%nat) = thread_count (w_tsfn plain_world 0%nat) /\
    (forall h', h' <> 0%nat -> w_tsfn w2 h' = w_tsfn plain_world h').
Proof.
  apply (queue_then_dispatch_balanced plain_world 0%nat 7 None
           (Some (JsFunction CallReturns)) []).
  - reflexivity.
  - intros e H. discriminate H.
Defined.

(** X18. A release in abort mode leaves the handle closing, and queueing
    on it afterwards ends the process in the assertion on
    [napi_acquire_threadsafe_function], before anything is enqueued. *)
Theorem queue_after_abort_is_fatal (w : world) (h : nat) (user_data : Z) :
  (0 < thread_count (w_tsfn w h))%nat ->
  exists w1 w2,
    aws_napi_release_threadsafe_function (Some h) napi_tsfn_abort w
    = (Ret napi_ok, w1) /\
    is_closing (w_tsfn w1 h) = true /\
    aws_napi_queue_threadsafe_function (Some h) user_data w1
    = (Fatal "napi_acquire_threadsafe_function", w2) /\
    w_tsfn w2 = w_tsfn w1 /\
    w_trace w2 = w_trace w ++ [ev_tsfn_release (Some h) napi_tsfn_abort;
                               ev_tsfn_acquire (Some h)].
Proof.
  intros Hcount.
  destruct w as [m navail havail alloc elg res boot pend tsfn tr around].
  world_fields.
  destruct (tsfn h) as [count closing q] eqn:Hh. cbn in Hcount.
  destruct count as [|n]; [lia|].
  unfold aws_napi_release_threadsafe_function, napi_release_threadsafe_function.
  step. rewrite Hh. step.
  destruct closing; step.
  all: eexists _, _; split; [reflexivity|]; cbn; rewrite !Nat.eqb_refl; cbn.
  all: split; [reflexivity|].
  all: unfold aws_napi_queue_threadsafe_function, AWS_NAPI_ENSURE,
    napi_acquire_threadsafe_function.
  all: step; rewrite ?Nat.eqb_refl; step.
  all: split; [reflexivity|]; cbn; rewrite <- app_assoc; auto.
Qed.

Lemma queue_after_abort_is_fatal_witness :
  exists w1 w2,
    aws_napi_release_threadsafe_function (Some 0%nat) napi_tsfn_abort plain_world
    = (Ret napi_ok, w1) /\
    is_closing (w_tsfn w1 0%nat) = true /\
    aws_napi_queue_threadsafe_function (Some 0%nat) 7 w1
    = (Fatal "napi_acquire_threadsafe_function", w2) /\
    w_tsfn w2 = w_tsfn w1 /\
    w_trace w2 = w_trace plain_world ++ [ev_tsfn_release (Some 0%nat) napi_tsfn_abort;
                                         ev_tsfn_acquire (Some 0%nat)].
Proof. apply (queue_after_abort_is_fatal plain_world 0%nat 7). cbn. lia. Defined.

(** X19. On a handle that is not closing, an acquire followed by a release
    in release mode both return [napi_ok] and leave every handle as it
    was; the trace holds the two host calls and nothing else. *)
Theorem acquire_then_release_restores (w : world) (h : nat) :
  is_closing (w_tsfn w h) = false ->
  exists w1 w2,
    aws_napi_acquire_threadsafe_function (Some h) w = (Ret napi_ok, w1) /\
    thread_count (w_tsfn w1 h) = S (thread_count (w_tsfn w h)) /\
    aws_napi_release_threadsafe_function (Some h) napi_tsfn_release w1
    = (Ret napi_ok, w2) /\
    (forall h', w_tsfn w2 h' = w_tsfn w h') /\
    w_trace w2 = w_trace w ++ [ev_tsfn_acquire (Some h);
                               ev_tsfn_release (Some h) napi_tsfn_release].
Proof.
  intros Hopen.
  destruct w as [m navail havail alloc elg res boot pend tsfn tr around].
  world_fields.
  destruct (tsfn h) as [count closing q] eqn:Hh. cbn in Hopen. subst closing.
  unfold aws_napi_acquire_threadsafe_function, napi_acquire_threadsafe_function,
    aws_napi_release_threadsafe_function, napi_release_threadsafe_function.
  step. rewrite Hh. step.
  eexists _, _. split; [reflexivity|]. cbn. rewrite !Nat.eqb_refl. cbn.
  split; [reflexivity|]. split; [reflexivity|]. split.
  - intros h'. destruct (Nat.eqb_spec h' h) as [-> | Hne]; [by rewrite Hh | reflexivity].
  - by rewrite <- app_assoc.
Qed.

Lemma acquire_then_release_restores_witness :
  exists w1 w2,
    aws_napi_acquire_threadsafe_function (Some 0%nat) plain_world = (Ret napi_ok, w1) /\
    thread_count (w_tsfn w1 0%nat) = S (thread_count (w_tsfn plain_world 0%nat)) /\
    aws_napi_release_threadsafe_function (Some 0%nat) napi_tsfn_release w1
    = (Ret napi_ok, w2) /\
    (forall h', w_tsfn w2 h' = w_tsfn plain_world h') /\
    w_trace w2 = w_trace plain_world ++ [ev_tsfn_acquire (Some 0%nat);
                                         ev_tsfn_release (Some 0%nat) napi_tsfn_release].
Proof. apply (acquire_then_release_restores plain_world 0%nat). reflexivity. Defined.

(** X20. On a non-null handle the wrappers pass the host's answer on:
    acquire on a closing handle returns [napi_closing] (where queueing
    ends the process), release on a handle that holds no reference
    returns [napi_invalid_arg], both without changing the handle;
    unreference returns [napi_ok]. *)
Theorem wrappers_pass_refusals (w : world) (h : nat)
    (mode : napi_threadsafe_function_release_mode) :
  (is_closing (w_tsfn w h) = true ->
   aws_napi_acquire_threadsafe_function (Some h) w
   = (Ret napi_closing, set_trace (w_trace w ++ [ev_tsfn_acquire (Some h)]) w)) /\
  (thread_count (w_tsfn w h) = 0%nat ->
   aws_napi_release_threadsafe_function (Some h) mode w
   = (Ret napi_invalid_arg,
      set_trace (w_trace w ++ [ev_tsfn_release (Some h) mode]) w)) /\
  aws_napi_unref_threadsafe_function (Some h) w
  = (Ret napi_ok, set_trace (w_trace w ++ [ev_tsfn_unref (Some h)]) w).
Proof.
  destruct w as [m navail havail alloc elg res boot pend tsfn tr around].
  world_fields.
  destruct (tsfn h) as [count closing q] eqn:Hh. cbn [is_closing thread_count].
  unfold aws_napi_acquire_threadsafe_function, napi_acquire_threadsafe_function,
    aws_napi_release_threadsafe_function, napi_release_threadsafe_function,
    aws_napi_unref_threadsafe_function, napi_unref_threadsafe_function.
  split; [|split].
  - intros ->. step. rewrite Hh. reflexivity.
  - intros ->. step. rewrite Hh. reflexivity.
  - reflexivity.
Qed.

Lemma wrappers_pass_refusals_witness :
  aws_napi_release_threadsafe_function (Some 0%nat) napi_tsfn_release
    (set_tsfn (fun _ => mk_tsfn 0 false []) plain_world)
  = (Ret napi_invalid_arg,
     set_trace (w_trace (set_tsfn (fun _ => mk_tsfn 0 false []) plain_world)
                ++ [ev_tsfn_release (Some 0%nat) napi_tsfn_release])
       (set_tsfn (fun _ => mk_tsfn 0 false []) plain_world)).
Proof.
  apply (proj1 (proj2 (wrappers_pass_refusals
                         (set_tsfn (fun _ => mk_tsfn 0 false []) plain_world)
                         0%nat napi_tsfn_release))).
  reflexivity.
Defined.

(** *** Allocator and memory statistics *)

(** X21. [aws_napi_get_allocator] always returns, leaves the allocator it
    returns in [s_allocator], and returns the same allocator on the next
    call, which changes nothing: no second warning and no second
    tracer. *)
Theorem allocator_chosen_once (w : world) :
  exists a w1,
    aws_napi_get_allocator w = (Ret a, w1) /\
    s_allocator w1 = Some a /\
    aws_napi_get_allocator w1 = (Ret a, w1).
Proof.
  destruct (get_allocator_returns w) as (a & w1 & E & _ & _ & _ & _ & _ & _ & _ & Ha & _).
  exists a, w1. split; [exact E|]. split; [exact Ha|].
  by apply get_allocator_cached.
Qed.

Lemma no_digit_value (s : string) : no_digit s = true -> digits_value 0 s = 0.
Proof.
  destruct s as [|c rest]; [reflexivity|]. cbn.
  by destruct (digit_of c).
Qed.

Lemma reads_no_number_atoi (around : surroundings) (value : string) :
  reads_no_number value = true -> atoi around value = 0.
Proof.
  intros H. assert (decimal_value value = 0) as E.
  { revert H. unfold reads_no_number, decimal_value.
    destruct (skip_space value) as [|c rest]; [reflexivity|].
    destruct c as [[] [] [] [] [] [] [] []]; intros H;
      rewrite (no_digit_value _ H); reflexivity. }
  unfold atoi. by rewrite E.
Qed.

(** X22. A value of the tracing variable that holds no number (after
    white space and an optional sign no digit follows) selects a tracing
    allocator of level 0 around the default allocator, and no warning is
    written. *)
Theorem tracing_value_without_number (w : world) (value : string) :
  s_allocator w = None ->
  getenv_mem_tracing (w_around w) = EnvSet value ->
  reads_no_number value = true ->
  aws_napi_get_allocator w
  = (Ret (mem_tracer aws_default_allocator AWS_MEMTRACE_NONE 16),
     set_s_allocator (Some (mem_tracer aws_default_allocator AWS_MEMTRACE_NONE 16)) w).
Proof.
  intros Hnull Hset Hno. unfold aws_napi_get_allocator, bind, get_world.
  rewrite Hnull, Hset, (reads_no_number_atoi _ _ Hno). reflexivity.
Qed.

Lemma tracing_value_without_number_witness :
  aws_napi_get_allocator (sample_world (EnvSet "stacks") zero_byte_buf)
  = (Ret (mem_tracer aws_default_allocator AWS_MEMTRACE_NONE 16),
     set_s_allocator (Some (mem_tracer aws_default_allocator AWS_MEMTRACE_NONE 16))
       (sample_world (EnvSet "stacks") zero_byte_buf)).
Proof.
  apply (tracing_value_without_number (sample_world (EnvSet "stacks") zero_byte_buf)
           "stacks"); reflexivity.
Defined.

Lemma get_allocator_untraced (w : world) :
  s_allocator w = None ->
  getenv_mem_tracing (w_around w) = EnvUnset \/
  getenv_mem_tracing (w_around w) = EnvError ->
  aws_napi_get_allocator w
  = (Ret aws_default_allocator, set_s_allocator (Some aws_default_allocator) w).
Proof.
  intros Hnull H. unfold aws_napi_get_allocator. cbn.
  rewrite Hnull. destruct H as [-> | ->]; reflexivity.
Qed.

(** X23. With the default allocator chosen, or with none chosen and the
    tracing variable not set or unreadable, [aws_napi_native_memory] asks
    the host for the number 0 and [aws_napi_native_memory_dump] returns
    NULL; neither calls the tracer, whatever the tracer and the host do.
    With a tracing allocator chosen, the first reports the byte count of
    that tracer and the second runs its dump once and returns NULL. *)
Theorem native_memory_reports
    (tracer_bytes : aws_allocator -> M Z) (tracer_dump : aws_allocator -> M unit)
    (create_int64 : Z -> M (napi_status * napi_value)) (w : world) :
  (s_allocator w = Some aws_default_allocator \/
   (s_allocator w = None /\
    (getenv_mem_tracing (w_around w) = EnvUnset \/
     getenv_mem_tracing (w_around w) = EnvError)) ->
   aws_napi_native_memory tracer_bytes create_int64 w
   = AWS_NAPI_CALL "napi_create_int64" (create_int64 0)
       (fun _ => ret None) (fun node_allocated => ret node_allocated)
       (set_s_allocator (Some aws_default_allocator) w) /\
   aws_napi_native_memory_dump tracer_dump w
   = (Ret None, set_s_allocator (Some aws_default_allocator) w)) /\
  (forall traced level frames,
     s_allocator w = Some (mem_tracer traced level frames) ->
     aws_napi_native_memory tracer_bytes create_int64 w
     = (let* allocated := tracer_bytes (mem_tracer traced level frames) in
        AWS_NAPI_CALL "napi_create_int64" (create_int64 (int64_of_size_t allocated))
          (fun _ => ret None) (fun node_allocated => ret node_allocated)) w /\
     aws_napi_native_memory_dump tracer_dump w
     = (run tracer_dump (mem_tracer traced level frames) then ret None) w).
Proof.
  destruct w as [m navail havail alloc elg res boot pend tsfn tr around].
  world_fields. split.
  - intros [-> | [-> Henv]].
    + unfold aws_napi_native_memory, aws_napi_native_memory_dump.
      unfold bind at 1 4.
      rewrite (get_allocator_cached _ aws_default_allocator) by reflexivity.
      split; reflexivity.
    + unfold aws_napi_native_memory, aws_napi_native_memory_dump.
      unfold bind at 1 4.
      rewrite get_allocator_untraced by (world_fields; auto).
      split; reflexivity.
  - intros traced level frames ->.
    unfold aws_napi_native_memory, aws_napi_native_memory_dump.
    unfold bind at 1 4.
    rewrite (get_allocator_cached _ (mem_tracer traced level frames)) by reflexivity.
    cbn [allocator_eqb negb].
    unfold bind at 1 4. unfold bind at 1 4.
    rewrite (get_allocator_cached _ (mem_tracer traced level frames)) by reflexivity.
    split; reflexivity.
Qed.

Lemma native_memory_reports_witness :
  aws_napi_native_memory (fun _ => ret 4096)
    (fun n => ret (napi_ok, Some (JsNumber n))) plain_world
  = (Ret (Some (JsNumber 0)), set_s_allocator (Some aws_default_allocator) plain_world) /\
  aws_napi_native_memory_dump (fun _ => fatal "aws_mem_tracer_dump") plain_world
  = (Ret None, set_s_allocator (Some aws_default_allocator) plain_world).
Proof.
  split.
  - apply (proj1 (proj1 (native_memory_reports (fun _ => ret 4096)
                           (fun _ => fatal "aws_mem_tracer_dump")
                           (fun n => ret (napi_ok, Some (JsNumber n))) plain_world)
                    (or_intror (conj eq_refl (or_introl eq_refl))))).
  - apply (proj2 (proj1 (native_memory_reports (fun _ => ret 4096)
                           (fun _ => fatal "aws_mem_tracer_dump")
                           (fun n => ret (napi_ok, Some (JsNumber n))) plain_world)
                    (or_intror (conj eq_refl (or_introl eq_refl))))).
Defined.

(** *** Process context *)

Lemma lib_calls_app (l1 l2 : list event) :
  lib_calls (l1 ++ l2) = lib_calls l1 ++ lib_calls l2.
Proof. apply omap_app. Qed.

Lemma allocator_eqb_eq (a b : aws_allocator) : allocator_eqb a b = true <-> a = b.
Proof.
  revert b. induction a as [|a IH l f]; intros [|b l' f']; cbn; try done.
  rewrite !andb_true_iff, IH, !Z.eqb_eq. split.
  - by intros [[-> ->] ->].
  - by intros [= -> -> ->].
Qed.

(** The first part of the initialisation when the context can be made. *)
Lemma init_libraries_ok (exports : napi_value) (w : world) :
  lib_new (w_around w) obj_context <> None ->
  host_status (w_around w) op_napi_wrap = napi_ok ->
  exists a w1,
    init_libraries exports w = (Ret a, w1) /\
    same_globals w w1 /\ w_around w1 = w_around w /\ s_allocator w1 = Some a /\
    w_mem w1 = w_mem w /\ w_pending w1 = w_pending w /\ w_tsfn w1 = w_tsfn w /\
    lib_calls (w_trace w1)
    = lib_calls (w_trace w)
      ++ [ install_crash_handler; napi_wrap_context; aws_napi_logger_new a;
           aws_cal_library_init a; aws_http_library_init a; aws_mqtt_library_init a;
           aws_auth_library_init a; aws_register_error_info;
           aws_register_log_subject_info_list ].
Proof.
  intros Hctx Hwrap.
  destruct w as [m navail havail alloc elg res boot pend tsfn tr around].
  world_fields.
  unfold init_libraries. unfold bind at 1. unfold emit, modify. unfold bind at 1.
  world_fields.
  unfold s_napi_context_new, AWS_FATAL_ASSERT, AWS_NAPI_ENSURE, napi_wrap.
  choose_allocator.
  destruct (lib_new around obj_context); [|done]. step.
  rewrite Hwrap. step.
  eexists _, _. split; [reflexivity|]. unfold same_globals. cbn.
  repeat split.
  destruct Htr as [-> | [value ->]]; unfold lib_calls, set_trace; world_fields;
    rewrite !omap_app; cbn; rewrite ?app_nil_r, <- ?app_assoc; reflexivity.
Qed.

Lemma only_trace_refl (w : world) : only_trace w w.
Proof. by destruct w. Qed.

Lemma only_trace_trans (w1 w2 w3 : world) :
  only_trace w1 w2 -> only_trace w2 w3 -> only_trace w1 w3.
Proof.
  unfold only_trace. intros H12 H23. rewrite H23 at 1. rewrite H12 at 1.
  by destruct w1.
Qed.

Lemma only_trace_fields (w w' : world) :
  only_trace w w' ->
  w_mem w' = w_mem w /\ w_native_avail w' = w_native_avail w /\
  w_host_avail w' = w_host_avail w /\ s_allocator w' = s_allocator w /\
  same_globals w w' /\ w_pending w' = w_pending w /\ w_tsfn w' = w_tsfn w /\
  w_around w' = w_around w.
Proof. intros ->. destruct w. unfold same_globals. cbn. tauto. Qed.

(** The run of the registrations: what it returns and what it leaves in
    the trace. *)
Lemma register_functions_run (exports : napi_value) (names : list string) (w : world) :
  exists w',
    register_functions exports names w
    = (Ret (forallb (registers (w_around w)) names), w') /\
    only_trace w w' /\
    lib_calls (w_trace w')
    = lib_calls (w_trace w)
      ++ map napi_export (registered_prefix (w_around w) names)
      ++ match refused (w_around w) names with
         | Some name => [napi_throw_error (refusal_message (w_around w) name)]
         | None => []
         end.
Proof.
  revert w. induction names as [|name rest IH]; intros w.
  - exists w. split; [reflexivity|]. split; [apply only_trace_refl|].
    cbn. by rewrite app_nil_r.
  - destruct w as [m navail havail alloc elg res boot pend tsfn tr around].
    cbn [register_functions forallb registered_prefix refused w_around w_trace].
    unfold bind at 1.
    unfold s_create_and_register_function, AWS_NAPI_CALL, napi_create_function,
      napi_set_named_property, registers, refusal_message.
    step.
    destruct (host_status around (op_napi_create_function name)) eqn:Hc; step.
    1: destruct (host_status around (op_napi_set_named_property name)) eqn:Hs; step.
    1: { match goal with
         | |- context [register_functions exports rest ?W] =>
             destruct (IH W) as (w' & -> & Ho & Hl)
         end.
         exists w'. world_fields. split; [reflexivity|].
         split; [refine (only_trace_trans _ _ _ _ Ho); reflexivity|].
         etransitivity; [exact Hl|]. cbn [w_trace w_around].
         rewrite lib_calls_app. cbn. by rewrite <- app_assoc. }
    all: eexists; split; [reflexivity|]; split; [reflexivity|].
    all: cbn; rewrite ?Hc, ?Hs, !lib_calls_app; cbn; rewrite <- ?app_assoc; reflexivity.
Qed.

Lemma refused_none (around : surroundings) (names : list string) :
  refused around names = None ->
  forallb (registers around) names = true /\
  registered_prefix around names = names.
Proof.
  induction names as [|name rest IH]; [done|]. cbn.
  destruct (registers around name); [|done].
  intros H. destruct (IH H) as [-> ->]. done.
Qed.

Lemma refused_some (around : surroundings) (names : list string) (name : string) :
  refused around names = Some name ->
  forallb (registers around) names = false /\
  In name names /\ registers around name = false.
Proof.
  induction names as [|n rest IH]; [done|]. cbn.
  destruct (registers around n) eqn:Hn.
  - intros H. destruct (IH H) as (-> & Hin & Hr). auto.
  - intros [= <-]. auto.
Qed.

(** The initialisation up to the registration of the functions. *)
Lemma init_reaches_registration (exports : napi_value) (w : world) :
  no_context w -> context_available (w_around w) ->
  exists a w1,
    NAPI_MODULE_INIT exports w = register_exports exports w1 /\
    s_allocator w1 = Some a /\
    s_node_uv_elg w1 = lib_new (w_around w) obj_event_loop_group /\
    s_default_host_resolver w1 = lib_new (w_around w) obj_host_resolver /\
    s_default_client_bootstrap w1 = lib_new (w_around w) obj_client_bootstrap /\
    w_around w1 = w_around w /\ w_mem w1 = w_mem w /\
    w_pending w1 = w_pending w /\ w_tsfn w1 = w_tsfn w /\
    lib_calls (w_trace w1) = lib_calls (w_trace w) ++ set_up_calls (w_around w) a.
Proof.
  intros (N1 & N2 & N3) (Hctx & Hwrap & Helg & Hres & Hboot).
  unfold NAPI_MODULE_INIT. unfold bind at 1.
  destruct (init_libraries_ok exports w Hctx Hwrap)
    as (a & w1 & -> & (G1 & G2 & G3) & Ha & Hal & Hm & Hp & Ht & Hl).
  destruct w as [m navail havail alloc elg res boot pend tsfn tr around].
  destruct w1 as [m1 navail1 havail1 alloc1 elg1 res1 boot1 pend1 tsfn1 tr1 around1].
  world_fields. subst. unfold AWS_FATAL_ASSERT. step.
  destruct (lib_new around obj_event_loop_group) as [e|] eqn:He; [|done]. step.
  destruct (lib_new around obj_host_resolver) as [r|] eqn:Hr; [|done]. step.
  destruct (lib_new around obj_client_bootstrap) as [b|] eqn:Hb; [|done]. step.
  eexists a, _. split; [reflexivity|]. cbn. rewrite ?He, ?Hr, ?Hb.
  repeat split.
  rewrite !lib_calls_app, Hl. unfold set_up_calls. cbn. rewrite ?He, ?Hr.
  rewrite <- !app_assoc. reflexivity.
Qed.

(** A successful initialisation: the world it leaves. *)
Lemma module_init_run (exports : napi_value) (w : world) :
  no_context w -> context_available (w_around w) ->
  refused (w_around w) registered_functions = None ->
  bindings_available (w_around w) ->
  exists a w',
    NAPI_MODULE_INIT exports w = (Ret exports, w') /\
    s_allocator w' = Some a /\
    s_node_uv_elg w' = lib_new (w_around w) obj_event_loop_group /\
    s_default_host_resolver w' = lib_new (w_around w) obj_host_resolver /\
    s_default_client_bootstrap w' = lib_new (w_around w) obj_client_bootstrap /\
    w_around w' = w_around w /\ w_mem w' = w_mem w /\
    lib_calls (w_trace w')
    = lib_calls (w_trace w) ++ set_up_calls (w_around w) a
      ++ map napi_export registered_functions.
Proof.
  intros Hno Hctx Href (B1 & B2 & B3).
  destruct (init_reaches_registration exports w Hno Hctx)
    as (a & w1 & -> & Ha & He & Hr & Hb & Har & Hm & _ & _ & Hl).
  unfold register_exports. unfold bind at 1.
  destruct (register_functions_run exports registered_functions w1)
    as (w2 & -> & Ho & Hl2).
  apply only_trace_fields in Ho as (Hm2 & _ & _ & Ha2 & (G1 & G2 & G3) & _ & _ & Har2).
  rewrite Har in *. destruct (refused_none _ _ Href) as [-> Hpre].
  rewrite Href, Hpre, app_nil_r, Hl, <- app_assoc in Hl2.
  cbn [negb]. unfold AWS_NAPI_ENSURE, bind_exports.
  destruct w as [m navail havail alloc elg res boot pend tsfn tr around].
  destruct w1 as [m1 navail1 havail1 alloc1 elg1 res1 boot1 pend1 tsfn1 tr1 around1].
  destruct w2 as [m2 navail2 havail2 alloc2 elg2 res2 boot2 pend2 tsfn2 tr2 around2].
  world_fields. subst. step. rewrite B1. step. rewrite B2. step. rewrite B3. step.
  exists a. eexists. split; [reflexivity|]. cbn.
  repeat split; try assumption; congruence.
Qed.

(** X24. With no context live, libraries and host that serve the set-up,
    every registration accepted and the three bindings successful, the
    module initialisation returns the exports.  It makes the library
    calls of the set-up in their order, all with the chosen allocator,
    then exports the functions in the order of the source.  Afterwards
    the accessors return the event-loop group and the client bootstrap
    that were created, while the accessors of the uv loop and of the
    event loop return NULL. *)
Theorem module_init_succeeds (exports : napi_value) (w : world) :
  no_context w -> context_available (w_around w) ->
  refused (w_around w) registered_functions = None ->
  bindings_available (w_around w) ->
  exists a w',
    NAPI_MODULE_INIT exports w = (Ret exports, w') /\
    s_allocator w' = Some a /\
    lib_calls (w_trace w')
    = lib_calls (w_trace w) ++ set_up_calls (w_around w) a
      ++ map napi_export registered_functions /\
    aws_napi_get_node_elg w'
    = (Ret (lib_new (w_around w) obj_event_loop_group), w') /\
    aws_napi_get_default_client_bootstrap w'
    = (Ret (lib_new (w_around w) obj_client_bootstrap), w') /\
    s_default_host_resolver w' = lib_new (w_around w) obj_host_resolver /\
    aws_napi_get_node_uv_loop w' = (Ret None, w') /\
    aws_napi_get_node_event_loop w' = (Ret None, w') /\
    w_mem w' = w_mem w.
Proof.
  intros Hno Hctx Href Hbind.
  destruct (module_init_run exports w Hno Hctx Href Hbind)
    as (a & w' & E & Ha & He & Hr & Hb & _ & Hm & Hl).
  exists a, w'. split; [exact E|]. split; [exact Ha|]. split; [exact Hl|].
  unfold aws_napi_get_node_elg, aws_napi_get_default_client_bootstrap. cbn.
  rewrite He, Hb. repeat split; assumption.
Qed.

Lemma module_init_succeeds_witness :
  exists a w',
    NAPI_MODULE_INIT (Some JsObject) plain_world = (Ret (Some JsObject), w') /\
    s_allocator w' = Some a /\
    lib_calls (w_trace w')
    = lib_calls (w_trace plain_world) ++ set_up_calls (w_around plain_world) a
      ++ map napi_export registered_functions /\
    aws_napi_get_node_elg w'
    = (Ret (lib_new (w_around plain_world) obj_event_loop_group), w') /\
    aws_napi_get_default_client_bootstrap w'
    = (Ret (lib_new (w_around plain_world) obj_client_bootstrap), w') /\
    s_default_host_resolver w' = lib_new (w_around plain_world) obj_host_resolver /\
    aws_napi_get_node_uv_loop w' = (Ret None, w') /\
    aws_napi_get_node_event_loop w' = (Ret None, w') /\
    w_mem w' = w_mem plain_world.
Proof.
  apply (module_init_succeeds (Some JsObject) plain_world).
  - repeat split.
  - repeat split; discriminate.
  - reflexivity.
  - repeat split.
Defined.

(** X25. When the host refuses to create or to set one of the functions,
    the module initialisation returns the host's null value, having
    exported the functions before the refused one and thrown the error of
    the refusal.  The event-loop group, the host resolver and the client
    bootstrap stay set. *)
Theorem module_init_refused (exports : napi_value) (w : world) (name : string) :
  no_context w -> context_available (w_around w) ->
  refused (w_around w) registered_functions = Some name ->
  exists a w',
    NAPI_MODULE_INIT exports w = (Ret (Some JsNull), w') /\
    s_node_uv_elg w' = lib_new (w_around w) obj_event_loop_group /\
    s_default_host_resolver w' = lib_new (w_around w) obj_host_resolver /\
    s_default_client_bootstrap w' = lib_new (w_around w) obj_client_bootstrap /\
    lib_calls (w_trace w')
    = lib_calls (w_trace w) ++ set_up_calls (w_around w) a
      ++ map napi_export (registered_prefix (w_around w) registered_functions)
      ++ [napi_throw_error (refusal_message (w_around w) name)].
Proof.
  intros Hno Hctx Href.
  destruct (init_reaches_registration exports w Hno Hctx)
    as (a & w1 & -> & Ha & He & Hr & Hb & Har & Hm & _ & _ & Hl).
  unfold register_exports. unfold bind at 1.
  destruct (register_functions_run exports registered_functions w1)
    as (w2 & -> & Ho & Hl2).
  apply only_trace_fields in Ho as (Hm2 & _ & _ & Ha2 & (G1 & G2 & G3) & _ & _ & Har2).
  rewrite Har in *. destruct (refused_some _ _ _ Href) as (-> & _ & _).
  rewrite Href, Hl, <- app_assoc in Hl2.
  cbn [negb]. exists a, w2. split; [reflexivity|].
  repeat split; congruence.
Qed.

Lemma module_init_refused_witness :
  exists a w',
    NAPI_MODULE_INIT (Some JsObject)
      (refusing_world refuse_one_export)
    = (Ret (Some JsNull), w') /\
    s_node_uv_elg w' = Some 3%nat /\
    s_default_host_resolver w' = Some 4%nat /\
    s_default_client_bootstrap w' = Some 5%nat /\
    lib_calls (w_trace w')
    = set_up_calls (refusing_surroundings refuse_one_export) a
      ++ map napi_export ["native_memory"; "native_memory_dump";
                           "error_code_to_string"; "error_code_to_name"]%string
      ++ [napi_throw_error "Unable to populate exports"].
Proof.
  apply (module_init_refused (Some JsObject)
           (refusing_world refuse_one_export) "io_logging_enable").
  - repeat split.
  - repeat split; discriminate.
  - vm_compute. reflexivity.
Defined.

Lemma init_libraries_fatal (exports : napi_value) (w : world) :
  lib_new (w_around w) obj_context = None \/
  host_status (w_around w) op_napi_wrap <> napi_ok ->
  exists what w', init_libraries exports w = (Fatal what, w').
Proof.
  intros H.
  destruct w as [m navail havail alloc elg res boot pend tsfn tr around].
  world_fields.
  unfold init_libraries. unfold bind at 1. unfold emit, modify. unfold bind at 1.
  world_fields.
  unfold s_napi_context_new, AWS_FATAL_ASSERT, AWS_NAPI_ENSURE, napi_wrap.
  choose_allocator.
  destruct (lib_new around obj_context); step; [|eauto].
  destruct (host_status around op_napi_wrap); step; eauto.
  destruct H as [H | H]; [discriminate H | by destruct H].
Qed.

(** A second initialisation next to a live context ends the process. *)
Lemma init_with_context_is_fatal (exports : napi_value) (w : world) :
  s_node_uv_elg w <> None \/ s_default_host_resolver w <> None \/
  s_default_client_bootstrap w <> None ->
  exists what w', NAPI_MODULE_INIT exports w = (Fatal what, w').
Proof.
  intros Hlive. unfold NAPI_MODULE_INIT. unfold bind at 1.
  destruct (init_libraries exports w) as [[a|what] w1] eqn:E; [|eauto].
  apply init_libraries_globals in E as (G1 & G2 & G3).
  rewrite <- G1, <- G2, <- G3 in Hlive. clear G1 G2 G3.
  unfold AWS_FATAL_ASSERT.
  destruct w1 as [m1 navail1 havail1 alloc1 elg1 res1 boot1 pend1 tsfn1 tr1 around1].
  cbn in Hlive. step.
  destruct elg1; step; [eauto|].
  destruct (lib_new _ obj_event_loop_group); step; [|eauto].
  destruct res1; step; [eauto|].
  destruct (lib_new _ obj_host_resolver); step; [|eauto].
  destruct boot1; step; [eauto|].
  exfalso. tauto.
Qed.

(** X26. The module initialisation ends the process when the context
    cannot be allocated or wrapped, when the event-loop group, the host
    resolver or the client bootstrap cannot be created, and when every
    function is registered but one of the three bindings fails. *)
Theorem module_init_fatal (exports : napi_value) (w : world) :
  ~ context_available (w_around w) \/
  (refused (w_around w) registered_functions = None /\
   ~ bindings_available (w_around w)) ->
  exists what w', NAPI_MODULE_INIT exports w = (Fatal what, w').
Proof.
  intros H.
  destruct (s_node_uv_elg w) as [e|] eqn:N1;
    [apply init_with_context_is_fatal; left; congruence|].
  destruct (s_default_host_resolver w) as [r|] eqn:N2;
    [apply init_with_context_is_fatal; right; left; congruence|].
  destruct (s_default_client_bootstrap w) as [b|] eqn:N3;
    [apply init_with_context_is_fatal; right; right; congruence|].
  assert (no_context w) as Hno by done.
  assert ((exists what w1, init_libraries exports w = (Fatal what, w1)) ->
          exists what w', NAPI_MODULE_INIT exports w = (Fatal what, w')) as Hlib.
  { intros (what & w1 & E). unfold NAPI_MODULE_INIT. unfold bind at 1.
    rewrite E. eauto. }
  destruct (lib_new (w_around w) obj_context) as [c|] eqn:Hc;
    [|apply Hlib, init_libraries_fatal; by left].
  destruct (status_ok (host_status (w_around w) op_napi_wrap)) eqn:Hw;
    [|apply Hlib, init_libraries_fatal; right; intros Hok; by rewrite Hok in Hw].
  assert (host_status (w_around w) op_napi_wrap = napi_ok) as Hwrap
    by (by destruct (host_status (w_around w) op_napi_wrap)).
  clear Hlib Hw.
  destruct (lib_new (w_around w) obj_event_loop_group) as [e|] eqn:He.
  2:{ unfold NAPI_MODULE_INIT. unfold bind at 1.
      destruct (init_libraries_ok exports w) as (a & w1 & -> & (G1 & G2 & G3) & Ha & _);
        [congruence | assumption |].
      destruct w as [m navail havail alloc elg res boot pend tsfn tr around].
      destruct w1 as [m1 navail1 havail1 alloc1 elg1 res1 boot1 pend1 tsfn1 tr1 around1].
      world_fields. subst. unfold AWS_FATAL_ASSERT. step. rewrite He. step. eauto. }
  destruct (lib_new (w_around w) obj_host_resolver) as [r|] eqn:Hr.
  2:{ unfold NAPI_MODULE_INIT. unfold bind at 1.
      destruct (init_libraries_ok exports w) as (a & w1 & -> & (G1 & G2 & G3) & Ha & _);
        [congruence | assumption |].
      destruct w as [m navail havail alloc elg res boot pend tsfn tr around].
      destruct w1 as [m1 navail1 havail1 alloc1 elg1 res1 boot1 pend1 tsfn1 tr1 around1].
      world_fields. subst. unfold AWS_FATAL_ASSERT. step. rewrite He. step.
      rewrite Hr. step. eauto. }
  destruct (lib_new (w_around w) obj_client_bootstrap) as [b|] eqn:Hb.
  2:{ unfold NAPI_MODULE_INIT. unfold bind at 1.
      destruct (init_libraries_ok exports w) as (a & w1 & -> & (G1 & G2 & G3) & Ha & _);
        [congruence | assumption |].
      destruct w as [m navail havail alloc elg res boot pend tsfn tr around].
      destruct w1 as [m1 navail1 havail1 alloc1 elg1 res1 boot1 pend1 tsfn1 tr1 around1].
      world_fields. subst. unfold AWS_FATAL_ASSERT. step. rewrite He. step.
      rewrite Hr. step. rewrite Hb. step. eauto. }
  assert (context_available (w_around w)) as Hctx.
  { unfold context_available. rewrite Hc, He, Hr, Hb. repeat split; congruence. }
  destruct H as [H | [Href Hbind]]; [by destruct H|].
  destruct (init_reaches_registration exports w Hno Hctx)
    as (a & w1 & -> & _ & _ & _ & _ & Har & _).
  unfold register_exports. unfold bind at 1.
  destruct (register_functions_run exports registered_functions w1)
    as (w2 & -> & Ho & _).
  apply only_trace_fields in Ho as (_ & _ & _ & _ & _ & _ & _ & Har2).
  rewrite Har in *. destruct (refused_none _ _ Href) as [-> _].
  cbn [negb]. unfold AWS_NAPI_ENSURE, bind_exports.
  unfold bindings_available in Hbind. clear Hctx Hno.
  destruct w as [m navail havail alloc elg res boot pend tsfn tr around].
  destruct w1 as [m1 navail1 havail1 alloc1 elg1 res1 boot1 pend1 tsfn1 tr1 around1].
  destruct w2 as [m2 navail2 havail2 alloc2 elg2 res2 boot2 pend2 tsfn2 tr2 around2].
  world_fields. subst. step.
  destruct (host_status around op_http_headers_bind) eqn:B1; step; eauto.
  destruct (host_status around op_http_message_bind) eqn:B2; step; eauto.
  destruct (host_status around op_auth_bind) eqn:B3; step; eauto.
  exfalso. apply Hbind. auto.
Qed.

Lemma module_init_fatal_witness :
  exists what w',
    NAPI_MODULE_INIT (Some JsObject)
      (refusing_world refuse_auth_bind)
    = (Fatal what, w').
Proof.
  apply (module_init_fatal (Some JsObject)
           (refusing_world refuse_auth_bind)).
  right. split.
  - vm_compute. reflexivity.
  - intros (_ & _ & H). vm_compute in H. discriminate H.
Defined.

(** The finalizer, call by call. *)
Lemma finalize_run (w : world) (ctx : aws_napi_context) :
  exists w',
    s_napi_context_finalize ctx w = (Ret tt, w') /\
    same_globals w w' /\ w_mem w' = w_mem w /\ w_around w' = w_around w /\
    lib_calls (w_trace w')
    = lib_calls (w_trace w) ++ tear_down_calls w ctx
      ++ (if allocator_eqb (released_allocator (w_around w) 0%nat) aws_default_allocator
          then []
          else [aws_mem_tracer_destroy (released_allocator (w_around w) 1%nat)]) /\
    s_allocator w'
    = if allocator_eqb (released_allocator (w_around w) 0%nat) aws_default_allocator
      then s_allocator w
      else match s_allocator w with
           | Some a =>
               if allocator_eqb a (released_allocator (w_around w) 2%nat)
               then None else Some a
           | None => None
           end.
Proof.
  destruct ctx as [ca cl].
  destruct w as [m navail havail alloc elg res boot pend tsfn tr around].
  unfold s_napi_context_finalize, same_globals, tear_down_calls.
  cbn [ctx_allocator ctx_logger w_around s_allocator].
  destruct (allocator_eqb (released_allocator around 0%nat) aws_default_allocator) eqn:H;
    [| destruct alloc as [a|];
       [destruct (allocator_eqb a (released_allocator around 2%nat)) eqn:H2 |] ].
  all: eexists; split; [step; rewrite ?H, ?H2; step; reflexivity|].
  all: cbn; rewrite ?H2; repeat split.
  all: unfold lib_calls; rewrite !omap_app; cbn; rewrite <- ?app_assoc; reflexivity.
Qed.


(** X27. The finalizer releases the event-loop group, the host resolver
    and the client bootstrap without resetting the three globals: after a
    successful initialisation and the finalizer, a second initialisation
    ends the process. *)
Theorem module_reinit_is_fatal (exports exports' : napi_value) (w : world)
    (ctx : aws_napi_context) :
  no_context w -> context_available (w_around w) ->
  refused (w_around w) registered_functions = None ->
  bindings_available (w_around w) ->
  exists w1 w2 what w3,
    NAPI_MODULE_INIT exports w = (Ret exports, w1) /\
    s_napi_context_finalize ctx w1 = (Ret tt, w2) /\
    same_globals w1 w2 /\
    NAPI_MODULE_INIT exports' w2 = (Fatal what, w3).
Proof.
  intros Hno Hctx Href Hbind.
  destruct (module_init_run exports w Hno Hctx Href Hbind)
    as (a & w1 & E1 & _ & He & _).
  destruct (finalize_run w1 ctx) as (w2 & E2 & G & _).
  destruct (init_with_context_is_fatal exports' w2) as (what & w3 & E3).
  { left. destruct G as (-> & _). rewrite He.
    by destruct Hctx as (_ & _ & Helg & _). }
  exists w1, w2, what, w3. auto.
Qed.

Lemma module_reinit_is_fatal_witness :
  exists w1 w2 what w3,
    NAPI_MODULE_INIT (Some JsObject) plain_world = (Ret (Some JsObject), w1) /\
    s_napi_context_finalize (mk_context aws_default_allocator (Some 2%nat)) w1
    = (Ret tt, w2) /\
    same_globals w1 w2 /\
    NAPI_MODULE_INIT (Some JsObject) w2 = (Fatal what, w3).
Proof.
  apply (module_reinit_is_fatal (Some JsObject) (Some JsObject) plain_world
           (mk_context aws_default_allocator (Some 2%nat))).
  - repeat split.
  - repeat split; discriminate.
  - reflexivity.
  - repeat split.
Defined.

(** X28. The finalizer of a context always returns and leaves the three
    globals as they were; its first ten calls are those of the tear-down,
    the release of the context being the last of them.  What follows is
    decided by what the allocator member of the released context reads
    as: when the first read gives the default allocator, nothing else is
    called and [s_allocator] is kept; otherwise what the second read gives
    is destroyed as a tracer, and [s_allocator] is reset when it holds
    what the third read gives and only then. *)
Theorem finalize_resets_tracer (w : world) (ctx : aws_napi_context) :
  exists w',
    s_napi_context_finalize ctx w = (Ret tt, w') /\
    same_globals w w' /\
    (released_allocator (w_around w) 0%nat = aws_default_allocator ->
       s_allocator w' = s_allocator w /\
       lib_calls (w_trace w') = lib_calls (w_trace w) ++ tear_down_calls w ctx) /\
    (released_allocator (w_around w) 0%nat <> aws_default_allocator ->
       lib_calls (w_trace w')
       = lib_calls (w_trace w) ++ tear_down_calls w ctx
         ++ [aws_mem_tracer_destroy (released_allocator (w_around w) 1%nat)] /\
       (s_allocator w = Some (released_allocator (w_around w) 2%nat) ->
          s_allocator w' = None) /\
       (s_allocator w <> Some (released_allocator (w_around w) 2%nat) ->
          s_allocator w' = s_allocator w)).
Proof.
  destruct (finalize_run w ctx) as (w' & E & G & _ & _ & Hl & Ha).
  exists w'. split; [exact E|]. split; [exact G|]. split.
  - intros Hd. apply allocator_eqb_eq in Hd. rewrite Hd in Ha, Hl.
    by rewrite app_nil_r in Hl.
  - intros Hnd.
    destruct (allocator_eqb (released_allocator (w_around w) 0%nat) aws_default_allocator)
      eqn:Hd; [by apply allocator_eqb_eq in Hd|].
    split; [exact Hl|]. split.
    + intros Hs. rewrite Hs in Ha.
      by rewrite (proj2 (allocator_eqb_eq _ _) eq_refl) in Ha.
    + intros Hs. destruct (s_allocator w) as [a|]; [|exact Ha].
      destruct (allocator_eqb a (released_allocator (w_around w) 2%nat)) eqn:Heq;
        [|exact Ha].
      apply allocator_eqb_eq in Heq. by subst a.
Qed.

Lemma finalize_resets_tracer_witness :
  exists w',
    s_napi_context_finalize (mk_context (mem_tracer aws_default_allocator 1 16) (Some 2%nat))
      (traced_world (mem_tracer aws_default_allocator 1 16))
    = (Ret tt, w') /\
    s_allocator w' = None.
Proof.
  destruct (finalize_resets_tracer
              (traced_world (mem_tracer aws_default_allocator 1 16))
              (mk_context (mem_tracer aws_default_allocator 1 16) (Some 2%nat)))
    as (w' & E & _ & _ & H).
  exists w'. split; [exact E|].
  apply H; [discriminate | reflexivity].
Defined.
